(** * Solar analytics services: a shallow embedding and its properties

    The development follows the two Python services of the repository:

    - [ai-analysis-service/ml_model.py] (class [SolarPerformanceModel]) and
      [ai-analysis-service/app.py] (the Flask end points), in the modules
      [MlModel] and [App];
    - [ai/main.py] (seasonal forecast and IQR anomaly detection behind
      FastAPI end points), in the module [AiMain].

    Numbers.  Python [int] and [float] values are embedded as exact
    rationals ([Q]); numeric equality is [Qeq] (written [==]), as Python's
    [==] on numbers is.  Binary rounding of IEEE doubles is therefore not
    part of the model, nor are their infinities and NaN; the decimal
    rounding done by the built-in [round] is.

    Dictionaries.  The telemetry record is a Python [dict] read with
    [inputs.get(key, default)]; in [MlModel] it is embedded as a
    [gmap string Q], a key being absent exactly when the lookup is [None].
    The requests of the Flask end points carry arbitrary JSON values; in
    [App] the record is a [gmap] of such values, and a value that is not a
    number makes the arithmetic of the model raise [TypeError], which the
    end points catch.

    Randomness and dates.  The forecast draws one random number per day and
    parses one timestamp; the sequence of draws and the parser are
    parameters of the embedding.  Dates are day numbers within the range of
    [datetime], beyond which the date arithmetic raises [OverflowError].

    The file has three parts: the embedding of the services, the vocabulary
    of the statements, and the lemmas and theorems. *)

From Stdlib Require Import ZArith QArith Qabs Qminmax Qround Lqa Lia List.
From Stdlib Require Import Sorted Permutation.
From stdpp Require Import gmap strings list fin_maps.

Open Scope Q_scope.

(** ** Python and NumPy built-ins *)

Module Py.

(** [x < y] as a boolean, for the conditions of [if] statements. *)
Definition Qltb (x y : Q) : bool := negb (Qle_bool y x).

(** The built-ins [min(a, b)] and [max(a, b)]: the first argument is kept
    unless the second is strictly smaller (resp. larger). *)
Definition py_min (a b : Q) : Q := if Qltb b a then b else a.
Definition py_max (a b : Q) : Q := if Qltb a b then b else a.

(** Rounding to the nearest integer, ties to the even neighbour. *)
Definition round_half_even (x : Q) : Z :=
  let f := Qfloor x in
  let r := x - inject_Z f in
  if Qltb r (1 # 2) then f
  else if Qltb (1 # 2) r then (f + 1)%Z
  else if Z.even f then f else (f + 1)%Z.

(** The built-in [round(x, ndigits)]. *)
Definition py_round (x : Q) (ndigits : nat) : Q :=
  let scale := inject_Z (10 ^ Z.of_nat ndigits) in
  Qred (inject_Z (round_half_even (x * scale)) / scale).

(** [sum(l)] and [numpy.mean(l)] (the latter on a non-empty list). *)
Definition py_sum (l : list Q) : Q := fold_left Qplus l 0.
Definition np_mean (l : list Q) : Q := py_sum l / inject_Z (Z.of_nat (length l)).

(** Stable sorting by a key.
    [list.sort(key=...)] and [sorted(..., key=...)] are stable.  [before y x]
    says that the key of [y] is strictly ahead of the key of [x]; [insert_by]
    puts [x] in front of the first element that is not strictly ahead of it,
    so [x] stays in front of the later elements of equal key. *)
Section StableSort.
Context {A : Type} (before : A -> A -> bool).

Fixpoint insert_by (x : A) (l : list A) : list A :=
  match l with
  | [] => [x]
  | y :: l' => if before y x then y :: insert_by x l' else x :: l
  end.

Definition sort_by (l : list A) : list A := fold_right insert_by [] l.

End StableSort.

(** [range(start, stop, step)] for a positive [step]. *)
Definition py_range (start stop step : nat) : list nat :=
  map (fun k => start + step * k)%nat (seq 0 ((stop - start + step - 1) / step)).

(** [numpy.percentile(a, q)] with the default linear interpolation between
    the two order statistics around the position [(n - 1) * q / 100]. *)
Definition np_percentile (a : list Q) (q : Q) : Q :=
  let sorted := sort_by Qltb a in
  let n := length a in
  let h := inject_Z (Z.of_nat (n - 1)) * (q / 100) in
  let lo := Z.to_nat (Qfloor h) in
  let hi := Nat.min (lo + 1) (n - 1) in
  let gamma := h - inject_Z (Qfloor h) in
  nth lo sorted 0 + (nth hi sorted 0 - nth lo sorted 0) * gamma.

(** Decision procedures for the order of the rationals. *)
#[global] Instance Qlt_decision (x y : Q) : Decision (x < y).
Proof.
  destruct (Qlt_le_dec x y) as [H | H]; [left; exact H | right; lra].
Defined.

#[global] Instance Qle_decision (x y : Q) : Decision (x <= y).
Proof.
  destruct (Qlt_le_dec y x) as [H | H]; [right; lra | left; exact H].
Defined.

(** [s.lower()] on an ASCII string: the letters A to Z are mapped to a to z,
    every other character is kept. *)
Definition ascii_lower (c : Ascii.ascii) : Ascii.ascii :=
  let n := Ascii.nat_of_ascii c in
  if ((65 <=? n) && (n <=? 90))%nat then Ascii.ascii_of_nat (n + 32) else c.

Fixpoint str_lower (s : string) : string :=
  match s with
  | EmptyString => EmptyString
  | String c s' => String (ascii_lower c) (str_lower s')
  end.

(** [sub in s]: [sub] occurs in [s] as a contiguous substring. *)
Fixpoint str_contains (sub s : string) : bool :=
  if String.prefix sub s then true
  else match s with
       | EmptyString => false
       | String _ s' => str_contains sub s'
       end.


End Py.

Import Py.

(** ** ml_model.py *)

Module MlModel.

(** [self.thresholds], a dictionary with a fixed set of keys. *)
Record thresholds_t := {
  panel_temp_high : Q;
  panel_temp_critical : Q;
  soiling_critical : Q;
  inverter_eff_low : Q;
  battery_soc_low : Q;
  battery_soc_critical : Q;
  deviation_warning : Q;
  deviation_critical : Q
}.

Definition thresholds : thresholds_t := {|
  panel_temp_high := 65;
  panel_temp_critical := 75;
  soiling_critical := 8.0;
  inverter_eff_low := 94.0;
  battery_soc_low := 20;
  battery_soc_critical := 10;
  deviation_warning := 10;
  deviation_critical := 20
|}.

(** [self.feature_importance]; the order of the entries is the insertion
    order of the dictionary. *)
Definition feature_importance : list (string * Q) :=
  [ ("irradiance", 0.35); ("panel_temp", 0.22); ("inverter_eff", 0.15);
    ("soiling_index", 0.12); ("battery_soc", 0.08); ("ambient_temp", 0.04);
    ("wind_speed", 0.02); ("tilt", 0.01); ("azimuth", 0.01);
    ("pr_baseline", 0.0) ].

(** [inputs.get(key, default)]. *)
Definition get (inputs : gmap string Q) (key : string) (dflt : Q) : Q :=
  default dflt (inputs !! key).

(** *** _calculate_fault_probability

    The running [fault_score] is threaded through the four checks.  The
    increments are added exactly; the sum of the doubles can differ from
    the exact sum in its last binary digit (0.4 + 0.3 + 0.2 + 0.1 is
    0.9999999999999999), a difference that the rounding to three decimals
    in [predict_output] removes. *)
Definition _calculate_fault_probability (inputs : gmap string Q) (deviation : Q) : Q :=
  let fault_score := 0 in
  let fault_score :=
    if Qltb (deviation_critical thresholds) (Qabs deviation) then fault_score + 0.4
    else if Qltb (deviation_warning thresholds) (Qabs deviation) then fault_score + 0.2
    else fault_score in
  let panel_temp := get inputs "panel_temp" 35 in
  let fault_score :=
    if Qltb (panel_temp_critical thresholds) panel_temp then fault_score + 0.3
    else if Qltb (panel_temp_high thresholds) panel_temp then fault_score + 0.1
    else fault_score in
  let soiling := get inputs "soiling_index" 2 in
  let fault_score :=
    if Qltb (soiling_critical thresholds) soiling then fault_score + 0.2
    else fault_score in
  let inverter_eff := get inputs "inverter_eff" 96 in
  let fault_score :=
    if Qltb inverter_eff (inverter_eff_low thresholds) then fault_score + 0.1
    else fault_score in
  py_min 1.0 fault_score.

(** *** _get_top_influence_factors

    [sorted(items, key=weight, reverse=True)]: descending, and elements of
    equal weight keep their order. *)
Definition _get_top_influence_factors (inputs : gmap string Q) : list string :=
  let sorted_factors :=
    sort_by (fun y x : string * Q => Qltb (snd x) (snd y)) feature_importance in
  map fst (firstn 3 sorted_factors).

(** *** _generate_recommendations *)

(** The [msg] of a recommendation is an f-string; its template is kept as a
    constructor and the interpolated values as arguments. *)
Inductive message :=
| PanelOverTemperature (panel_temp : Q)
| PanelTemperatureElevated (panel_temp ambient_temp : Q)
| HeavySoiling (soiling : Q)
| ModerateSoiling (soiling : Q)
| InverterBelowBaseline (inverter_eff baseline_eff eff_diff : Q)
| BatteryCriticallyLow (battery_soc : Q)
| BatterySocLow (battery_soc : Q)
| BatterySocStable (battery_soc : Q)
| SignificantUnderperformance (deviation : Q)
| OutputBelowExpected (deviation : Q)
| LowIrradiance (irradiance : Q).

Record recommendation := {
  priority : string;
  msg : message;
  action : string
}.

(** [priority_order.get(x['priority'], 4)]. *)
Definition priority_order (p : string) : nat :=
  if String.eqb p "Critical" then 0
  else if String.eqb p "High" then 1
  else if String.eqb p "Medium" then 2
  else if String.eqb p "Info" then 3
  else 4.

Definition priority_rank (r : recommendation) : nat := priority_order (priority r).

(** The checks of [_generate_recommendations], one function per commented
    block of the source; each takes the list built so far and returns it
    with at most one entry appended. *)

Definition panel_temperature_check (panel_temp ambient_temp : Q)
    (recommendations : list recommendation) : list recommendation :=
  if Qltb (panel_temp_critical thresholds) panel_temp then
    recommendations ++ [ {| priority := "Critical";
      msg := PanelOverTemperature panel_temp;
      action := "Inspect panels for hotspots, check ventilation, consider tilt adjustment" |} ]
  else if Qltb (panel_temp_high thresholds) panel_temp then
    recommendations ++ [ {| priority := "High";
      msg := PanelTemperatureElevated panel_temp ambient_temp;
      action := "Check for adequate airflow, clean panels if soiled" |} ]
  else recommendations.

Definition soiling_check (soiling : Q)
    (recommendations : list recommendation) : list recommendation :=
  if Qltb (soiling_critical thresholds) soiling then
    recommendations ++ [ {| priority := "High";
      msg := HeavySoiling soiling;
      action := "Schedule panel cleaning service" |} ]
  else if Qltb 4.0 soiling then
    recommendations ++ [ {| priority := "Medium";
      msg := ModerateSoiling soiling;
      action := "Add to maintenance schedule" |} ]
  else recommendations.

Definition inverter_efficiency_check (inverter_eff : Q)
    (recommendations : list recommendation) : list recommendation :=
  let baseline_eff := 96.5 in
  let eff_diff := baseline_eff - inverter_eff in
  if Qltb inverter_eff (inverter_eff_low thresholds) then
    recommendations ++ [ {| priority := "Medium";
      msg := InverterBelowBaseline inverter_eff baseline_eff eff_diff;
      action := "Check inverter logs, inspect connections, verify AC voltage" |} ]
  else recommendations.

Definition battery_soc_check (battery_soc : Q)
    (recommendations : list recommendation) : list recommendation :=
  if Qltb battery_soc (battery_soc_critical thresholds) then
    recommendations ++ [ {| priority := "Critical";
      msg := BatteryCriticallyLow battery_soc;
      action := "Reduce load immediately or connect to grid if available" |} ]
  else if Qltb battery_soc (battery_soc_low thresholds) then
    recommendations ++ [ {| priority := "Medium";
      msg := BatterySocLow battery_soc;
      action := "Check solar generation and load management" |} ]
  else
    recommendations ++ [ {| priority := "Info";
      msg := BatterySocStable battery_soc;
      action := "Continue monitoring" |} ].

Definition performance_deviation_check (deviation : Q) (actual_output : option Q)
    (recommendations : list recommendation) : list recommendation :=
  if bool_decide (is_Some actual_output)
     && Qltb deviation (- deviation_critical thresholds) then
    recommendations ++ [ {| priority := "High";
      msg := SignificantUnderperformance deviation;
      action := "Comprehensive system inspection recommended" |} ]
  else if bool_decide (is_Some actual_output)
     && Qltb deviation (- deviation_warning thresholds) then
    recommendations ++ [ {| priority := "Medium";
      msg := OutputBelowExpected deviation;
      action := "Review system logs and sensor calibration" |} ]
  else recommendations.

Definition low_irradiance_info (irradiance : Q)
    (recommendations : list recommendation) : list recommendation :=
  if Qltb irradiance 200 then
    recommendations ++ [ {| priority := "Info";
      msg := LowIrradiance irradiance;
      action := "Normal for low-light conditions (dawn/dusk/cloudy)" |} ]
  else recommendations.

(** The list of recommendations before it is sorted. *)
Definition recommendation_rules (inputs : gmap string Q) (deviation : Q)
    (actual_output : option Q) : list recommendation :=
  let recommendations := [] in
  let panel_temp := get inputs "panel_temp" 35 in
  let ambient_temp := get inputs "ambient_temp" 25 in
  let soiling := get inputs "soiling_index" 2 in
  let inverter_eff := get inputs "inverter_eff" 96 in
  let battery_soc := get inputs "battery_soc" 70 in
  let irradiance := get inputs "irradiance" 800 in
  let recommendations :=
    panel_temperature_check panel_temp ambient_temp recommendations in
  let recommendations := soiling_check soiling recommendations in
  let recommendations := inverter_efficiency_check inverter_eff recommendations in
  let recommendations := battery_soc_check battery_soc recommendations in
  let recommendations :=
    performance_deviation_check deviation actual_output recommendations in
  let recommendations := low_irradiance_info irradiance recommendations in
  recommendations.

(** Sort by priority, keep the first six. *)
Definition _generate_recommendations (inputs : gmap string Q) (deviation : Q)
    (actual_output : option Q) : list recommendation :=
  let recommendations := recommendation_rules inputs deviation actual_output in
  let recommendations :=
    sort_by (fun y x => Nat.ltb (priority_rank y) (priority_rank x))
      recommendations in
  firstn 6 recommendations.

(** *** _calculate_weather_impact *)
Definition _calculate_weather_impact (irradiance wind_speed ambient_temp : Q) : Q :=
  let irradiance_score := py_min 100 ((irradiance / 1000) * 100) in
  let wind_score :=
    if Qle_bool 2 wind_speed && Qle_bool wind_speed 4 then 100
    else py_max 0 (100 - Qabs (wind_speed - 3) * 10) in
  let temp_score := py_max 0 (100 - Qabs (ambient_temp - 25) * 2) in
  let weather_score :=
    irradiance_score * 0.6 + wind_score * 0.2 + temp_score * 0.2 in
  py_round weather_score 1.

(** *** _calculate_battery_health

    The assignments to [health_score] are kept in program order, the first
    penalty included. *)
Definition _calculate_battery_health (soc : Q) (inputs : gmap string Q) : Q :=
  let health_score := 100 in
  let health_score :=
    if Qltb soc 20 || Qltb 95 soc then health_score - 10 else health_score in
  let health_score :=
    if Qle_bool 30 soc && Qle_bool soc 80 then 100
    else if (Qle_bool 20 soc && Qltb soc 30) || (Qltb 80 soc && Qle_bool soc 90) then 95
    else 85 in
  py_round health_score 1.

(** *** predict_output *)

(** The local variables of [predict_output] up to the deviation. *)
Record locals := {
  l_irradiance : Q;
  l_ambient_temp : Q;
  l_panel_temp : Q;
  l_battery_soc : Q;
  l_inverter_eff : Q;
  l_soiling_index : Q;
  l_tilt : Q;
  l_azimuth : Q;
  l_wind_speed : Q;
  l_pr_baseline : Q;
  l_system_capacity : Q;
  l_actual_output : option Q;
  l_temp_correction : Q;
  l_soiling_factor : Q;
  l_inverter_factor : Q;
  l_irradiance_factor : Q;
  l_predicted_output : Q;
  l_deviation : Q
}.

Definition predict_locals (inputs : gmap string Q) : locals :=
  (* Extract features *)
  let irradiance := get inputs "irradiance" 0 in
  let ambient_temp := get inputs "ambient_temp" 25 in
  let panel_temp := get inputs "panel_temp" 35 in
  let battery_soc := get inputs "battery_soc" 70 in
  let inverter_eff := get inputs "inverter_eff" 96.0 in
  let soiling_index := get inputs "soiling_index" 2.0 in
  let tilt := get inputs "tilt" 30 in
  let azimuth := get inputs "azimuth" 180 in
  let wind_speed := get inputs "wind_speed" 2.0 in
  let pr_baseline := get inputs "pr_baseline" 0.80 in
  let system_capacity := get inputs "system_capacity" 100 in
  let actual_output := inputs !! "actual_output" in
  (* Temperature derating *)
  let temp_correction := 1 - ((panel_temp - 25) * 0.004) in
  let temp_correction := py_max 0.7 (py_min 1.0 temp_correction) in
  let soiling_factor := 1 - (soiling_index / 100) in
  let inverter_factor := inverter_eff / 100 in
  let irradiance_factor := irradiance / 1000 in
  let predicted_output :=
    system_capacity * irradiance_factor * pr_baseline * temp_correction
    * soiling_factor * inverter_factor in
  (* Deviation, if the actual output is provided *)
  let deviation :=
    match actual_output with
    | Some actual_output =>
        if Qltb 0 predicted_output then
          ((actual_output - predicted_output) / predicted_output) * 100
        else 0
    | None => 0
    end in
  {| l_irradiance := irradiance; l_ambient_temp := ambient_temp;
     l_panel_temp := panel_temp; l_battery_soc := battery_soc;
     l_inverter_eff := inverter_eff; l_soiling_index := soiling_index;
     l_tilt := tilt; l_azimuth := azimuth; l_wind_speed := wind_speed;
     l_pr_baseline := pr_baseline; l_system_capacity := system_capacity;
     l_actual_output := actual_output;
     l_temp_correction := temp_correction; l_soiling_factor := soiling_factor;
     l_inverter_factor := inverter_factor;
     l_irradiance_factor := irradiance_factor;
     l_predicted_output := predicted_output; l_deviation := deviation |}.

Record performance_metrics_t := {
  temp_correction : Q;
  soiling_factor : Q;
  inverter_factor : Q;
  irradiance_factor : Q
}.

(** The dictionary returned by [predict_output]. *)
Record PredictionResult := {
  predicted_output : Q;
  actual_output : Q;
  deviation : Q;
  fault_prob : Q;
  top_factors : list string;
  recommendations : list recommendation;
  weather_impact_score : Q;
  battery_health_score : Q;
  performance_metrics : performance_metrics_t
}.

Definition predict_output (inputs : gmap string Q) : PredictionResult :=
  let v := predict_locals inputs in
  let fault_prob := _calculate_fault_probability inputs (l_deviation v) in
  let top_factors := _get_top_influence_factors inputs in
  let recommendations :=
    _generate_recommendations inputs (l_deviation v) (l_actual_output v) in
  let weather_impact :=
    _calculate_weather_impact (l_irradiance v) (l_wind_speed v) (l_ambient_temp v) in
  let battery_health := _calculate_battery_health (l_battery_soc v) inputs in
  {| predicted_output := py_round (l_predicted_output v) 2;
     actual_output := default (l_predicted_output v) (l_actual_output v);
     deviation := py_round (l_deviation v) 2;
     fault_prob := py_round fault_prob 3;
     top_factors := top_factors;
     recommendations := recommendations;
     weather_impact_score := weather_impact;
     battery_health_score := battery_health;
     performance_metrics := {|
       temp_correction := py_round (l_temp_correction v) 3;
       soiling_factor := py_round (l_soiling_factor v) 3;
       inverter_factor := py_round (l_inverter_factor v) 3;
       irradiance_factor := py_round (l_irradiance_factor v) 3 |} |}.

(** The request body documented in [app.py]. *)
Definition example_inputs : gmap string Q :=
  <["irradiance" := 915]> (<["ambient_temp" := 32]> (<["panel_temp" := 48]>
  (<["battery_soc" := 72]> (<["inverter_eff" := 96.4]> (<["soiling_index" := 3.1]>
  (<["tilt" := 30]> (<["azimuth" := 180]> (<["wind_speed" := 2.3]>
  (<["pr_baseline" := 0.80]> (<["system_capacity" := 100]>
  (<["actual_output" := 62.4]> ∅))))))))))).

End MlModel.


(** ** app.py *)

Module App.

Import MlModel.

(** The values of a parsed JSON document, as [request.get_json()] returns
    them: [None], a [bool], a number, a [str], a [list] or a [dict]. *)
#[warnings="-register-all"]
Inductive json :=
| JNull
| JBool (b : bool)
| JNumber (q : Q)
| JString (s : string)
| JArray (items : list json)
| JObject (members : gmap string json).

(** The exceptions that the handlers catch. *)
Inductive exception :=
| TypeError
| AttributeError.

(** The body of a request for one site is a JSON object
    [{"site_id": ..., "inputs": ...}]; either key may be missing, and the
    value of either key is any JSON value. *)
Record site_request := {
  site_id : option json;
  inputs : option json
}.

(** The [error] of an error response: a fixed text, or [str(e)] of the
    exception that the handler caught. *)
Inductive error_body :=
| ErrorText (text : string)
| ExceptionText (e : exception).

(** A response is [jsonify(...), status]: an error with its status code, or
    a payload (status 200). *)
Definition response (A : Type) : Type := (Z * error_body) + A.

Definition required_fields : list string :=
  ["irradiance"; "ambient_temp"; "panel_temp"].

(** [field in container]: a key of a [dict], an element of a [list] (an
    element equals the text [field] only if it is that text), a substring
    of a [str]; on any other value the operator raises [TypeError]. *)
Definition py_in (field : string) (container : json) : exception + bool :=
  match container with
  | JObject members => inr (bool_decide (is_Some (members !! field)))
  | JArray items =>
      inr (existsb (fun v => match v with
                             | JString s => String.eqb s field
                             | _ => false
                             end) items)
  | JString s => inr (str_contains field s)
  | JNull | JBool _ | JNumber _ => inl TypeError
  end.

(** The [for field in required_fields] loop: the first missing field. *)
Fixpoint first_missing (fields : list string) (inputs : json)
    : exception + option string :=
  match fields with
  | [] => inr None
  | field :: fields' =>
      match py_in field inputs with
      | inl e => inl e
      | inr true => first_missing fields' inputs
      | inr false => inr (Some field)
      end
  end.

(** *** [predict_output] on the values of a request

    The arithmetic and the comparisons of [predict_output] are defined on
    numbers, [bool] being a subclass of [int] ([True] is 1, and a boolean
    stands in the results as that number); on [None], a [str], a [list] or
    a [dict] they raise [TypeError]. *)
Definition as_number (v : json) : option Q :=
  match v with
  | JNumber q => Some q
  | JBool b => Some (if b then 1 else 0)
  | _ => None
  end.

(** The numbers among the values of a dictionary. *)
Definition numbers_of (inputs : gmap string json) : gmap string Q :=
  omap as_number inputs.

(** A value used as an operand of an arithmetic operator or of a comparison
    with a number. *)
Definition arithmetic (v : json) : exception + unit :=
  match as_number v with
  | Some _ => inr tt
  | None => inl TypeError
  end.

(** The same for [inputs.get(key, default)], every default being a
    number. *)
Definition operand (inputs : gmap string json) (key : string) : exception + unit :=
  match inputs !! key with
  | None => inr tt
  | Some v => arithmetic v
  end.

(** The first exception raised by a sequence of operations. *)
Definition first_exception (operations : list (exception + unit)) : exception + unit :=
  fold_left (fun st operation => match st with
                                 | inl e => inl e
                                 | inr _ => operation
                                 end) operations (inr tt).

(** [actual_output = inputs.get('actual_output', None)]: [None] when the key
    is missing and when its value is null. *)
Definition get_actual_output (inputs : gmap string json) : option json :=
  match inputs !! "actual_output" with
  | None | Some JNull => None
  | Some actual_output => Some actual_output
  end.

(** The dictionary that [predict_output] returns for the values of a
    request: the numbers of [prediction], except that its member
    [actual_output] is the value that was sent, when one was sent. *)
Record analysis := {
  prediction : PredictionResult;
  actual_output_sent : option json
}.

(** [model.predict_output(inputs)].  A value that is not a dictionary has no
    method [get].  On a dictionary the operations that can raise are listed
    in the order of the program, with the line of [ml_model.py] that
    applies them; [tilt] and [azimuth] are read and not used.  When none
    raises, the values read are numbers and the result is that of
    [MlModel.predict_output] on them. *)
Definition model_predict_output (inputs : json) : exception + analysis :=
  match inputs with
  | JObject inputs =>
      let v := predict_locals (numbers_of inputs) in
      let actual_output := get_actual_output inputs in
      match
        first_exception
          [ operand inputs "panel_temp";       (* 99: panel_temp - 25 *)
            operand inputs "soiling_index";    (* 103: soiling_index / 100 *)
            operand inputs "inverter_eff";     (* 106: inverter_eff / 100 *)
            operand inputs "irradiance";       (* 109: irradiance / 1000 *)
            operand inputs "system_capacity";  (* 113: system_capacity * ... *)
            operand inputs "pr_baseline";      (* 115: ... * pr_baseline *)
            match actual_output with           (* 123-125 *)
            | Some actual_output =>
                if Qltb 0 (l_predicted_output v) then arithmetic actual_output
                else inr tt
            | None => inr tt
            end;
            operand inputs "battery_soc";      (* 250: battery_soc < ... *)
            operand inputs "wind_speed";       (* 303: 2 <= wind_speed <= 4 *)
            operand inputs "ambient_temp" ]    (* 306: ambient_temp - 25 *)
      with
      | inl e => inl e
      | inr _ =>
          inr {| prediction := predict_output (numbers_of inputs);
                 actual_output_sent := actual_output |}
      end
  | _ => inl AttributeError
  end.

(** *** The end points *)

(** [/api/ai_analysis]: the result of the model and the site id added to
    it.  An exception raised by the validation loop or by the model is
    caught by the [except Exception] clause and answered with status 500. *)
Definition analyze_performance (data : site_request) : response (analysis * json) :=
  match inputs data with
  | None => inl (400%Z, ErrorText "Missing inputs in request body")
  | Some inputs =>
      let site_id := default (JString "unknown") (site_id data) in
      match first_missing required_fields inputs with
      | inl e => inl (500%Z, ExceptionText e)
      | inr (Some field) =>
          inl (400%Z, ErrorText ("Missing required field: " +:+ field))
      | inr None =>
          match model_predict_output inputs with
          | inl e => inl (500%Z, ExceptionText e)
          | inr result => inr (result, site_id)
          end
      end
  end.

(** An entry of [results]: the analysis with the site id and the status
    ["success"], or the site id, the status ["error"] and [str(e)]. *)
Inductive batch_item :=
| SuccessItem (site_id : json) (result : analysis)
| ErrorItem (site_id : json) (error : error_body).


Definition item_status (r : batch_item) : string :=
  match r with
  | SuccessItem _ _ => "success"
  | ErrorItem _ _ => "error"
  end.

Record batch_response := {
  results : list batch_item;
  total : nat;
  successful : nat
}.

(** [/api/batch_analysis]: [predict_output] is applied to the [inputs] of
    every site as they are, an absent [inputs] being the empty dictionary;
    an exception it raises is caught inside the loop and recorded as the
    item of the site.  The body is a JSON object whose [sites], when
    present, is a list of objects. *)
Definition batch_analyze (data : option (list site_request)) : response batch_response :=
  match data with
  | None => inl (400%Z, ErrorText "Missing sites array in request body")
  | Some sites =>
      let results :=
        fold_left (fun results site_data =>
          let site_id := default (JString "unknown") (site_id site_data) in
          let inputs := default (JObject ∅) (inputs site_data) in
          match model_predict_output inputs with
          | inr result => results ++ [SuccessItem site_id result]
          | inl e => results ++ [ErrorItem site_id (ExceptionText e)]
          end)
          sites [] in
      inr {| results := results;
             total := length results;
             successful :=
               length (filter (fun r => item_status r = "success") results) |}
  end.

End App.

(** ** main.py *)

Module AiMain.

Record TimeSeriesPoint := {
  ts : string;
  ghi_wm2 : Q;
  air_temp_c : Q;
  wind_ms : Q;
  ac_kw : Q
}.

Record ForecastRequest := {
  data : list TimeSeriesPoint;
  forecast_days : Z
}.

(** One entry of the forecast; [date] counts days. *)
Record ForecastPoint := {
  date : Z;
  ac_kw_hat : Q;
  lower_bound : Q;
  upper_bound : Q
}.

Record ForecastResponse := {
  forecast : list ForecastPoint;
  confidence : Q;
  model_used : string
}.

Record AnomalyPoint := {
  a_ts : string;
  actual : Q;
  predicted : Q
}.

Record Anomaly := {
  start : string;
  end_ : string;
  score : Q;
  type : string;
  magnitude : Q
}.

Record AnomalyResponse := {
  anomalies : list Anomaly;
  anomaly_rate : Q;
  method : string
}.

(** The exceptions raised in [main.py].  The detail of an [HTTPException]
    is a text or [str(e)] of a caught exception, kept as it is. *)
Inductive exn :=
| IndexError
| ValueError
| OverflowError
| HTTPException (status_code : Z) (detail : exn_detail)
with exn_detail :=
| Text (s : string)
| StrOf (e : exn).

Definition result (A : Type) : Type := exn + A.

(** Dates are day numbers, day 1 being the first day of the year 1
    ([date.toordinal()]); the last day that [datetime] represents, the last
    of the year 9999, has the number 3652059, and a [timedelta] holds at
    most 999999999 days. *)
Definition max_ordinal : Z := 3652059.
Definition max_timedelta_days : Z := 999999999.

(** [base_date + timedelta(days=days)]: the constructor of [timedelta]
    raises [OverflowError] for a number of days beyond its range, and the
    addition raises it when the sum is not a day of the years 1 to 9999. *)
Definition add_days (base_date days : Z) : result Z :=
  if (max_timedelta_days <? Z.abs days)%Z then inl OverflowError
  else
    let ordinal := (base_date + days)%Z in
    if ((0 <? ordinal) && (ordinal <=? max_ordinal))%Z then inr ordinal
    else inl OverflowError.

(** A [for] loop whose body may raise: the first exception ends the loop. *)
Definition for_each {St A : Type} (body : St -> A -> result St) (l : list A)
    (init : St) : result St :=
  fold_left (fun st x => match st with
                         | inl e => inl e
                         | inr st => body st x
                         end) l (inr init).

Section Forecast.

(** [fromisoformat s] is the day number of
    [datetime.fromisoformat(s.replace('Z', '+00:00'))], or [None] where that
    call raises [ValueError]. *)
Variable fromisoformat : string -> option Z.

(** [draws k] is the value of the [k]-th call of [np.random.random()]. *)
Variable draws : nat -> Q.

(** The hourly profile: for each hour [i], the mean of the values at the
    positions [i], [i + 24], [i + 48], ... *)
Definition daily_pattern_of (ac_values : list Q) : list Q :=
  fold_left (fun daily_pattern i =>
      let hour_values :=
        map (fun j => nth j ac_values 0) (py_range i (length ac_values) 24) in
      daily_pattern ++
        [ match hour_values with [] => 0 | _ => np_mean hour_values end ])
    (py_range 0 (Nat.min 24 (length ac_values)) 1) [].

(** One turn of the [for day in range(forecast_days)] loop; the state is the
    forecast built so far and the number of random draws made.  The date of
    the entry is computed first, and the turn ends there when the date is
    out of range. *)
Definition forecast_step (ac_values daily_pattern : list Q) (base_date : Z)
    (st : list ForecastPoint * nat) (day : nat) : result (list ForecastPoint * nat) :=
  let '(forecast, k) := st in
  match add_days base_date (Z.of_nat day + 1) with
  | inl e => inl e
  | inr date_str =>
      let daily_total := py_sum daily_pattern in
      let recent_avg :=
        if (7 * 24 <=? length ac_values)%nat
        then np_mean (drop (length ac_values - 7 * 24) ac_values)
        else np_mean ac_values in
      let adjustment := 0.95 + (draws k * 0.1) in
      let predicted := daily_total * adjustment in
      inr (forecast ++ [ {| date := date_str;
                            ac_kw_hat := py_round (py_max 0 predicted) 2;
                            lower_bound := py_round (py_max 0 (predicted * 0.85)) 2;
                            upper_bound := py_round (predicted * 1.15) 2 |} ],
           S k)
  end.

Definition simple_seasonal_forecast (data : list TimeSeriesPoint) (forecast_days : Z)
    : result (list ForecastPoint * Q) :=
  let ac_values := map ac_kw data in
  let ghi_values := map ghi_wm2 data in
  let temp_values := map air_temp_c data in
  let daily_pattern := daily_pattern_of ac_values in
  match last (map ts data) with
  | None => inl IndexError
  | Some last_ts =>
      match fromisoformat last_ts with
      | None => inl ValueError
      | Some base_date =>
          match for_each (forecast_step ac_values daily_pattern base_date)
                  (py_range 0 (Z.to_nat forecast_days) 1) ([], 0%nat) with
          | inl e => inl e
          | inr (forecast, _) => inr (forecast, 0.78)
          end
      end
  end.

(** [/forecast_power].  The [HTTPException] raised for a short series is
    raised inside the [try] block, so the [except Exception] clause catches
    it like any other exception and raises the status-500 exception. *)
Definition forecast_power (request : ForecastRequest) : result ForecastResponse :=
  let body : result ForecastResponse :=
    if (length (data request) <? 24)%nat then
      inl (HTTPException 400 (Text "Need at least 24 hours of data"))
    else
      match simple_seasonal_forecast (data request) (forecast_days request) with
      | inl e => inl e
      | inr (forecast, confidence) =>
          inr {| forecast := forecast; confidence := confidence;
                 model_used := "seasonal_pattern" |}
      end in
  match body with
  | inl e => inl (HTTPException 500 (StrOf e))
  | inr r => inr r
  end.

End Forecast.

(** One turn of the [for i, point in enumerate(residuals)] loop; the state
    is the list of anomalies and [anomaly_count].  [threshold] is a NumPy
    float, so is [threshold * 2], and dividing the positive [residual] by
    a zero of that type gives infinity (with a warning), of which
    [min(1.0, ...)] is [1.0]. *)
Definition anomaly_step (threshold : Q) (st : list Anomaly * nat) (point : AnomalyPoint)
    : list Anomaly * nat :=
  let '(anomalies, anomaly_count) := st in
  let residual := Qabs (actual point - predicted point) in
  if Qltb threshold residual then
    let anomaly_count := S anomaly_count in
    let score :=
      if Qeq_bool (threshold * 2) 0 then 1.0
      else py_min 1.0 (residual / (threshold * 2)) in
    (anomalies ++ [ {| start := a_ts point; end_ := a_ts point;
                       score := py_round score 3;
                       type := "statistical_outlier";
                       magnitude := py_round residual 2 |} ],
     anomaly_count)
  else (anomalies, anomaly_count).

Definition detect_anomalies_isolation_forest (residuals : list AnomalyPoint)
    : list Anomaly * Q :=
  let res_values := map (fun p => Qabs (actual p - predicted p)) residuals in
  match res_values with
  | [] => ([], 0.0)
  | _ =>
      let q1 := np_percentile res_values 25 in
      let q3 := np_percentile res_values 75 in
      let iqr := q3 - q1 in
      let threshold := q3 + 1.5 * iqr in
      let '(anomalies, anomaly_count) :=
        fold_left (anomaly_step threshold) residuals ([], 0%nat) in
      let anomaly_rate :=
        match residuals with
        | [] => 0
        | _ => inject_Z (Z.of_nat anomaly_count)
               / inject_Z (Z.of_nat (length residuals))
        end in
      (anomalies, anomaly_rate)
  end.

(** [/detect_anomalies], with the same [try] / [except Exception] shape as
    [/forecast_power]. *)
Definition detect_anomalies (residuals : list AnomalyPoint) : result AnomalyResponse :=
  let body : result AnomalyResponse :=
    if (length residuals <? 7)%nat then
      inl (HTTPException 400 (Text "Need at least 7 data points"))
    else
      let '(anomalies, anomaly_rate) := detect_anomalies_isolation_forest residuals in
      inr {| anomalies := anomalies; anomaly_rate := py_round anomaly_rate 3;
             method := "iqr_statistical" |} in
  match body with
  | inl e => inl (HTTPException 500 (StrOf e))
  | inr r => inr r
  end.

(** *** Image analysis

    The image URL is an ASCII string.  The values of a detected object are
    numbers or texts. *)

Inductive attr_value :=
| Num (q : Q)
| Str (s : string).

(** One entry of [detected_objects]: the keys ["class"] and ["confidence"],
    and one further key with its value. *)
Record detected_object := {
  obj_class : string;
  obj_confidence : Q;
  obj_attribute : string * attr_value
}.

Record ImageAnalysisResponse := {
  img_type : string;
  img_confidence : Q;
  occlusion_ratio : option Q;
  mask_url : option string;
  detected_objects : list detected_object
}.

(** The local variables of [analyze_image_simple]. *)
Record image_locals := {
  detected_objects_ : list detected_object;
  type_detected : string;
  confidence_ : Q;
  occlusion_ratio_ : Q
}.

Definition analyze_image_simple (image_url : string) : ImageAnalysisResponse :=
  let v := {| detected_objects_ := []; type_detected := "clear";
              confidence_ := 0.75; occlusion_ratio_ := 0.0 |} in
  let v :=
    if str_contains "shadow" (str_lower image_url)
       || str_contains "shade" (str_lower image_url) then
      {| type_detected := "shading"; confidence_ := 0.82;
         occlusion_ratio_ := 0.25;
         detected_objects_ :=
           [ {| obj_class := "shadow"; obj_confidence := 0.82;
                obj_attribute := ("area_ratio", Num 0.25) |} ] |}
    else if str_contains "dirt" (str_lower image_url)
            || str_contains "soil" (str_lower image_url) then
      {| type_detected := "soiling"; confidence_ := 0.79;
         occlusion_ratio_ := 0.15;
         detected_objects_ :=
           [ {| obj_class := "dirt"; obj_confidence := 0.79;
                obj_attribute := ("coverage", Num 0.15) |} ] |}
    else if str_contains "crack" (str_lower image_url) then
      {| type_detected := "crack"; confidence_ := 0.88;
         occlusion_ratio_ := occlusion_ratio_ v;
         detected_objects_ :=
           [ {| obj_class := "crack"; obj_confidence := 0.88;
                obj_attribute := ("severity", Str "medium") |} ] |}
    else
      {| type_detected := "clear"; confidence_ := 0.92;
         occlusion_ratio_ := occlusion_ratio_ v;
         detected_objects_ :=
           [ {| obj_class := "solar_panel"; obj_confidence := 0.92;
                obj_attribute := ("condition", Str "good") |} ] |} in
  {| img_type := type_detected v;
     img_confidence := confidence_ v;
     occlusion_ratio :=
       if Qltb 0 (occlusion_ratio_ v) then Some (occlusion_ratio_ v) else None;
     detected_objects := detected_objects_ v;
     mask_url := None |}.

(** [/analyze_image]: the analysis raises no exception, so the [except]
    clause is not entered. *)
Definition analyze_image (image_url : string) : result ImageAnalysisResponse :=
  inr (analyze_image_simple image_url).


End AiMain.


(** * Vocabulary of the statements

    The definitions below are not part of the services: they name the
    quantities, the example inputs and the properties that the theorems
    speak about. *)

Module MlModelSpec.

Import MlModel.

(** Agreement of a computed value with a quoted approximation: to within
    one unit of the last quoted decimal. *)
Definition approx (x quoted : Q) : Prop := Qabs (x - quoted) <= 0.01.

(** The values quoted for the documented request. *)
Definition example_as_quoted (r : PredictionResult) : Prop :=
  temp_correction (performance_metrics r) == 0.908 /\
  soiling_factor (performance_metrics r) == 0.969 /\
  inverter_factor (performance_metrics r) == 0.964 /\
  irradiance_factor (performance_metrics r) == 0.915 /\
  approx (predicted_output r) 60.09 /\
  approx (deviation r) 3.85 /\
  fault_prob r == 0 /\
  battery_health_score r == 100.

(** Every number of the record is non-negative. *)
Definition nonneg_inputs (inputs : gmap string Q) : Prop :=
  forall key v, inputs !! key = Some v -> 0 <= v.

(** A record with a soiling index of 200 percent. *)
Definition heavy_soiling_inputs : gmap string Q :=
  <["irradiance" := 1000]> (<["soiling_index" := 200]> ∅).

(** The four increments of the fault score, as the table of the scorer
    gives them.  Absolute deviation above 20, or above 10. *)
Definition deviation_increment (deviation : Q) : Q :=
  if Qlt_le_dec 20 (Qabs deviation) then 0.4
  else if Qlt_le_dec 10 (Qabs deviation) then 0.2 else 0.

(** Panel temperature above 75, or above 65. *)
Definition panel_temp_increment (panel_temp : Q) : Q :=
  if Qlt_le_dec 75 panel_temp then 0.3
  else if Qlt_le_dec 65 panel_temp then 0.1 else 0.

(** Soiling index above 8. *)
Definition soiling_increment (soiling_index : Q) : Q :=
  if Qlt_le_dec 8.0 soiling_index then 0.2 else 0.

(** Inverter efficiency below 94. *)
Definition inverter_increment (inverter_eff : Q) : Q :=
  if Qlt_le_dec inverter_eff 94.0 then 0.1 else 0.

(** The bucket function of the battery scorer, without the penalty branch. *)
Definition battery_bucket (soc : Q) : Q :=
  if decide (30 <= soc /\ soc <= 80) then 100
  else if decide ((20 <= soc /\ soc < 30) \/ (80 < soc /\ soc <= 90)) then 95
  else 85.

(** The priority levels in the order in which C7 ranks them, the most
    urgent first. *)
Definition priority_levels : list string := ["Critical"; "High"; "Medium"; "Info"].

(** The position of a text in a list of texts, the length of the list when
    it is not in it. *)
Fixpoint position (p : string) (levels : list string) : nat :=
  match levels with
  | [] => 0
  | q :: levels' => if decide (p = q) then 0 else S (position p levels')
  end.

(** The rank that C7 gives to a priority level: Critical 0, High 1,
    Medium 2, Info 3. *)
Definition claimed_rank (p : string) : nat := position p priority_levels.

(** The priority of an entry is one of the four levels. *)
Definition known_level (r : recommendation) : Prop := In (priority r) priority_levels.

(** [appends P f]: the check [f] appends at most one entry to the list it
    is given, and that entry satisfies [P]. *)
Definition appends (P : recommendation -> Prop)
    (f : list recommendation -> list recommendation) : Prop :=
  forall recs, f recs = recs \/ exists r, P r /\ f recs = recs ++ [r].

(** What holds of every entry a check can append: its rank is at most 3,
    and it is the low-irradiance entry only under an irradiance below 200. *)
Definition rule_entry (irradiance : Q) (r : recommendation) : Prop :=
  (priority_rank r <= 3)%nat /\
  (forall x, msg r = LowIrradiance x -> irradiance < 200).

End MlModelSpec.

Module AppSpec.

Import MlModel App.

(** The keys whose values [predict_output] uses as numbers. *)
Definition operands : list string :=
  ["panel_temp"; "soiling_index"; "inverter_eff"; "irradiance";
   "system_capacity"; "pr_baseline"; "battery_soc"; "wind_speed"; "ambient_temp"].

(** The value of the key, if the dictionary has the key, is a number. *)
Definition number_or_absent (m : gmap string json) (key : string) : Prop :=
  match m !! key with
  | Some v => is_Some (as_number v)
  | None => True
  end.

(** The actual output, if one is sent, is a number. *)
Definition actual_output_number (m : gmap string json) : Prop :=
  match get_actual_output m with
  | Some v => is_Some (as_number v)
  | None => True
  end.

(** The dictionary can be analysed: the values that the model uses as
    numbers are numbers; the actual output is used as a number only under a
    positive predicted output. *)
Definition analysable (m : gmap string json) : Prop :=
  Forall (number_or_absent m) operands /\
  (0 < l_predicted_output (predict_locals (numbers_of m)) -> actual_output_number m).

(** The inputs of the site, the empty dictionary when there are none, are a
    dictionary that can be analysed. *)
Definition site_analysable (site_data : site_request) : Prop :=
  match default (JObject ∅) (inputs site_data) with
  | JObject m => analysable m
  | _ => False
  end.

#[global] Instance number_or_absent_dec (m : gmap string json) (key : string) :
  Decision (number_or_absent m key).
Proof. unfold number_or_absent. destruct (m !! key); apply _. Defined.

#[global] Instance actual_output_number_dec (m : gmap string json) :
  Decision (actual_output_number m).
Proof. unfold actual_output_number. destruct (get_actual_output m); apply _. Defined.

#[global] Instance analysable_dec (m : gmap string json) : Decision (analysable m).
Proof. unfold analysable. apply _. Defined.

#[global] Instance site_analysable_dec (site_data : site_request) :
  Decision (site_analysable site_data).
Proof.
  unfold site_analysable. destruct (default (JObject ∅) (inputs site_data)); apply _.
Defined.

(** The analysis of a dictionary that can be analysed. *)
Definition analysis_of (m : gmap string json) : analysis :=
  {| prediction := predict_output (numbers_of m);
     actual_output_sent := get_actual_output m |}.

(** The item that [batch_analyze] produces for one site. *)
Definition batch_item_of (site_data : site_request) : batch_item :=
  let site_id := default (JString "unknown") (site_id site_data) in
  match model_predict_output (default (JObject ∅) (inputs site_data)) with
  | inr result => SuccessItem site_id result
  | inl e => ErrorItem site_id (ExceptionText e)
  end.

(** A dictionary of numbers as the JSON object of a request. *)
Definition object_of (m : gmap string Q) : json := JObject (JNumber <$> m).

(** A site that reports only its temperatures. *)
Definition temperatures_only : site_request :=
  {| site_id := Some (JString "SGX-ID-123");
     inputs := Some (object_of (<["ambient_temp" := 32]> (<["panel_temp" := 48]> ∅))) |}.


End AppSpec.

Module AiMainSpec.

Import AiMain.

(** The exceptions that leave the two end points when the length guard
    fires: the guard's status-400 exception, wrapped by the [except] clause. *)
Definition too_short_forecast : exn :=
  HTTPException 500 (StrOf (HTTPException 400 (Text "Need at least 24 hours of data"))).

Definition too_short_anomalies : exn :=
  HTTPException 500 (StrOf (HTTPException 400 (Text "Need at least 7 data points"))).

(** An hourly series of constant power. *)
Definition constant_series (ac : Q) (n : nat) : list TimeSeriesPoint :=
  repeat {| ts := "2024-06-01T00:00:00Z"; ghi_wm2 := 0; air_temp_c := 25;
            wind_ms := 2; ac_kw := ac |} n.

(** Residual points of the given magnitudes, with the timestamps 0, 1, ... *)
Definition residual_series (magnitudes : list Q) : list AnomalyPoint :=
  imap (fun i r => {| a_ts := String (Ascii.ascii_of_nat (48 + i)) EmptyString;
                      actual := r; predicted := 0 |}) magnitudes.

(** Every date of the forecast can be represented: when at least one day
    is requested, the day after the last timestamp and the last day of the
    forecast are days of the years 1 to 9999. *)
Definition horizon_in_range (base_date days : Z) : Prop :=
  (0 < days)%Z -> (0 <= base_date)%Z /\ (base_date + days <= max_ordinal)%Z.

(** The forecast entry of one day, from the daily total of the hourly
    profile and the random draw [u] of that day. *)
Definition forecast_point (daily_total : Q) (base_date : Z) (u : Q) (day : nat)
    : ForecastPoint :=
  let predicted := daily_total * (0.95 + u * 0.1) in
  {| date := (base_date + (Z.of_nat day + 1))%Z;
     ac_kw_hat := py_round (py_max 0 predicted) 2;
     lower_bound := py_round (py_max 0 (predicted * 0.85)) 2;
     upper_bound := py_round (predicted * 1.15) 2 |}.

(** The prediction of day [k] before clamping and rounding. *)
Definition raw_prediction (draws : nat -> Q) (request : ForecastRequest) (k : nat) : Q :=
  py_sum (daily_pattern_of (map ac_kw (data request))) * (0.95 + draws k * 0.1).

(** The bounds of a forecast entry as C2 states them, for the raw
    prediction [predicted]. *)
Definition bounds_as_stated (predicted : Q) (pt : ForecastPoint) : Prop :=
  lower_bound pt == Qmax 0 (predicted * 0.85) /\
  upper_bound pt == predicted * 1.15 /\
  0 <= ac_kw_hat pt /\ 0 <= lower_bound pt /\ 0 <= upper_bound pt /\
  lower_bound pt <= ac_kw_hat pt /\ ac_kw_hat pt <= upper_bound pt.

(** C2 as it is stated, for one request. *)
Definition forecast_as_stated (fromisoformat : string -> option Z) (draws : nat -> Q)
    (request : ForecastRequest) : Prop :=
  forall response k pt,
    forecast_power fromisoformat draws request = inr response ->
    forecast response !! k = Some pt ->
    bounds_as_stated (raw_prediction draws request k) pt.

(** The absolute residual of a point. *)
Definition residual_of (p : AnomalyPoint) : Q := Qabs (actual p - predicted p).

(** The upper Tukey fence over the absolute residuals. *)
Definition iqr_threshold (residuals : list AnomalyPoint) : Q :=
  let res_values := map residual_of residuals in
  let q1 := np_percentile res_values 25 in
  let q3 := np_percentile res_values 75 in
  q3 + 1.5 * (q3 - q1).

(** The score of a flagged residual before rounding; under a zero fence the
    quotient is infinite and the score is 1. *)
Definition outlier_score (threshold residual : Q) : Q :=
  if Qeq_dec (threshold * 2) 0 then 1
  else Qmin 1 (residual / (threshold * 2)).

(** The record of a flagged point. *)
Definition anomaly_of (threshold : Q) (p : AnomalyPoint) : Anomaly :=
  {| start := a_ts p; end_ := a_ts p;
     score := py_round (outlier_score threshold (residual_of p)) 3;
     type := "statistical_outlier";
     magnitude := py_round (residual_of p) 2 |}.

(** The score of every flagged point is the unrounded quotient, as C6
    states it. *)
Definition scores_unrounded (residuals : list AnomalyPoint) : Prop :=
  let threshold := iqr_threshold residuals in
  Forall2 (fun a p => score a == Qmin 1 (residual_of p / (threshold * 2)))
    (fst (detect_anomalies_isolation_forest residuals))
    (filter (fun p => threshold < residual_of p) residuals).

(** Eight residuals of magnitude 3 followed by one of magnitude 4. *)
Definition nine_residuals : list AnomalyPoint :=
  residual_series [3; 3; 3; 3; 3; 3; 3; 3; 4].

End AiMainSpec.

(** * Vocabulary of the further properties *)

Module MlModelMoreSpec.

Import MlModel.

(** The entry, if any, that each check contributes to the list. *)
Definition rule_contributions (inputs : gmap string Q) (deviation : Q)
    (actual_output : option Q) : list (list recommendation) :=
  [ panel_temperature_check (get inputs "panel_temp" 35)
      (get inputs "ambient_temp" 25) [];
    soiling_check (get inputs "soiling_index" 2) [];
    inverter_efficiency_check (get inputs "inverter_eff" 96) [];
    battery_soc_check (get inputs "battery_soc" 70) [];
    performance_deviation_check deviation actual_output [];
    low_irradiance_info (get inputs "irradiance" 800) [] ].

(** The messages of the battery check. *)
Definition is_battery_msg (m : message) : bool :=
  match m with
  | BatteryCriticallyLow _ | BatterySocLow _ | BatterySocStable _ => true
  | _ => false
  end.

(** The messages of the performance deviation check. *)
Definition is_deviation_msg (m : message) : bool :=
  match m with
  | SignificantUnderperformance _ | OutputBelowExpected _ => true
  | _ => false
  end.

(** The messages of the low-irradiance note. *)
Definition is_low_irradiance_msg (m : message) : bool :=
  match m with
  | LowIrradiance _ => true
  | _ => false
  end.

End MlModelMoreSpec.


Module AiMainMoreSpec.

Import AiMain.

(** [occurs sub s]: the text [sub] occurs somewhere in [s]. *)
Definition occurs (sub s : string) : Prop :=
  exists before after, s = before +:+ sub +:+ after.

(** A residual point with its two values exchanged. *)
Definition swap_point (p : AnomalyPoint) : AnomalyPoint :=
  {| a_ts := a_ts p; actual := predicted p; predicted := actual p |}.

End AiMainMoreSpec.


(** * Properties *)

(** ** Lemmas on the built-ins *)

Module PyFacts.

Lemma Qltb_lt (x y : Q) : Qltb x y = true <-> x < y.
Proof.
  unfold Qltb. rewrite negb_true_iff, <- not_true_iff_false, Qle_bool_iff.
  split; [apply Qnot_le_lt | apply Qlt_not_le].
Qed.

Lemma Qltb_ge (x y : Q) : Qltb x y = false <-> y <= x.
Proof.
  unfold Qltb. rewrite negb_false_iff, Qle_bool_iff. reflexivity.
Qed.

Lemma Qle_bool_gt (x y : Q) : Qle_bool x y = false <-> y < x.
Proof.
  rewrite <- not_true_iff_false, Qle_bool_iff.
  split; [apply Qnot_le_lt | apply Qlt_not_le].
Qed.

#[global] Instance Qltb_comp : Proper (Qeq ==> Qeq ==> eq) Qltb.
Proof. intros x x' Hx y y' Hy. unfold Qltb. now rewrite Hx, Hy. Qed.

(** Turn every boolean comparison of the goal into an order hypothesis. *)
Ltac qcase_step :=
  match goal with
  | |- context [Qltb ?a ?b] =>
      let H := fresh "Hc" in
      destruct (Qltb a b) eqn:H;
      [apply Qltb_lt in H | apply Qltb_ge in H]
  | |- context [Qle_bool ?a ?b] =>
      let H := fresh "Hc" in
      destruct (Qle_bool a b) eqn:H;
      [apply Qle_bool_iff in H | apply Qle_bool_gt in H]
  end.

Ltac qcases := repeat (qcase_step; cbn [andb orb negb]; try lra).

Lemma py_min_Qmin (a b : Q) : py_min a b == Qmin a b.
Proof.
  unfold py_min. qcase_step.
  - rewrite Q.min_r; [reflexivity | lra].
  - rewrite Q.min_l; [reflexivity | lra].
Qed.

Lemma py_max_Qmax (a b : Q) : py_max a b == Qmax a b.
Proof.
  unfold py_max. qcase_step.
  - rewrite Q.max_r; [reflexivity | lra].
  - rewrite Q.max_l; [reflexivity | lra].
Qed.

Lemma py_min_le_l (a b : Q) : py_min a b <= a.
Proof. unfold py_min. qcases. Qed.

Lemma py_min_le_r (a b : Q) : py_min a b <= b.
Proof. unfold py_min. qcases. Qed.

Lemma py_max_ge_l (a b : Q) : a <= py_max a b.
Proof. unfold py_max. qcases. Qed.

Lemma py_max_ge_r (a b : Q) : b <= py_max a b.
Proof. unfold py_max. qcases. Qed.

#[global] Instance round_half_even_comp : Proper (Qeq ==> eq) round_half_even.
Proof.
  intros x y Hxy. unfold round_half_even.
  rewrite (Qfloor_comp _ _ Hxy).
  assert (Hr : x - inject_Z (Qfloor y) == y - inject_Z (Qfloor y)) by now rewrite Hxy.
  cbv zeta.
  rewrite (Qltb_comp _ _ Hr _ _ (Qeq_refl _)).
  rewrite (Qltb_comp _ _ (Qeq_refl (1 # 2)) _ _ Hr).
  reflexivity.
Qed.

Lemma py_round_comp (x y : Q) (n : nat) : x == y -> py_round x n = py_round y n.
Proof.
  intros Hxy. unfold py_round. apply Qred_complete. now rewrite Hxy.
Qed.

Lemma round_half_even_nonneg (x : Q) : 0 <= x -> (0 <= round_half_even x)%Z.
Proof.
  intros Hx. unfold round_half_even.
  assert (Hf : (0 <= Qfloor x)%Z).
  { change 0%Z with (Qfloor 0). now apply Qfloor_resp_le. }
  repeat match goal with |- context [if ?c then _ else _] => destruct c end; lia.
Qed.

Lemma pow10_pos (n : nat) : 0 < inject_Z (10 ^ Z.of_nat n).
Proof.
  change 0 with (inject_Z 0). rewrite <- Zlt_Qlt.
  apply Z.pow_pos_nonneg; lia.
Qed.

Lemma py_round_nonneg (x : Q) (n : nat) : 0 <= x -> 0 <= py_round x n.
Proof.
  intros Hx. unfold py_round. rewrite Qred_correct.
  pose proof (pow10_pos n) as Hs.
  apply Qle_shift_div_l; [assumption |]. rewrite Qmult_0_l.
  change 0 with (inject_Z 0). rewrite <- Zle_Qle.
  apply round_half_even_nonneg. apply Qmult_le_0_compat; lra.
Qed.

Lemma round_half_even_mono (x y : Q) :
  x <= y -> (round_half_even x <= round_half_even y)%Z.
Proof.
  intros Hxy. unfold round_half_even. cbv zeta.
  pose proof (Qfloor_resp_le _ _ Hxy) as Hf.
  pose proof (Qfloor_le x) as Hx1. pose proof (Qlt_floor x) as Hx2.
  pose proof (Qfloor_le y) as Hy1. pose proof (Qlt_floor y) as Hy2.
  destruct (Z.eq_dec (Qfloor x) (Qfloor y)) as [He | Hne].
  - rewrite He in *. qcases; destruct (Z.even (Qfloor y)); lia.
  - assert (Hlt : (Qfloor x + 1 <= Qfloor y)%Z) by lia.
    repeat match goal with |- context [if ?c then _ else _] => destruct c end; lia.
Qed.

Lemma py_round_mono (x y : Q) (n : nat) : x <= y -> py_round x n <= py_round y n.
Proof.
  intros Hxy. unfold py_round. cbv zeta. rewrite !Qred_correct.
  pose proof (pow10_pos n) as Hs.
  apply Qmult_le_compat_r; [| apply Qlt_le_weak, Qinv_lt_0_compat, Hs].
  rewrite <- Zle_Qle. apply round_half_even_mono.
  apply Qmult_le_compat_r; lra.
Qed.

Lemma py_sum_from (l : list Q) (acc : Q) : fold_left Qplus l acc == acc + py_sum l.
Proof.
  unfold py_sum. revert acc. induction l as [|x l IH]; intros acc; simpl.
  - ring.
  - rewrite IH, (IH (0 + x)). ring.
Qed.

Lemma py_sum_nonneg (l : list Q) : Forall (Qle 0) l -> 0 <= py_sum l.
Proof.
  induction 1 as [|x l Hx Hl IH]; [unfold py_sum; simpl; lra |].
  unfold py_sum. simpl. rewrite py_sum_from. lra.
Qed.

Lemma np_mean_nonneg (l : list Q) : Forall (Qle 0) l -> 0 <= np_mean l.
Proof.
  intros Hl. unfold np_mean. apply Qmult_le_0_compat; [now apply py_sum_nonneg |].
  apply Qinv_le_0_compat. change 0 with (inject_Z 0). rewrite <- Zle_Qle. lia.
Qed.

Lemma py_range_seq (n : nat) : py_range 0 n 1 = seq 0 n.
Proof.
  unfold py_range. replace ((n - 0 + 1 - 1) / 1)%nat with n
    by (rewrite Nat.div_1_r; lia).
  rewrite <- (map_id (seq 0 n)) at 2. apply map_ext. intros k. lia.
Qed.

(** Quartiles of 1, ..., 8 as NumPy computes them. *)
Example np_percentile_quartiles :
  np_percentile [8; 1; 7; 2; 6; 3; 5; 4] 25 == 2.75 /\
  np_percentile [8; 1; 7; 2; 6; 3; 5; 4] 75 == 6.25.
Proof. split; vm_compute; reflexivity. Qed.

(** Ties go to the even neighbour, on both sides of zero. *)
Example py_round_ties :
  py_round 0.125 2 == 0.12 /\ py_round 0.375 2 == 0.38 /\
  py_round (-26.22) 2 == -26.22 /\ py_round 2.5 0 == 2.
Proof. repeat split. Qed.

(** *** Sorting by a natural-number key *)

Section SortByKey.
Context {A : Type} (key : A -> nat).

Local Abbreviation before := (fun y x : A => (key y <? key x)%nat).
Local Abbreviation key_le := (fun a b : A => (key a <= key b)%nat).

Lemma insert_by_perm (x : A) (l : list A) :
  Permutation (insert_by before x l) (x :: l).
Proof.
  induction l as [|y l IH]; simpl; [reflexivity |].
  destruct (before y x); [| reflexivity].
  rewrite IH. apply perm_swap.
Qed.

Lemma sort_by_perm (l : list A) : Permutation (sort_by before l) l.
Proof.
  induction l as [|x l IH]; simpl; [reflexivity |].
  rewrite insert_by_perm. now constructor.
Qed.

Lemma insert_by_sorted (x : A) (l : list A) :
  StronglySorted key_le l -> StronglySorted key_le (insert_by before x l).
Proof.
  induction 1 as [|y l Hl IH Hy]; simpl.
  - repeat constructor.
  - destruct (Nat.ltb_spec (key y) (key x)) as [Hlt | Hge].
    + constructor; [exact IH |].
      rewrite Forall_forall. intros z Hz.
      rewrite insert_by_perm in Hz. apply elem_of_cons in Hz.
      destruct Hz as [-> | Hz]; [lia |].
      rewrite Forall_forall in Hy. now apply Hy.
    + constructor; [now constructor |].
      constructor; [exact Hge |].
      eapply Forall_impl; [exact Hy |].
      intros z Hz. cbv beta in *. lia.
Qed.

Lemma sort_by_sorted (l : list A) : StronglySorted key_le (sort_by before l).
Proof.
  induction l as [|x l IH]; simpl; [constructor | now apply insert_by_sorted].
Qed.

(** Stability: the entries of any one key are in their original order. *)
Lemma insert_by_stable (k : nat) (x : A) (l : list A) :
  filter (fun a => key a = k) (insert_by before x l)
  = filter (fun a => key a = k) (x :: l).
Proof.
  induction l as [|y l IH]; simpl; [reflexivity |].
  destruct (Nat.ltb_spec (key y) (key x)) as [Hlt | Hge]; [| reflexivity].
  rewrite (filter_cons _ y), IH, !filter_cons.
  repeat case_decide; try reflexivity; lia.
Qed.

Lemma sort_by_stable (k : nat) (l : list A) :
  filter (fun a => key a = k) (sort_by before l) = filter (fun a => key a = k) l.
Proof.
  induction l as [|x l IH]; simpl; [reflexivity |].
  rewrite insert_by_stable, !filter_cons, IH. reflexivity.
Qed.

Lemma firstn_sorted (R : A -> A -> Prop) (n : nat) (l : list A) :
  StronglySorted R l -> StronglySorted R (firstn n l).
Proof.
  intros Hl. revert n. induction Hl as [|x l Hl IH Hx]; intros [|n]; simpl;
    try constructor; [apply IH |].
  rewrite Forall_forall in *. intros y Hy. apply Hx.
  exact (subseteq_take n l y Hy).
Qed.

End SortByKey.

End PyFacts.

Import PyFacts.

(** ** The performance model *)

Module MlModelFacts.

Import MlModel MlModelSpec.

(** *** The documented example *)

(** C1, as stated, does not hold: for the documented request the product of
    the factors is 62.0865804096, reported as 62.09, and not about 60.09
    (and the deviation is reported as 0.5, not about 3.85). *)
Lemma example_not_as_quoted : ~ example_as_quoted (predict_output example_inputs).
Proof.
  intros (_ & _ & _ & _ & Hp & _).
  unfold approx in Hp. revert Hp. vm_compute. intros Hp. apply Hp. reflexivity.
Qed.

(** C1, amended: for the documented request the analysis returns
    temp_correction 0.908, soiling_factor 0.969, inverter_factor 0.964,
    irradiance_factor 0.915, predicted_output 62.09 (the product is
    62.0865804096), deviation 0.5, fault_prob 0 and battery_health_score
    100. *)
Theorem example_analysis :
  let r := predict_output example_inputs in
  temp_correction (performance_metrics r) == 0.908 /\
  soiling_factor (performance_metrics r) == 0.969 /\
  inverter_factor (performance_metrics r) == 0.964 /\
  irradiance_factor (performance_metrics r) == 0.915 /\
  l_predicted_output (predict_locals example_inputs) == 62.0865804096 /\
  predicted_output r == 62.09 /\
  deviation r == 0.5 /\
  fault_prob r == 0 /\
  battery_health_score r == 100.
Proof. vm_compute. repeat split; reflexivity. Qed.

(** The other fields of the result for the documented request. *)
Example documented_request_other_fields :
  let r := predict_output example_inputs in
  top_factors r = ["irradiance"; "panel_temp"; "inverter_eff"] /\
  weather_impact_score r == 92.1 /\
  actual_output r == 62.4 /\
  map priority (recommendations r) = ["Info"].
Proof. vm_compute. repeat split; reflexivity. Qed.

(** *** Sign of the predicted output *)

Lemma get_nonneg (inputs : gmap string Q) (key : string) (dflt : Q) :
  nonneg_inputs inputs -> 0 <= dflt -> 0 <= get inputs key dflt.
Proof.
  intros Hin Hd. unfold get.
  destruct (inputs !! key) as [v|] eqn:Hk; simpl; [exact (Hin _ _ Hk) | exact Hd].
Qed.

Lemma get_le (inputs : gmap string Q) (key : string) (dflt bound : Q) :
  (forall v, inputs !! key = Some v -> v <= bound) -> dflt <= bound ->
  get inputs key dflt <= bound.
Proof.
  intros Hin Hd. unfold get.
  destruct (inputs !! key) as [v|] eqn:Hk; simpl; [exact (Hin _ eq_refl) | exact Hd].
Qed.

Lemma temp_correction_range (inputs : gmap string Q) :
  0.7 <= l_temp_correction (predict_locals inputs) <= 1.0.
Proof.
  cbn [predict_locals l_temp_correction]. unfold py_max, py_min. split; qcases.
Qed.

Lemma factors_nonneg (capacity irr pr tc soiling eff : Q) :
  0 <= capacity -> 0 <= irr -> 0 <= pr -> 0.7 <= tc -> soiling <= 100 -> 0 <= eff ->
  0 <= capacity * (irr / 1000) * pr * tc * (1 - soiling / 100) * (eff / 100).
Proof.
  intros Hc Hi Hp Ht Hs He.
  assert (Hfi : 0 <= irr / 1000) by (apply Qle_shift_div_l; lra).
  assert (Hfe : 0 <= eff / 100) by (apply Qle_shift_div_l; lra).
  assert (Hfs : 0 <= 1 - soiling / 100).
  { assert (E : 1 - soiling / 100 == (100 - soiling) / 100) by field.
    rewrite E. apply Qle_shift_div_l; lra. }
  assert (Hft : 0 <= tc) by lra.
  revert Hfi Hfe Hfs.
  generalize (irr / 1000) (eff / 100) (1 - soiling / 100). intros fi fe fs Hfi Hfe Hfs.
  repeat apply Qmult_le_0_compat; assumption.
Qed.

(** C3, as stated, does not hold: all numbers of the record are
    non-negative, the soiling factor is [1 - 200/100 = -1] and the
    predicted output is negative. *)
Lemma predicted_output_negative :
  nonneg_inputs heavy_soiling_inputs /\
  l_predicted_output (predict_locals heavy_soiling_inputs) < 0 /\
  predicted_output (predict_output heavy_soiling_inputs) < 0.
Proof.
  split.
  - intros key v. unfold heavy_soiling_inputs.
    rewrite !lookup_insert, lookup_empty.
    repeat case_decide; intros [= <-]; lra.
  - split; vm_compute; reflexivity.
Qed.

(** C3, amended: when every number of the record is non-negative and the
    soiling index is at most 100, the predicted output is non-negative,
    before and after rounding. *)
Theorem predicted_output_nonneg (inputs : gmap string Q) :
  nonneg_inputs inputs ->
  (forall v, inputs !! "soiling_index" = Some v -> v <= 100) ->
  0 <= l_predicted_output (predict_locals inputs) /\
  0 <= predicted_output (predict_output inputs).
Proof.
  intros Hin Hsoil.
  assert (Hraw : 0 <= l_predicted_output (predict_locals inputs)).
  { pose proof (temp_correction_range inputs) as [Htc _].
    cbn [predict_locals l_predicted_output l_temp_correction] in *.
    pose proof (get_nonneg inputs "system_capacity" 100 Hin ltac:(lra)).
    pose proof (get_nonneg inputs "irradiance" 0 Hin ltac:(lra)).
    pose proof (get_nonneg inputs "pr_baseline" 0.80 Hin ltac:(lra)).
    pose proof (get_nonneg inputs "inverter_eff" 96.0 Hin ltac:(lra)).
    pose proof (get_le inputs "soiling_index" 2.0 100 Hsoil ltac:(lra)).
    now apply factors_nonneg. }
  split; [exact Hraw |].
  cbn [predict_output predicted_output]. now apply py_round_nonneg.
Qed.

Lemma predicted_output_nonneg_witness :
  0 <= l_predicted_output (predict_locals example_inputs) /\
  0 <= predicted_output (predict_output example_inputs).
Proof.
  apply (predicted_output_nonneg example_inputs).
  - intros key v. unfold example_inputs.
    rewrite !lookup_insert, lookup_empty.
    repeat case_decide; intros [= <-]; lra.
  - intros v. vm_compute. intros [= <-]. discriminate.
Defined.

(** *** Deviation *)

(** C8: the deviation is ((actual - predicted) / predicted) * 100 when the
    actual output is supplied and the predicted output is positive, and 0
    when the actual output is absent or the predicted output is not
    positive; the reported deviation is its rounding to two decimals, 0 in
    the latter cases.  [predict_output] is a total function: no input makes
    it fail. *)
Theorem deviation_cases (inputs : gmap string Q) :
  let v := predict_locals inputs in
  let p := l_predicted_output v in
  (forall a, inputs !! "actual_output" = Some a -> 0 < p ->
     l_deviation v == (a - p) / p * 100) /\
  (inputs !! "actual_output" = None -> l_deviation v = 0) /\
  (p <= 0 -> l_deviation v = 0) /\
  deviation (predict_output inputs) = py_round (l_deviation v) 2 /\
  (inputs !! "actual_output" = None \/ p <= 0 ->
     deviation (predict_output inputs) = 0).
Proof.
  cbn zeta.
  assert (Hnone : inputs !! "actual_output" = None ->
                  l_deviation (predict_locals inputs) = 0).
  { intros Ha. cbn [predict_locals l_deviation]. now rewrite Ha. }
  assert (Hle : l_predicted_output (predict_locals inputs) <= 0 ->
                l_deviation (predict_locals inputs) = 0).
  { cbn [predict_locals l_deviation l_predicted_output]. intros Hp.
    destruct (inputs !! "actual_output"); [| reflexivity].
    apply Qltb_ge in Hp. now rewrite Hp. }
  repeat split.
  - intros a Ha Hp. cbn [predict_locals l_deviation l_predicted_output] in *.
    rewrite Ha. apply Qltb_lt in Hp. rewrite Hp. reflexivity.
  - exact Hnone.
  - exact Hle.
  - intros [Ha | Hp]; cbn [predict_output deviation].
    + now rewrite (Hnone Ha).
    + now rewrite (Hle Hp).
Qed.

Lemma deviation_cases_witness :
  l_deviation (predict_locals example_inputs)
  == (62.4 - 62.0865804096) / 62.0865804096 * 100.
Proof.
  destruct (deviation_cases example_inputs) as (Hsupplied & _).
  rewrite (Hsupplied 62.4); [| reflexivity | vm_compute; reflexivity].
  vm_compute. reflexivity.
Defined.

(** *** Fault probability *)

Ltac dec_cases :=
  repeat match goal with
         | |- context [Qlt_le_dec ?a ?b] => destruct (Qlt_le_dec a b); try lra
         end.

(** The score is a multiple of 0.1, so rounding it to three decimals does
    not change its value. *)
Lemma fault_probability_rounded (inputs : gmap string Q) (deviation : Q) :
  py_round (_calculate_fault_probability inputs deviation) 3
  == _calculate_fault_probability inputs deviation.
Proof.
  unfold _calculate_fault_probability.
  cbn [thresholds deviation_critical deviation_warning
    panel_temp_critical panel_temp_high soiling_critical inverter_eff_low].
  generalize (Qabs deviation) (get inputs "panel_temp" 35)
    (get inputs "soiling_index" 2) (get inputs "inverter_eff" 96).
  intros d t s e. cbv zeta. qcases; vm_compute; reflexivity.
Qed.

(** C4: the fault probability is the minimum of 1 and the sum of the four
    increments (deviation, panel temperature, soiling, inverter efficiency),
    each chosen independently of the others, and it lies between 0 and 1;
    the analysis reports this value. *)
Theorem fault_probability_sum (inputs : gmap string Q) (deviation : Q) :
  let s := deviation_increment deviation
           + panel_temp_increment (get inputs "panel_temp" 35)
           + soiling_increment (get inputs "soiling_index" 2)
           + inverter_increment (get inputs "inverter_eff" 96) in
  _calculate_fault_probability inputs deviation == Qmin 1 s /\
  0 <= _calculate_fault_probability inputs deviation <= 1 /\
  fault_prob (predict_output inputs)
  == _calculate_fault_probability inputs (l_deviation (predict_locals inputs)).
Proof.
  cbn zeta. split; [| split]; [| | apply fault_probability_rounded].
  - unfold _calculate_fault_probability.
    rewrite py_min_Qmin. cbn [thresholds deviation_critical deviation_warning
      panel_temp_critical panel_temp_high soiling_critical inverter_eff_low].
    unfold deviation_increment, panel_temp_increment, soiling_increment,
      inverter_increment.
    generalize (Qabs deviation) (get inputs "panel_temp" 35)
      (get inputs "soiling_index" 2) (get inputs "inverter_eff" 96).
    intros d t s e. qcases; dec_cases; reflexivity.
  - unfold _calculate_fault_probability.
    cbn [thresholds deviation_critical deviation_warning
      panel_temp_critical panel_temp_high soiling_critical inverter_eff_low].
    generalize (Qabs deviation) (get inputs "panel_temp" 35)
      (get inputs "soiling_index" 2) (get inputs "inverter_eff" 96).
    intros d t s e. cbv zeta. qcases; vm_compute; split; discriminate.
Qed.

(** *** Battery health *)

(** C5: the battery score, computed with the initial penalty branch, equals
    the bucket function (100 for 30 <= soc <= 80, 95 for 20 <= soc < 30 or
    80 < soc <= 90, 85 otherwise), and is one of 85, 95 and 100. *)
Theorem battery_health_bucket (soc : Q) (inputs : gmap string Q) :
  _calculate_battery_health soc inputs = battery_bucket soc /\
  (_calculate_battery_health soc inputs = 85 \/
   _calculate_battery_health soc inputs = 95 \/
   _calculate_battery_health soc inputs = 100).
Proof.
  unfold _calculate_battery_health, battery_bucket. cbv zeta.
  change (py_round 100 1) with 100.
  change (py_round 95 1) with 95.
  change (py_round 85 1) with 85.
  repeat case_decide; qcases; auto; exfalso; lra.
Qed.

(** *** Recommendations *)

Ltac check_cases f :=
  intros recs; unfold f; cbv zeta;
  repeat match goal with
         | |- context [if ?c then _ else _] => destruct c eqn:?
         end;
  first [ left; reflexivity | right; eexists; split; [| reflexivity] ].

Lemma panel_temperature_check_appends (irr panel_temp ambient_temp : Q) :
  appends (rule_entry irr) (panel_temperature_check panel_temp ambient_temp).
Proof. check_cases panel_temperature_check; (split; [vm_compute; lia | discriminate]). Qed.

Lemma soiling_check_appends (irr soiling : Q) :
  appends (rule_entry irr) (soiling_check soiling).
Proof. check_cases soiling_check; (split; [vm_compute; lia | discriminate]). Qed.

Lemma inverter_efficiency_check_appends (irr inverter_eff : Q) :
  appends (rule_entry irr) (inverter_efficiency_check inverter_eff).
Proof. check_cases inverter_efficiency_check; (split; [vm_compute; lia | discriminate]). Qed.

Lemma battery_soc_check_appends (irr battery_soc : Q) :
  appends (rule_entry irr) (battery_soc_check battery_soc).
Proof. check_cases battery_soc_check; (split; [vm_compute; lia | discriminate]). Qed.

Lemma performance_deviation_check_appends (irr deviation : Q) (actual_output : option Q) :
  appends (rule_entry irr) (performance_deviation_check deviation actual_output).
Proof. check_cases performance_deviation_check; (split; [vm_compute; lia | discriminate]). Qed.

Lemma low_irradiance_info_appends (irradiance : Q) :
  appends (rule_entry irradiance) (low_irradiance_info irradiance).
Proof.
  check_cases low_irradiance_info.
  split; [vm_compute; lia |]. intros x _. now apply Qltb_lt.
Qed.

(** A check applied after a list of bounded length and good entries. *)
Lemma appends_step (P : recommendation -> Prop) f (recs : list recommendation) (n : nat) :
  appends P f -> (length recs <= n)%nat /\ Forall P recs ->
  (length (f recs) <= S n)%nat /\ Forall P (f recs).
Proof.
  intros Hf [Hlen HP]. destruct (Hf recs) as [-> | (r & Hr & ->)].
  - split; [lia | exact HP].
  - rewrite length_app, Forall_app, Forall_singleton. simpl. split; [lia | tauto].
Qed.

Lemma recommendation_rules_entries (inputs : gmap string Q) (deviation : Q)
    (actual_output : option Q) :
  (length (recommendation_rules inputs deviation actual_output) <= 6)%nat /\
  Forall (rule_entry (get inputs "irradiance" 800))
    (recommendation_rules inputs deviation actual_output).
Proof.
  unfold recommendation_rules. cbv zeta.
  apply appends_step; [apply low_irradiance_info_appends |].
  apply appends_step; [apply performance_deviation_check_appends |].
  apply appends_step; [apply battery_soc_check_appends |].
  apply appends_step; [apply inverter_efficiency_check_appends |].
  apply appends_step; [apply soiling_check_appends |].
  apply appends_step; [apply panel_temperature_check_appends |].
  split; [simpl; lia | constructor].
Qed.

(** The six rules append at most one entry each. *)
Lemma recommendation_rules_length (inputs : gmap string Q) (deviation : Q)
    (actual_output : option Q) :
  (length (recommendation_rules inputs deviation actual_output) <= 6)%nat.
Proof. apply recommendation_rules_entries. Qed.

(** Only the last rule produces the low-irradiance entry. *)
Lemma recommendation_rules_low_irradiance (inputs : gmap string Q) (deviation : Q)
    (actual_output : option Q) (r : recommendation) (x : Q) :
  r ∈ recommendation_rules inputs deviation actual_output ->
  msg r = LowIrradiance x ->
  get inputs "irradiance" 800 < 200.
Proof.
  intros Hr Hm.
  destruct (recommendation_rules_entries inputs deviation actual_output) as [_ HP].
  rewrite Forall_forall in HP. destruct (HP r Hr) as [_ Hlow]. eauto.
Qed.

Lemma priority_rank_rules (inputs : gmap string Q) (deviation : Q)
    (actual_output : option Q) (r : recommendation) :
  r ∈ recommendation_rules inputs deviation actual_output ->
  (priority_rank r <= 3)%nat.
Proof.
  intros Hr.
  destruct (recommendation_rules_entries inputs deviation actual_output) as [_ HP].
  rewrite Forall_forall in HP. now destruct (HP r Hr).
Qed.

(** Every entry that a rule appends carries one of the four priority
    levels. *)
Lemma recommendation_rules_levels (inputs : gmap string Q) (deviation : Q)
    (actual_output : option Q) :
  Forall known_level (recommendation_rules inputs deviation actual_output).
Proof.
  assert (Hstep : forall f recs, appends known_level f ->
                    Forall known_level recs -> Forall known_level (f recs)).
  { intros f recs Hf HP. destruct (Hf recs) as [-> | (r & Hr & ->)]; [exact HP |].
    rewrite Forall_app, Forall_singleton. tauto. }
  unfold recommendation_rules. cbv zeta.
  apply Hstep; [check_cases low_irradiance_info; unfold known_level; simpl; auto 6 |].
  apply Hstep; [check_cases performance_deviation_check; unfold known_level; simpl; auto 6 |].
  apply Hstep; [check_cases battery_soc_check; unfold known_level; simpl; auto 6 |].
  apply Hstep; [check_cases inverter_efficiency_check; unfold known_level; simpl; auto 6 |].
  apply Hstep; [check_cases soiling_check; unfold known_level; simpl; auto 6 |].
  apply Hstep; [check_cases panel_temperature_check; unfold known_level; simpl; auto 6 |].
  constructor.
Qed.

(** The sort key of the code is the rank of C7, on every text. *)
Lemma priority_order_claimed_rank (p : string) : priority_order p = claimed_rank p.
Proof.
  unfold priority_order, claimed_rank, priority_levels. cbn [position].
  repeat case_decide; subst; try reflexivity.
  repeat match goal with
         | H : p <> _ |- _ => apply String.eqb_neq in H; rewrite H; clear H
         end.
  reflexivity.
Qed.

(** Two entries of known level have the same level exactly when they have
    the same sort key. *)
Lemma known_level_rank (r : recommendation) (p : string) :
  known_level r -> In p priority_levels ->
  priority r = p <-> priority_rank r = priority_order p.
Proof.
  unfold known_level, priority_rank. generalize (priority r). intros q Hq Hp.
  simpl in Hq, Hp.
  destruct Hq as [<- | [<- | [<- | [<- | []]]]];
    destruct Hp as [<- | [<- | [<- | [<- | []]]]];
    (split; [intros H; first [reflexivity | discriminate H]
            | intros H; first [reflexivity | exfalso; revert H; vm_compute; lia]]).
Qed.

Lemma filter_agree {A : Type} (P R : A -> Prop) `{!forall x, Decision (P x)}
    `{!forall x, Decision (R x)} (l : list A) :
  Forall (fun x => P x <-> R x) l -> filter P l = filter R l.
Proof.
  induction 1 as [|x l Hx Hl IH]; [reflexivity |].
  rewrite !filter_cons, IH. repeat case_decide; tauto.
Qed.

Lemma filter_never {A : Type} (l : list A) : filter (fun _ : A => False) l = [].
Proof.
  induction l as [|x l IH]; [reflexivity |]. now rewrite filter_cons_False by tauto.
Qed.

Lemma StronglySorted_weaken {A : Type} (R R' : A -> A -> Prop) (l : list A) :
  (forall a b, R a b -> R' a b) -> StronglySorted R l -> StronglySorted R' l.
Proof.
  intros HR. induction 1 as [|a l Hl IH Ha]; constructor; [exact IH |].
  eapply List.Forall_impl; [| exact Ha]. intros b. apply HR.
Qed.

(** C7: the table of the sort gives Critical 0, High 1, Medium 2 and Info 3;
    every recommendation carries one of these four levels, and in the
    returned list no entry comes after an entry of a higher rank number
    (Critical first, then High, Medium, Info); the entries of each level
    are in the order in which the rules produced them; there are at most
    six, and the truncation to six entries drops none. *)
Theorem recommendations_sorted_stable (inputs : gmap string Q) (deviation : Q)
    (actual_output : option Q) :
  let rules := recommendation_rules inputs deviation actual_output in
  let recs := _generate_recommendations inputs deviation actual_output in
  map priority_order priority_levels = [0; 1; 2; 3]%nat /\
  Forall known_level recs /\
  StronglySorted
    (fun a b => (claimed_rank (priority a) <= claimed_rank (priority b))%nat) recs /\
  (forall p : string,
     filter (fun r => priority r = p) recs = filter (fun r => priority r = p) rules) /\
  (length recs <= 6)%nat /\
  Permutation recs rules /\
  recommendations (predict_output inputs)
  = _generate_recommendations inputs
      (l_deviation (predict_locals inputs)) (inputs !! "actual_output").
Proof.
  cbv zeta. unfold _generate_recommendations. cbv zeta.
  pose proof (recommendation_rules_length inputs deviation actual_output) as Hlen.
  pose proof (recommendation_rules_levels inputs deviation actual_output) as Hlev.
  pose proof (sort_by_perm priority_rank
                (recommendation_rules inputs deviation actual_output)) as Hperm.
  rewrite take_ge by (rewrite Hperm; exact Hlen).
  assert (Hsorted_lev : Forall known_level
            (sort_by (fun y x => Nat.ltb (priority_rank y) (priority_rank x))
               (recommendation_rules inputs deviation actual_output))).
  { rewrite Hperm. exact Hlev. }
  split; [reflexivity |]. split; [exact Hsorted_lev |]. split; [| split; [| split; [| split]]].
  - apply (StronglySorted_weaken
             (fun a b => (priority_rank a <= priority_rank b)%nat)).
    + intros a b. unfold priority_rank. now rewrite !priority_order_claimed_rank.
    + apply (sort_by_sorted priority_rank).
  - intros p. destruct (in_dec String.string_dec p priority_levels) as [Hp | Hp].
    + rewrite (filter_agree (fun r => priority r = p)
                 (fun r => priority_rank r = priority_order p)
                 (sort_by _ _)).
      * rewrite (filter_agree (fun r => priority r = p)
                   (fun r => priority_rank r = priority_order p)
                   (recommendation_rules _ _ _)).
        -- apply (sort_by_stable priority_rank).
        -- eapply List.Forall_impl; [| exact Hlev].
           intros r Hr. now apply known_level_rank.
      * eapply List.Forall_impl; [| exact Hsorted_lev].
        intros r Hr. now apply known_level_rank.
    + rewrite (filter_agree (fun r => priority r = p) (fun _ => False) (sort_by _ _)).
      * rewrite (filter_agree (fun r => priority r = p) (fun _ => False)
                   (recommendation_rules _ _ _)).
        -- now rewrite !filter_never.
        -- eapply List.Forall_impl; [| exact Hlev].
           intros r Hr. split; [intros <-; contradiction | tauto].
      * eapply List.Forall_impl; [| exact Hsorted_lev].
        intros r Hr. split; [intros <-; contradiction | tauto].
  - rewrite Hperm. exact Hlen.
  - exact Hperm.
  - reflexivity.
Qed.

End MlModelFacts.

(** ** The Flask end points *)

Module AppFacts.

Import MlModel App MlModelSpec AppSpec MlModelFacts.

(** *** The operations of the model on the values of a request *)

Lemma numbers_of_lookup_None (m : gmap string json) (key : string) :
  m !! key = None -> numbers_of m !! key = None.
Proof. intros H. unfold numbers_of. now rewrite lookup_omap, H. Qed.

Lemma numbers_of_object (m : gmap string Q) : numbers_of (JNumber <$> m) = m.
Proof.
  unfold numbers_of. apply map_eq. intros key.
  rewrite lookup_omap, lookup_fmap. now destruct (m !! key).
Qed.

Lemma arithmetic_ok (v : json) : arithmetic v = inr tt <-> is_Some (as_number v).
Proof.
  unfold arithmetic. destruct (as_number v) as [q|].
  - split; [eauto | reflexivity].
  - split; [discriminate | intros [q [=]]].
Qed.

Lemma arithmetic_error (v : json) (e : exception) :
  arithmetic v = inl e -> e = TypeError.
Proof. unfold arithmetic. destruct (as_number v); [discriminate | now intros [= <-]]. Qed.

Lemma operand_ok (m : gmap string json) (key : string) :
  operand m key = inr tt <-> number_or_absent m key.
Proof.
  unfold operand, number_or_absent. destruct (m !! key) as [v|].
  - apply arithmetic_ok.
  - tauto.
Qed.

Lemma operand_error (m : gmap string json) (key : string) (e : exception) :
  operand m key = inl e -> e = TypeError.
Proof.
  unfold operand. destruct (m !! key) as [v|]; [apply arithmetic_error | discriminate].
Qed.

Lemma first_exception_raised (operations : list (exception + unit)) (e : exception) :
  fold_left (fun st operation => match st with
                                 | inl e => inl e
                                 | inr _ => operation
                                 end) operations (inl e) = inl e.
Proof. induction operations as [|o operations IH]; simpl; [reflexivity | exact IH]. Qed.

(** No exception is raised exactly when no operation raises one. *)
Lemma first_exception_ok (operations : list (exception + unit)) :
  first_exception operations = inr tt <-> List.Forall (fun o => o = inr tt) operations.
Proof.
  unfold first_exception.
  induction operations as [|o operations IH]; simpl.
  - split; [constructor | reflexivity].
  - destruct o as [e | []].
    + rewrite first_exception_raised.
      split; [discriminate | intros H; inversion H; discriminate].
    + rewrite IH. split; [now constructor | intros H; now inversion H].
Qed.

(** The exception raised is the exception of one of the operations. *)
Lemma first_exception_error (operations : list (exception + unit)) (e : exception) :
  first_exception operations = inl e -> In (inl e) operations.
Proof.
  unfold first_exception.
  induction operations as [|o operations IH]; simpl; [discriminate |].
  destruct o as [e' | []].
  - rewrite first_exception_raised. intros [= <-]. now left.
  - intros H. right. now apply IH.
Qed.

(** On a dictionary the model raises nothing exactly when the dictionary
    can be analysed, and it raises no other exception than [TypeError]. *)
Lemma model_predict_output_object (m : gmap string json) :
  (analysable m -> model_predict_output (JObject m) = inr (analysis_of m)) /\
  (~ analysable m -> model_predict_output (JObject m) = inl TypeError).
Proof.
  unfold model_predict_output, analysable, actual_output_number.
  set (operations := [_; _; _; _; _; _; _; _; _; _]).
  assert (Hok : first_exception operations = inr tt <->
                List.Forall (number_or_absent m) operands /\
                (0 < l_predicted_output (predict_locals (numbers_of m)) ->
                 match get_actual_output m with
                 | Some v => is_Some (as_number v)
                 | None => True
                 end)).
  { rewrite first_exception_ok. subst operations. unfold operands.
    repeat rewrite List.Forall_cons_iff. rewrite !operand_ok.
    pose proof (List.Forall_nil (fun o : exception + unit => o = inr tt)) as Hnil.
    pose proof (List.Forall_nil (number_or_absent m)) as Hnil'.
    destruct (get_actual_output m) as [v|].
    - destruct (Qltb 0 _) eqn:Hpos.
      + rewrite arithmetic_ok. apply Qltb_lt in Hpos. tauto.
      + assert (~ 0 < l_predicted_output (predict_locals (numbers_of m))).
        { intros H. apply Qltb_lt in H. congruence. }
        tauto.
    - tauto. }
  assert (Herr : forall e, first_exception operations = inl e -> e = TypeError).
  { intros e He. apply first_exception_error in He. subst operations.
    simpl in He.
    repeat match goal with
           | H : _ \/ _ |- _ => destruct H as [H | H]
           | H : operand _ _ = inl _ |- _ => exact (operand_error _ _ _ H)
           | H : False |- _ => destruct H
           end.
    destruct (get_actual_output m) as [v|]; [| discriminate].
    destruct (Qltb 0 _); [exact (arithmetic_error _ _ He) | discriminate]. }
  destruct (first_exception operations) as [e | []] eqn:Hfirst.
  - split; [intros H; apply Hok in H; discriminate |].
    intros _. now rewrite (Herr e eq_refl).
  - split; [reflexivity |]. intros H. exfalso. apply H, Hok. reflexivity.
Qed.



(** *** The loop of the batch end point *)

Lemma batch_loop_map (sites : list site_request) (acc : list batch_item) :
  fold_left (fun results site_data =>
      let site_id := default (JString "unknown") (site_id site_data) in
      let inputs := default (JObject ∅) (inputs site_data) in
      match model_predict_output inputs with
      | inr result => results ++ [SuccessItem site_id result]
      | inl e => results ++ [ErrorItem site_id (ExceptionText e)]
      end)
    sites acc
  = acc ++ map batch_item_of sites.
Proof.
  revert acc. induction sites as [|site sites IH]; intros acc; simpl.
  - now rewrite app_nil_r.
  - rewrite IH. unfold batch_item_of.
    destruct (model_predict_output _); now rewrite <- app_assoc.
Qed.

(** The batch end point produces an item for every site, whatever its
    inputs contain. *)
Lemma batch_analyze_results (sites : list site_request) :
  exists resp, batch_analyze (Some sites) = inr resp /\
               results resp = map batch_item_of sites.
Proof.
  unfold batch_analyze. rewrite batch_loop_map. simpl. eauto.
Qed.

Lemma predicted_output_without_irradiance (inputs : gmap string Q) :
  inputs !! "irradiance" = None ->
  l_irradiance (predict_locals inputs) = 0 /\
  l_predicted_output (predict_locals inputs) == 0 /\
  predicted_output (predict_output inputs) = 0.
Proof.
  intros Hirr.
  assert (Hraw : l_predicted_output (predict_locals inputs) == 0).
  { cbn [predict_locals l_predicted_output]. unfold get at 2. rewrite Hirr.
    simpl default. field. }
  repeat split.
  - cbn [predict_locals l_irradiance]. unfold get. now rewrite Hirr.
  - exact Hraw.
  - cbn [predict_output predicted_output]. now rewrite (py_round_comp _ 0 2 Hraw).
Qed.

Lemma no_low_irradiance_without_irradiance (inputs : gmap string Q) (r : recommendation) :
  inputs !! "irradiance" = None ->
  r ∈ recommendations (predict_output inputs) ->
  forall x, msg r <> LowIrradiance x.
Proof.
  intros Hirr Hr x Hm.
  cbn [predict_output recommendations] in Hr. unfold _generate_recommendations in Hr.
  cbv zeta in Hr. apply subseteq_take in Hr.
  rewrite (sort_by_perm priority_rank) in Hr.
  pose proof (recommendation_rules_low_irradiance inputs _ _ r x Hr Hm) as Hlow.
  unfold get in Hlow. rewrite Hirr in Hlow. simpl in Hlow. lra.
Qed.

(** C10: for a site of a batch whose inputs have no irradiance (the other
    values that the model uses being numbers), the batch end point still
    runs the analysis (the single-site end point rejects the request with
    status 400); the predictor takes the irradiance to be 0, so the
    predicted output is 0, while the recommendation rules take it to be
    800, so no low-irradiance entry is among the recommendations. *)
Theorem missing_irradiance_defaults (sites : list site_request) (i : nat)
    (site_data : site_request) (m : gmap string json) :
  sites !! i = Some site_data ->
  default (JObject ∅) (inputs site_data) = JObject m ->
  m !! "irradiance" = None ->
  Forall (number_or_absent m) operands ->
  (exists resp item result,
     batch_analyze (Some sites) = inr resp /\
     results resp !! i = Some item /\
     item_status item = "success" /\
     item = SuccessItem (default (JString "unknown") (site_id site_data)) result /\
     prediction result = predict_output (numbers_of m) /\
     predicted_output (prediction result) = 0 /\
     forall r, r ∈ recommendations (prediction result) ->
               forall x, msg r <> LowIrradiance x) /\
  l_irradiance (predict_locals (numbers_of m)) = 0 /\
  l_predicted_output (predict_locals (numbers_of m)) == 0 /\
  (exists e, analyze_performance site_data = inl (400%Z, e)).
Proof.
  intros Hi Hm Hirr Hnum.
  pose proof (numbers_of_lookup_None m _ Hirr) as Hirr'.
  destruct (predicted_output_without_irradiance _ Hirr') as (Hl & Hraw & Hp).
  assert (Ha : analysable m).
  { split; [exact Hnum |]. intros Hpos. rewrite Hraw in Hpos. lra. }
  repeat split; [| exact Hl | exact Hraw |].
  - destruct (batch_analyze_results sites) as (resp & Hresp & Hres).
    exists resp, (batch_item_of site_data), (analysis_of m).
    assert (Hitem : batch_item_of site_data
                    = SuccessItem (default (JString "unknown") (site_id site_data))
                        (analysis_of m)).
    { unfold batch_item_of. rewrite Hm.
      now rewrite (proj1 (model_predict_output_object m) Ha). }
    repeat split.
    + exact Hresp.
    + rewrite Hres, list_lookup_fmap, Hi. reflexivity.
    + now rewrite Hitem.
    + exact Hitem.
    + exact Hp.
    + intros r Hr.
      exact (no_low_irradiance_without_irradiance _ r Hirr' Hr).
  - unfold analyze_performance.
    destruct (inputs site_data) as [v|]; [| eauto].
    simpl in Hm. subst v. unfold required_fields, first_missing, py_in.
    rewrite Hirr. rewrite bool_decide_eq_false_2 by (intros [? [=]]). eauto.
Qed.

Lemma missing_irradiance_defaults_witness :
  exists resp item result,
    batch_analyze (Some [temperatures_only]) = inr resp /\
    results resp !! 0%nat = Some item /\
    item = SuccessItem (JString "SGX-ID-123") result /\
    predicted_output (prediction result) = 0.
Proof.
  destruct (missing_irradiance_defaults [temperatures_only] 0 temperatures_only
              (JNumber <$> <["ambient_temp" := 32]> (<["panel_temp" := 48]> ∅)))
    as ((resp & item & result & Hresp & Hitem & _ & Hsucc & _ & Hp & _) & _).
  - reflexivity.
  - reflexivity.
  - reflexivity.
  - unfold operands.
    repeat (constructor; [vm_compute; first [exact I | eexists; reflexivity] |]).
    constructor.
  - exists resp, item, result. auto.
Defined.

End AppFacts.

(** ** Forecast and anomaly detection *)

Module AiMainFacts.

Import AiMain AiMainSpec.

(** *** The loop of the forecast and the length guards of the end points *)

Section Guards.
Variable fromisoformat : string -> option Z.
Variable draws : nat -> Q.

Lemma add_days_in_range (base_date days : Z) :
  (0 <= base_date)%Z -> (0 < days)%Z -> (base_date + days <= max_ordinal)%Z ->
  add_days base_date days = inr (base_date + days)%Z.
Proof.
  intros Hbase Hdays Hmax. unfold add_days, max_timedelta_days, max_ordinal in *.
  rewrite Z.abs_eq by lia.
  destruct (Z.ltb_spec 999999999 days) as [H | _]; [lia |]. cbv zeta.
  destruct (Z.ltb_spec 0 (base_date + days)) as [_ | H]; [| lia].
  destruct (Z.leb_spec (base_date + days) 3652059) as [_ | H]; [| lia].
  reflexivity.
Qed.

Lemma add_days_error (base_date days : Z) (e : exn) :
  add_days base_date days = inl e -> e = OverflowError.
Proof.
  unfold add_days. destruct (_ <? _)%Z; [now intros [= <-] |]. cbv zeta.
  destruct (_ && _); [discriminate | now intros [= <-]].
Qed.

(** The loop over the days makes one draw per day, in order. *)
Lemma forecast_loop (ac_values daily_pattern : list Q) (base_date : Z)
    (n a : nat) (acc : list ForecastPoint) :
  (0 <= base_date)%Z -> (base_date + Z.of_nat (a + n) <= max_ordinal)%Z ->
  fold_left (fun st x => match st with
                         | inl e => inl e
                         | inr st => forecast_step draws ac_values daily_pattern
                                       base_date st x
                         end) (seq a n) (inr (acc, a))
  = inr (acc ++ map (fun day => forecast_point (py_sum daily_pattern) base_date
                                  (draws day) day) (seq a n),
         (a + n)%nat).
Proof.
  intros Hbase. revert a acc. induction n as [|n IH]; intros a acc Hmax; simpl.
  - rewrite app_nil_r, Nat.add_0_r. reflexivity.
  - rewrite add_days_in_range by lia. rewrite IH by lia.
    rewrite <- app_assoc, Nat.add_succ_r. reflexivity.
Qed.

(** An exception stops the loop, and the loop raises no other exception
    than the date arithmetic does. *)
Lemma forecast_loop_error (ac_values daily_pattern : list Q) (base_date : Z)
    (days : list nat) (st : result (list ForecastPoint * nat)) (e : exn) :
  fold_left (fun st x => match st with
                         | inl e => inl e
                         | inr st => forecast_step draws ac_values daily_pattern
                                       base_date st x
                         end) days st = inl e ->
  st = inl e \/ e = OverflowError.
Proof.
  revert st. induction days as [|day days IH]; intros st; simpl; [auto |].
  intros H. apply IH in H. destruct H as [H | H]; [| auto].
  destruct st as [e' | [forecast k]]; [auto |]. right.
  unfold forecast_step in H.
  destruct (add_days _ _) as [e' | d] eqn:Hd; [| discriminate].
  injection H as <-. exact (add_days_error _ _ _ Hd).
Qed.

Lemma forecast_loop_stops (ac_values daily_pattern : list Q) (base_date : Z)
    (days : list nat) (e : exn) :
  fold_left (fun st x => match st with
                         | inl e => inl e
                         | inr st => forecast_step draws ac_values daily_pattern
                                       base_date st x
                         end) days (inl e) = inl e.
Proof. induction days as [|day days IH]; simpl; [reflexivity | exact IH]. Qed.

(** A day whose date is out of range makes the loop raise. *)
Lemma forecast_loop_overflow (ac_values daily_pattern : list Q) (base_date : Z)
    (days : list nat) (day : nat) (st : list ForecastPoint * nat) :
  day ∈ days -> add_days base_date (Z.of_nat day + 1) = inl OverflowError ->
  fold_left (fun st x => match st with
                         | inl e => inl e
                         | inr st => forecast_step draws ac_values daily_pattern
                                       base_date st x
                         end) days (inr st) = inl OverflowError.
Proof.
  intros Hin Hday. revert st.
  induction days as [|d days IH]; intros st; [inversion Hin |].
  simpl. apply elem_of_cons in Hin.
  destruct (forecast_step draws ac_values daily_pattern base_date st d)
    as [e | st'] eqn:Hstep.
  - unfold forecast_step in Hstep. destruct st as [forecast k].
    destruct (add_days base_date (Z.of_nat d + 1)) as [e' | date_str] eqn:Hd;
      [| discriminate].
    injection Hstep as <-. apply add_days_error in Hd. subst e'.
    apply forecast_loop_stops.
  - destruct Hin as [-> | Hin]; [| now apply IH].
    unfold forecast_step in Hstep. destruct st as [forecast k].
    rewrite Hday in Hstep. discriminate.
Qed.

Lemma simple_seasonal_forecast_points (data : list TimeSeriesPoint) (days : Z)
    (p : TimeSeriesPoint) (base_date : Z) :
  last data = Some p -> fromisoformat (ts p) = Some base_date ->
  horizon_in_range base_date days ->
  simple_seasonal_forecast fromisoformat draws data days
  = inr (map (fun day =>
                forecast_point (py_sum (daily_pattern_of (map ac_kw data)))
                  base_date (draws day) day)
           (seq 0 (Z.to_nat days)),
         0.78).
Proof.
  intros Hlast Hbase Hrange. unfold simple_seasonal_forecast. cbv zeta.
  change (map ts data) with (ts <$> data). rewrite fmap_last, Hlast. simpl.
  rewrite Hbase, py_range_seq. unfold for_each.
  destruct (Z_lt_le_dec 0 days) as [Hdays | Hdays].
  - destruct (Hrange Hdays) as [Hlow Hhigh].
    rewrite forecast_loop by lia. reflexivity.
  - replace (Z.to_nat days) with 0%nat by lia. reflexivity.
Qed.

Lemma simple_seasonal_forecast_ok (data : list TimeSeriesPoint) (days : Z) :
  (forall p, last data = Some p -> is_Some (fromisoformat (ts p))) ->
  (forall p base_date, last data = Some p -> fromisoformat (ts p) = Some base_date ->
     horizon_in_range base_date days) ->
  data <> [] ->
  exists forecast,
    simple_seasonal_forecast fromisoformat draws data days = inr (forecast, 0.78).
Proof.
  intros Hts Hrange Hne.
  destruct (last data) as [p|] eqn:Hlast;
    [| apply last_None in Hlast; contradiction].
  destruct (Hts p eq_refl) as [base Hbase].
  rewrite (simple_seasonal_forecast_points data days p base Hlast Hbase
             (Hrange p base eq_refl Hbase)).
  eauto.
Qed.

Lemma simple_seasonal_forecast_error (data : list TimeSeriesPoint) (days : Z) (e : exn) :
  simple_seasonal_forecast fromisoformat draws data days = inl e ->
  e = IndexError \/ e = ValueError \/ e = OverflowError.
Proof.
  unfold simple_seasonal_forecast. cbv zeta.
  destruct (last (map ts data)); [| intros [= <-]; auto].
  destruct (fromisoformat _); [| intros [= <-]; auto].
  unfold for_each.
  destruct (fold_left _ _ _) as [e' | [forecast k]] eqn:Hloop; [| discriminate].
  intros [= <-]. apply forecast_loop_error in Hloop.
  destruct Hloop as [Hloop | Hloop]; [discriminate | auto].
Qed.

(** C9: [forecast_power] raises its too-few-points error exactly for a
    series of fewer than 24 points, and succeeds on 24 points or more
    whenever the last timestamp is a valid date and the dates of the
    forecast are within the calendar; [detect_anomalies] raises its
    too-few-points error exactly for fewer than 7 residuals, and succeeds
    on 7 or more. *)
Theorem length_guards :
  (forall request,
     forecast_power fromisoformat draws request = inl too_short_forecast
     <-> (length (data request) < 24)%nat) /\
  (forall request,
     (24 <= length (data request))%nat ->
     (forall p, last (data request) = Some p -> is_Some (fromisoformat (ts p))) ->
     (forall p base_date, last (data request) = Some p ->
        fromisoformat (ts p) = Some base_date ->
        horizon_in_range base_date (forecast_days request)) ->
     exists response, forecast_power fromisoformat draws request = inr response) /\
  (forall residuals,
     detect_anomalies residuals = inl too_short_anomalies
     <-> (length residuals < 7)%nat) /\
  (forall residuals,
     (7 <= length residuals)%nat ->
     exists response, detect_anomalies residuals = inr response).
Proof.
  repeat split.
  - unfold forecast_power. cbv zeta.
    destruct (Nat.ltb_spec (length (data request)) 24) as [Hlt | Hge]; [auto |].
    destruct (simple_seasonal_forecast _ _ _ _) as [e | [forecast confidence]] eqn:Hf;
      [| discriminate].
    apply simple_seasonal_forecast_error in Hf.
    destruct Hf as [-> | [-> | ->]]; discriminate.
  - intros Hlt. unfold forecast_power. cbv zeta.
    apply Nat.ltb_lt in Hlt. now rewrite Hlt.
  - intros request Hlen Hts Hrange. unfold forecast_power. cbv zeta.
    destruct (Nat.ltb_spec (length (data request)) 24) as [Hlt | Hge]; [lia |].
    destruct (simple_seasonal_forecast_ok (data request) (forecast_days request)
                Hts Hrange)
      as [forecast ->]; [| eauto].
    intros Hnil. rewrite Hnil in Hlen. simpl in Hlen. lia.
  - unfold detect_anomalies. cbv zeta.
    destruct (Nat.ltb_spec (length residuals) 7) as [Hlt | Hge]; [auto |].
    destruct (detect_anomalies_isolation_forest residuals). discriminate.
  - intros Hlt. unfold detect_anomalies. cbv zeta.
    apply Nat.ltb_lt in Hlt. now rewrite Hlt.
  - intros residuals Hlen. unfold detect_anomalies. cbv zeta.
    destruct (Nat.ltb_spec (length residuals) 7) as [Hlt | Hge]; [lia |].
    destruct (detect_anomalies_isolation_forest residuals). eauto.
Qed.

End Guards.

Lemma length_guards_witness :
  (forecast_power (fun _ => Some 0%Z) (fun _ => 0)
     {| data := constant_series 5 23; forecast_days := 7 |} = inl too_short_forecast) /\
  (exists response,
     forecast_power (fun _ => Some 0%Z) (fun _ => 0)
       {| data := constant_series 5 24; forecast_days := 7 |} = inr response) /\
  (detect_anomalies (residual_series [1; 1; 1; 1; 1; 1]) = inl too_short_anomalies) /\
  (exists response,
     detect_anomalies (residual_series [1; 1; 1; 1; 1; 1; 10]) = inr response).
Proof.
  destruct (length_guards (fun _ => Some 0%Z) (fun _ => 0)) as (Hf & Hf' & Ha & Ha').
  split; [| split; [| split]].
  - apply Hf. simpl. lia.
  - apply Hf'; [simpl; lia | intros p _; simpl; eauto |].
    intros p base_date _ [= <-]. unfold horizon_in_range, max_ordinal. simpl. lia.
  - apply Ha. simpl. lia.
  - apply Ha'. simpl. lia.
Defined.

(** *** Seasonal forecast *)

Lemma add_days_overflow (base_date days : Z) :
  (0 < days)%Z -> (base_date + days <= 0 \/ max_ordinal < base_date + days)%Z ->
  add_days base_date days = inl OverflowError.
Proof.
  intros Hdays Hout. unfold add_days, max_timedelta_days, max_ordinal in *.
  destruct (Z.ltb_spec 999999999 (Z.abs days)) as [_ | _]; [reflexivity |]. cbv zeta.
  destruct (Z.ltb_spec 0 (base_date + days)) as [Hpos | _]; [| reflexivity].
  destruct (Z.leb_spec (base_date + days) 3652059) as [Hle | _]; [lia | reflexivity].
Qed.

(** Beyond the calendar the forecast helper raises [OverflowError]: the day
    after the last timestamp, or the last day of the horizon, has no date. *)
Lemma simple_seasonal_forecast_overflow (fromisoformat : string -> option Z)
    (draws : nat -> Q) (data : list TimeSeriesPoint) (days : Z)
    (p : TimeSeriesPoint) (base_date : Z) :
  last data = Some p -> fromisoformat (ts p) = Some base_date ->
  ~ horizon_in_range base_date days ->
  simple_seasonal_forecast fromisoformat draws data days = inl OverflowError.
Proof.
  intros Hlast Hbase Hrange.
  assert (Hdays : (0 < days)%Z).
  { destruct (Z_lt_le_dec 0 days) as [H | H]; [exact H |].
    exfalso. apply Hrange. intros H'. lia. }
  assert (Hout : (base_date < 0 \/ max_ordinal < base_date + days)%Z).
  { destruct (Z_lt_le_dec base_date 0) as [H | H]; [auto |].
    destruct (Z_lt_le_dec max_ordinal (base_date + days)) as [H' | H']; [auto |].
    exfalso. apply Hrange. intros _. split; assumption. }
  unfold simple_seasonal_forecast. cbv zeta.
  change (map ts data) with (ts <$> data). rewrite fmap_last, Hlast. simpl.
  rewrite Hbase, py_range_seq. unfold for_each.
  destruct Hout as [Hneg | Hbig].
  - rewrite (forecast_loop_overflow draws _ _ base_date _ 0%nat).
    + reflexivity.
    + apply elem_of_seq. lia.
    + apply add_days_overflow; simpl; lia.
  - rewrite (forecast_loop_overflow draws _ _ base_date _ (Z.to_nat days - 1)%nat).
    + reflexivity.
    + apply elem_of_seq. lia.
    + apply add_days_overflow; lia.
Qed.

Lemma horizon_in_range_dec (base_date days : Z) :
  horizon_in_range base_date days \/ ~ horizon_in_range base_date days.
Proof.
  unfold horizon_in_range.
  destruct (Z_lt_le_dec 0 days) as [Hd | Hd]; [| left; lia].
  destruct (Z_lt_le_dec base_date 0) as [Hb | Hb]; [right; lia |].
  destruct (Z_lt_le_dec max_ordinal (base_date + days)) as [Hm | Hm];
    [right; lia | left; lia].
Qed.

(** A successful forecast: the series has 24 points or more, its last
    timestamp is a date, the horizon is within the calendar, and the
    entries are those of the consecutive days. *)
Lemma forecast_power_success (fromisoformat : string -> option Z) (draws : nat -> Q)
    (request : ForecastRequest) (response : ForecastResponse) :
  forecast_power fromisoformat draws request = inr response ->
  (24 <= length (data request))%nat /\
  exists p base_date,
    last (data request) = Some p /\ fromisoformat (ts p) = Some base_date /\
    horizon_in_range base_date (forecast_days request) /\
    response
    = {| forecast :=
           map (fun day =>
                  forecast_point (py_sum (daily_pattern_of (map ac_kw (data request))))
                    base_date (draws day) day)
             (seq 0 (Z.to_nat (forecast_days request)));
         confidence := 0.78;
         model_used := "seasonal_pattern" |}.
Proof.
  intros Hok. unfold forecast_power in Hok. cbv zeta in Hok.
  destruct (Nat.ltb_spec (length (data request)) 24) as [Hlt | Hge]; [discriminate |].
  split; [exact Hge |].
  destruct (last (data request)) as [p|] eqn:Hlast;
    [| apply last_None in Hlast; rewrite Hlast in Hge; simpl in Hge; lia].
  exists p.
  destruct (fromisoformat (ts p)) as [base_date|] eqn:Hts.
  - exists base_date.
    destruct (horizon_in_range_dec base_date (forecast_days request)) as [Hr | Hr].
    + rewrite (simple_seasonal_forecast_points _ _ _ _ p base_date Hlast Hts Hr) in Hok.
      injection Hok as <-. auto.
    + rewrite (simple_seasonal_forecast_overflow _ _ _ _ p base_date Hlast Hts Hr) in Hok.
      discriminate.
  - exfalso. unfold simple_seasonal_forecast in Hok. cbv zeta in Hok.
    change (map ts (data request)) with (ts <$> data request) in Hok.
    rewrite fmap_last, Hlast in Hok. simpl in Hok. rewrite Hts in Hok. discriminate.
Qed.

(** Twenty-four points of 5 kW: every hourly mean is 5, the daily total
    120. *)
Example daily_pattern_constant :
  daily_pattern_of (map ac_kw (constant_series 5 24)) = repeat 5 24 /\
  py_sum (daily_pattern_of (map ac_kw (constant_series 5 24))) == 120.
Proof. split; vm_compute; reflexivity. Qed.

(** With a non-negative daily total and a non-negative draw, the reported
    prediction lies between the two bounds. *)
Lemma forecast_point_ordered (daily_total : Q) (base_date : Z) (u : Q) (day : nat) :
  0 <= daily_total -> 0 <= u ->
  let pt := forecast_point daily_total base_date u day in
  0 <= lower_bound pt /\ lower_bound pt <= ac_kw_hat pt /\ ac_kw_hat pt <= upper_bound pt.
Proof.
  intros Ht Hu. cbn [forecast_point lower_bound ac_kw_hat upper_bound].
  assert (Hp : 0 <= daily_total * (0.95 + u * 0.1)) by (apply Qmult_le_0_compat; lra).
  revert Hp. generalize (daily_total * (0.95 + u * 0.1)). intros predicted Hp.
  repeat split.
  - apply py_round_nonneg, py_max_ge_l.
  - apply py_round_mono. unfold py_max. qcases.
  - apply py_round_mono. unfold py_max. qcases.
Qed.

Lemma fold_left_snoc_Forall {A B : Type} (P : A -> Prop) (f : B -> A)
    (l : list B) (acc : list A) :
  Forall P acc -> (forall b, P (f b)) ->
  Forall P (fold_left (fun acc b => acc ++ [f b]) l acc).
Proof.
  intros Hacc Hf. revert acc Hacc.
  induction l as [|b l IH]; intros acc Hacc; simpl; [exact Hacc |].
  apply IH. apply Forall_app. split; [exact Hacc |]. apply Forall_singleton, Hf.
Qed.

Lemma daily_pattern_nonneg (ac_values : list Q) :
  Forall (Qle 0) ac_values -> Forall (Qle 0) (daily_pattern_of ac_values).
Proof.
  intros Hac. unfold daily_pattern_of.
  apply (fold_left_snoc_Forall (Qle 0)
           (fun i => match map (fun j => nth j ac_values 0)
                             (py_range i (length ac_values) 24) with
                     | [] => 0
                     | _ => np_mean (map (fun j => nth j ac_values 0)
                                       (py_range i (length ac_values) 24))
                     end)); [constructor |].
  intros i. set (hour_values := map _ _).
  assert (Hh : Forall (Qle 0) hour_values).
  { subst hour_values. apply Forall_forall. intros x Hx.
    apply list_elem_of_In, in_map_iff in Hx. destruct Hx as (j & <- & _).
    destruct (Nat.lt_ge_cases j (length ac_values)) as [Hj | Hj].
    - rewrite Forall_forall in Hac. apply Hac. apply list_elem_of_In. now apply nth_In.
    - rewrite nth_overflow by exact Hj. lra. }
  destruct hour_values; [lra | now apply np_mean_nonneg].
Qed.

(** C2, as stated, does not hold.  First, the bounds are rounded to two
    decimals: for 24 hourly points of 5 kW and the draw 0.123 the raw
    prediction is 115.476 and the lower bound 98.15, not 98.1546.  Second,
    for 24 hourly points of -1 kW (an inverter drawing standby power) and
    the draw 0 the raw prediction is -22.8; the reported prediction and the
    lower bound are clamped to 0, the upper bound is -26.22. *)
Lemma forecast_not_as_stated :
  (24 <= length (constant_series 5 24))%nat /\
  ~ forecast_as_stated (fun _ => Some 0%Z) (fun _ => 0.123)
      {| data := constant_series 5 24; forecast_days := 1 |} /\
  ~ forecast_as_stated (fun _ => Some 0%Z) (fun _ => 0)
      {| data := constant_series (-1) 24; forecast_days := 1 |}.
Proof.
  split; [simpl; lia |]. split; intros H.
  - (* 2887 # 25 = 115.48, 1963 # 20 = 98.15, 664 # 5 = 132.8 *)
    specialize (H {| forecast := [ {| date := 1; ac_kw_hat := 2887 # 25;
                                      lower_bound := 1963 # 20; upper_bound := 664 # 5 |} ];
                     confidence := 0.78; model_used := "seasonal_pattern" |}
                  0%nat _ ltac:(vm_compute; reflexivity) eq_refl).
    destruct H as (Hlow & _). revert Hlow. vm_compute. discriminate.
  - (* -1311 # 50 = -26.22 *)
    specialize (H {| forecast := [ {| date := 1; ac_kw_hat := 0;
                                      lower_bound := 0; upper_bound := -1311 # 50 |} ];
                     confidence := 0.78; model_used := "seasonal_pattern" |}
                  0%nat _ ltac:(vm_compute; reflexivity) eq_refl).
    destruct H as (_ & _ & _ & _ & Hup & _). revert Hup. vm_compute.
    intros Hup. apply Hup. reflexivity.
Qed.

(** The clamps keep the reported prediction and the lower bound
    non-negative and in order, whatever the daily total and the draw. *)
Lemma forecast_point_clamped (daily_total : Q) (base_date : Z) (u : Q) (day : nat) :
  let pt := forecast_point daily_total base_date u day in
  0 <= lower_bound pt /\ lower_bound pt <= ac_kw_hat pt.
Proof.
  cbn [forecast_point lower_bound ac_kw_hat].
  generalize (daily_total * (0.95 + u * 0.1)). intros predicted. split.
  - apply py_round_nonneg, py_max_ge_l.
  - apply py_round_mono. unfold py_max. qcases.
Qed.

(** C2, amended: every forecast point that the forecast end point produces
    (it produces them for a series of at least 24 points whose last
    timestamp is a date, the horizon lying within the calendar) has
    ac_kw_hat = round(max(0, predicted), 2),
    lower_bound = round(max(0, predicted * 0.85), 2) and
    upper_bound = round(predicted * 1.15, 2), where predicted is the daily
    total of the hourly profile times the adjustment 0.95 + 0.1 * draw.
    For every series 0 <= lower_bound <= ac_kw_hat; when the daily total is
    non-negative, as it is for non-negative power values, also
    ac_kw_hat <= upper_bound. *)
Theorem forecast_power_ordered (fromisoformat : string -> option Z) (draws : nat -> Q)
    (request : ForecastRequest) :
  (forall k, 0 <= draws k < 1) ->
  let daily_total := py_sum (daily_pattern_of (map ac_kw (data request))) in
  (Forall (fun p => 0 <= ac_kw p) (data request) -> 0 <= daily_total) /\
  (forall response,
     forecast_power fromisoformat draws request = inr response ->
     length (forecast response) = Z.to_nat (forecast_days request) /\
     forall k pt, forecast response !! k = Some pt ->
       let predicted := raw_prediction draws request k in
       ac_kw_hat pt = py_round (py_max 0 predicted) 2 /\
       lower_bound pt = py_round (py_max 0 (predicted * 0.85)) 2 /\
       upper_bound pt = py_round (predicted * 1.15) 2 /\
       0 <= lower_bound pt /\ lower_bound pt <= ac_kw_hat pt /\
       (0 <= daily_total -> ac_kw_hat pt <= upper_bound pt)) /\
  ((24 <= length (data request))%nat ->
   (forall p, last (data request) = Some p ->
      exists base_date, fromisoformat (ts p) = Some base_date /\
                        horizon_in_range base_date (forecast_days request)) ->
   exists response, forecast_power fromisoformat draws request = inr response).
Proof.
  intros Hdraws. cbv zeta. split; [| split].
  - intros Hac. apply py_sum_nonneg, daily_pattern_nonneg.
    apply Forall_forall. intros x Hx.
    apply list_elem_of_In, in_map_iff in Hx. destruct Hx as (q & <- & Hq).
    rewrite Forall_forall in Hac. apply Hac. now apply list_elem_of_In.
  - intros response Hok.
    destruct (forecast_power_success _ _ _ _ Hok)
      as (_ & p & base_date & _ & _ & _ & ->).
    cbn [forecast]. split; [now rewrite length_map, length_seq |].
    intros k pt Hpt. change map with (@fmap list _) in Hpt at 1.
    rewrite list_lookup_fmap in Hpt.
    destruct (seq 0 (Z.to_nat (forecast_days request)) !! k) as [day|] eqn:Hday;
      [| discriminate].
    apply lookup_seq in Hday. destruct Hday as [-> _]. simpl in Hpt.
    injection Hpt as <-.
    split; [reflexivity |]. split; [reflexivity |]. split; [reflexivity |].
    split; [apply forecast_point_clamped |]. split; [apply forecast_point_clamped |].
    intros Htotal. apply forecast_point_ordered; [exact Htotal | apply Hdraws].
  - intros Hlen Hts. unfold forecast_power. cbv zeta.
    destruct (Nat.ltb_spec (length (data request)) 24) as [Hlt | _]; [lia |].
    destruct (last (data request)) as [p|] eqn:Hlast;
      [| apply last_None in Hlast; rewrite Hlast in Hlen; simpl in Hlen; lia].
    destruct (Hts p eq_refl) as (base_date & Hbase & Hrange).
    rewrite (simple_seasonal_forecast_points _ _ _ _ p base_date Hlast Hbase Hrange).
    eauto.
Qed.

(** Twenty-four hourly points of -1 kW ending on 1 June 2024 (day 739038)
    and the draw 0: the raw prediction is -22.8, the reported prediction
    and the lower bound are 0. *)
Lemma forecast_power_ordered_witness :
  exists response pt,
    forecast_power (fun _ => Some 739038%Z) (fun _ => 0)
      {| data := constant_series (-1) 24; forecast_days := 1 |} = inr response /\
    forecast response !! 0%nat = Some pt /\
    ac_kw_hat pt = 0 /\ lower_bound pt = 0.
Proof.
  destruct (forecast_power_ordered (fun _ => Some 739038%Z) (fun _ => 0)
              {| data := constant_series (-1) 24; forecast_days := 1 |})
    as (_ & Hpts & Hex); [intros k; lra |].
  destruct Hex as [response Hresp].
  - simpl. lia.
  - intros p _. exists 739038%Z. split; [reflexivity |].
    unfold horizon_in_range, max_ordinal. simpl. lia.
  - destruct (Hpts response Hresp) as [Hlen Hpt].
    destruct (forecast response) as [|pt rest] eqn:Hf; [discriminate Hlen |].
    exists response, pt. rewrite Hf. split; [exact Hresp |]. split; [reflexivity |].
    destruct (Hpt 0%nat pt) as (Hhat & Hlow & _); [reflexivity |].
    rewrite Hhat, Hlow. split; vm_compute; reflexivity.
Defined.

(** *** Anomaly detection *)

Lemma anomaly_step_flagged (threshold : Q) (acc : list Anomaly) (n : nat)
    (p : AnomalyPoint) :
  threshold < residual_of p ->
  anomaly_step threshold (acc, n) p = (acc ++ [anomaly_of threshold p], S n).
Proof.
  intros Hp. unfold anomaly_step. fold (residual_of p).
  apply Qltb_lt in Hp. rewrite Hp. cbv zeta.
  unfold anomaly_of, outlier_score. do 3 f_equal. f_equal.
  apply py_round_comp.
  destruct (Qeq_dec (threshold * 2) 0) as [Hz | Hz].
  - apply Qeq_bool_iff in Hz. rewrite Hz. reflexivity.
  - destruct (Qeq_bool (threshold * 2) 0) eqn:Hb;
      [apply Qeq_bool_iff in Hb; contradiction |].
    rewrite py_min_Qmin. apply Q.min_compat; reflexivity.
Qed.

Lemma anomaly_step_unflagged (threshold : Q) (acc : list Anomaly) (n : nat)
    (p : AnomalyPoint) :
  ~ threshold < residual_of p ->
  anomaly_step threshold (acc, n) p = (acc, n).
Proof.
  intros Hp. unfold anomaly_step. fold (residual_of p).
  destruct (Qltb threshold (residual_of p)) eqn:Hb; [| reflexivity].
  apply Qltb_lt in Hb. contradiction.
Qed.

(** The loop over the residuals collects, in order, the records of the
    points above the threshold, and counts them. *)
Lemma anomaly_loop (threshold : Q) (residuals : list AnomalyPoint)
    (acc : list Anomaly) (n : nat) :
  let flagged := filter (fun p => threshold < residual_of p) residuals in
  fold_left (anomaly_step threshold) residuals (acc, n)
  = (acc ++ map (anomaly_of threshold) flagged, (n + length flagged)%nat).
Proof.
  cbv zeta. revert acc n.
  induction residuals as [|p residuals IH]; intros acc n; cbn [fold_left].
  - rewrite filter_nil. simpl. rewrite app_nil_r, Nat.add_0_r. reflexivity.
  - rewrite filter_cons. case_decide as Hp.
    + rewrite (anomaly_step_flagged _ _ _ _ Hp), IH. simpl.
      rewrite <- app_assoc, Nat.add_succ_r. reflexivity.
    + rewrite (anomaly_step_unflagged _ _ _ _ Hp), IH. reflexivity.
Qed.

(** C6, as stated, does not hold: for the nine residuals 3, ..., 3, 4 the
    threshold is 3, the last point is flagged, and its score is 0.667, the
    rounding of 4 / 6 to three decimals. *)
Lemma scores_are_rounded :
  (7 <= length nine_residuals)%nat /\
  ~ scores_unrounded nine_residuals.
Proof.
  split; [simpl; lia |].
  unfold scores_unrounded. cbv zeta.
  assert (Hd : fst (detect_anomalies_isolation_forest nine_residuals)
               = [ {| start := "8"; end_ := "8"; score := 0.667;
                      type := "statistical_outlier"; magnitude := 4 |} ])
    by (vm_compute; reflexivity).
  rewrite Hd.
  assert (Hf : filter (fun p => iqr_threshold nine_residuals < residual_of p)
                 nine_residuals
               = [ {| a_ts := "8"; actual := 4; predicted := 0 |} ])
    by (vm_compute; reflexivity).
  rewrite Hf.
  intros H. apply Forall2_cons_1 in H. destruct H as [H _].
  revert H. vm_compute. discriminate.
Qed.

(** C6, amended: for at least 7 residual points, the flagged points are
    exactly those whose absolute residual exceeds the threshold
    Q3 + 1.5 * (Q3 - Q1), in their order; each carries
    score = round(min(1.0, residual / (threshold * 2)), 3) (score 1 under a
    zero threshold), start = end = its timestamp and the magnitude rounded
    to two decimals; the anomaly rate is the flagged count over the total
    count.  For the magnitudes 1, 1, 1, 1, 1, 1, 10 only the last point is
    flagged and the rate is 1/7. *)
Theorem anomalies_flagged (residuals : list AnomalyPoint) :
  (7 <= length residuals)%nat ->
  let threshold := iqr_threshold residuals in
  let flagged := filter (fun p => threshold < residual_of p) residuals in
  detect_anomalies_isolation_forest residuals
  = (map (anomaly_of threshold) flagged,
     inject_Z (Z.of_nat (length flagged)) / inject_Z (Z.of_nat (length residuals)))
  /\
  detect_anomalies_isolation_forest (residual_series [1; 1; 1; 1; 1; 1; 10])
  = ([ {| start := "6"; end_ := "6"; score := 1;
          type := "statistical_outlier"; magnitude := 10 |} ], 1 # 7).
Proof.
  intros Hlen. cbv zeta. split; [| vm_compute; reflexivity].
  unfold detect_anomalies_isolation_forest. cbv zeta.
  destruct residuals as [|p residuals]; [simpl in Hlen; lia |].
  cbn [map]. fold (residual_of p).
  change (residual_of p :: map (fun p0 => Qabs (actual p0 - predicted p0)) residuals)
    with (map residual_of (p :: residuals)).
  fold (iqr_threshold (p :: residuals)).
  rewrite (anomaly_loop (iqr_threshold (p :: residuals)) (p :: residuals) [] 0).
  reflexivity.
Qed.

Lemma anomalies_flagged_witness :
  fst (detect_anomalies_isolation_forest nine_residuals)
  = [ anomaly_of 3 {| a_ts := "8"; actual := 4; predicted := 0 |} ].
Proof.
  destruct (anomalies_flagged nine_residuals) as [H _].
  - simpl. lia.
  - rewrite H. vm_compute. reflexivity.
Defined.

End AiMainFacts.

(** * Further properties of the services *)

(** ** Sorting and percentiles of rationals *)

Module PyMore.

Section InsertAny.
Context {A : Type} (before : A -> A -> bool).

Lemma insert_by_permutation (x : A) (l : list A) :
  Permutation (insert_by before x l) (x :: l).
Proof.
  induction l as [|y l IH]; simpl; [reflexivity |].
  destruct (before y x); [| reflexivity].
  rewrite IH. apply perm_swap.
Qed.

Lemma sort_by_permutation (l : list A) : Permutation (sort_by before l) l.
Proof.
  induction l as [|x l IH]; simpl; [reflexivity |].
  rewrite insert_by_permutation. now constructor.
Qed.

End InsertAny.

Lemma insert_by_Qltb_sorted (x : Q) (l : list Q) :
  StronglySorted Qle l -> StronglySorted Qle (insert_by Qltb x l).
Proof.
  induction 1 as [|y l Hl IH Hy]; simpl.
  - repeat constructor.
  - destruct (Qltb y x) eqn:Hc; [apply Qltb_lt in Hc | apply Qltb_ge in Hc].
    + constructor; [exact IH |].
      rewrite Forall_forall. intros z Hz.
      rewrite insert_by_permutation in Hz. apply elem_of_cons in Hz.
      destruct Hz as [-> | Hz]; [lra |].
      rewrite Forall_forall in Hy. now apply Hy.
    + constructor; [now constructor |].
      constructor; [exact Hc |].
      eapply Forall_impl; [exact Hy |].
      intros z Hz. cbv beta in *. lra.
Qed.

Lemma sort_by_Qltb_sorted (l : list Q) : StronglySorted Qle (sort_by Qltb l).
Proof.
  induction l as [|x l IH]; simpl; [constructor | now apply insert_by_Qltb_sorted].
Qed.

Lemma sorted_nth_le (s : list Q) (i j : nat) :
  StronglySorted Qle s -> (i <= j)%nat -> (j < length s)%nat ->
  nth i s 0 <= nth j s 0.
Proof.
  intros Hs. revert i j. induction Hs as [|x s Hs IH Hx]; intros i j Hij Hj.
  - simpl in Hj. lia.
  - destruct j as [|j].
    + assert (i = 0%nat) by lia. subst. simpl. lra.
    + destruct i as [|i]; simpl in *.
      * rewrite Forall_forall in Hx. apply Hx.
        apply list_elem_of_In, nth_In. lia.
      * apply IH; lia.
Qed.

(** The position of the percentile [q] among [n] sorted values. *)
Lemma percentile_position (n : nat) (q : Q) :
  0 <= q <= 100 ->
  let h := inject_Z (Z.of_nat (n - 1)) * (q / 100) in
  (0 <= Qfloor h <= Z.of_nat (n - 1))%Z /\
  0 <= h - inject_Z (Qfloor h) < 1.
Proof.
  intros [Hq0 Hq1]. cbv zeta.
  set (h := inject_Z (Z.of_nat (n - 1)) * (q / 100)).
  assert (Hn : 0 <= inject_Z (Z.of_nat (n - 1))).
  { change 0 with (inject_Z 0). rewrite <- Zle_Qle. lia. }
  assert (Hf : 0 <= q / 100 <= 1).
  { assert (E : q / 100 == q * (1 # 100)) by field. rewrite E. lra. }
  assert (Hh : 0 <= h <= inject_Z (Z.of_nat (n - 1))).
  { subst h. revert Hf. generalize (q / 100). intros f Hf.
    assert (H : 0 <= inject_Z (Z.of_nat (n - 1)) * (1 - f))
      by (apply Qmult_le_0_compat; lra).
    split; [apply Qmult_le_0_compat; lra | lra]. }
  split.
  - split.
    + change 0%Z with (Qfloor 0). apply Qfloor_resp_le, Hh.
    + rewrite <- (Qfloor_Z (Z.of_nat (n - 1))). apply Qfloor_resp_le, Hh.
  - pose proof (Qfloor_le h). pose proof (Qlt_floor h) as Hlt.
    rewrite inject_Z_plus in Hlt. change (inject_Z 1) with 1 in Hlt. lra.
Qed.

(** A percentile lies between two order statistics. *)
Lemma np_percentile_between (a : list Q) (q : Q) :
  a <> [] -> 0 <= q <= 100 ->
  let s := sort_by Qltb a in
  let lo := Z.to_nat (Qfloor (inject_Z (Z.of_nat (length a - 1)) * (q / 100))) in
  let hi := Nat.min (lo + 1) (length a - 1) in
  (lo <= hi)%nat /\ (hi < length a)%nat /\
  nth lo s 0 <= np_percentile a q <= nth hi s 0.
Proof.
  intros Hne Hq. cbv zeta.
  destruct (percentile_position (length a) q Hq) as [[Hf0 Hf1] [Hg0 Hg1]].
  unfold np_percentile. cbv zeta.
  set (h := inject_Z (Z.of_nat (length a - 1)) * (q / 100)) in *.
  set (lo := Z.to_nat (Qfloor h)).
  set (hi := Nat.min (lo + 1) (length a - 1)).
  assert (Hlen : (0 < length a)%nat) by (destruct a; [contradiction | simpl; lia]).
  assert (Hlo : (lo <= length a - 1)%nat) by (subst lo; lia).
  assert (Hlohi : (lo <= hi)%nat) by (subst hi; lia).
  assert (Hhi : (hi < length a)%nat) by (subst hi; lia).
  split; [exact Hlohi |]. split; [exact Hhi |].
  assert (Hs : nth lo (sort_by Qltb a) 0 <= nth hi (sort_by Qltb a) 0).
  { apply sorted_nth_le; [apply sort_by_Qltb_sorted | exact Hlohi |].
    now rewrite (sort_by_permutation Qltb a). }
  revert Hs Hg0 Hg1.
  generalize (nth lo (sort_by Qltb a) 0) (nth hi (sort_by Qltb a) 0)
    (h - inject_Z (Qfloor h)).
  intros x y g Hxy Hg0 Hg1.
  assert (H1 : 0 <= (y - x) * g) by (apply Qmult_le_0_compat; lra).
  assert (H2 : 0 <= (y - x) * (1 - g)) by (apply Qmult_le_0_compat; lra).
  split; lra.
Qed.

(** Percentiles grow with [q]. *)
Lemma np_percentile_mono (a : list Q) (q q' : Q) :
  a <> [] -> 0 <= q -> q <= q' -> q' <= 100 ->
  np_percentile a q <= np_percentile a q'.
Proof.
  intros Hne Hq0 Hqq Hq1.
  destruct (np_percentile_between a q Hne ltac:(lra)) as (Hlohi & Hhi & Hlo & Hup).
  destruct (np_percentile_between a q' Hne ltac:(lra)) as (Hlohi' & Hhi' & Hlo' & Hup').
  destruct (percentile_position (length a) q ltac:(lra)) as [[Hf0 Hf1] [Hg0 Hg1]].
  destruct (percentile_position (length a) q' ltac:(lra)) as [[Hf0' Hf1'] [Hg0' Hg1']].
  assert (Hh : inject_Z (Z.of_nat (length a - 1)) * (q / 100)
               <= inject_Z (Z.of_nat (length a - 1)) * (q' / 100)).
  { assert (Hn : 0 <= inject_Z (Z.of_nat (length a - 1))).
    { change 0 with (inject_Z 0). rewrite <- Zle_Qle. lia. }
    assert (E : q' / 100 - q / 100 == (q' - q) * (1 # 100)) by field.
    assert (H : 0 <= inject_Z (Z.of_nat (length a - 1)) * (q' / 100 - q / 100)).
    { apply Qmult_le_0_compat; [exact Hn |]. rewrite E. lra. }
    lra. }
  pose proof (Qfloor_resp_le _ _ Hh) as Hfl.
  set (h := inject_Z (Z.of_nat (length a - 1)) * (q / 100)) in *.
  set (h' := inject_Z (Z.of_nat (length a - 1)) * (q' / 100)) in *.
  destruct (Z.eq_dec (Qfloor h) (Qfloor h')) as [Heq | Hne'].
  - unfold np_percentile. cbv zeta. fold h h'. rewrite <- Heq.
    set (lo := Z.to_nat (Qfloor h)) in *.
    rewrite <- Heq in *.
    set (hi := Nat.min (lo + 1) (length a - 1)) in *.
    assert (Hs : nth lo (sort_by Qltb a) 0 <= nth hi (sort_by Qltb a) 0).
    { apply sorted_nth_le; [apply sort_by_Qltb_sorted | exact Hlohi |].
      now rewrite (sort_by_permutation Qltb a). }
    revert Hs. generalize (nth lo (sort_by Qltb a) 0) (nth hi (sort_by Qltb a) 0).
    intros x y Hxy.
    assert (Hg : 0 <= (y - x) * ((h' - inject_Z (Qfloor h)) - (h - inject_Z (Qfloor h))))
      by (apply Qmult_le_0_compat; lra).
    lra.
  - set (lo := Z.to_nat (Qfloor h)) in *.
    set (lo' := Z.to_nat (Qfloor h')) in *.
    assert (Hlt : (lo + 1 <= lo')%nat) by (subst lo lo'; lia).
    assert (Hs : nth (Nat.min (lo + 1) (length a - 1)) (sort_by Qltb a) 0
                 <= nth lo' (sort_by Qltb a) 0).
    { apply sorted_nth_le; [apply sort_by_Qltb_sorted | lia |].
      rewrite (sort_by_permutation Qltb a). lia. }
    lra.
Qed.

(** A percentile of non-negative values is non-negative. *)
Lemma np_percentile_nonneg (a : list Q) (q : Q) :
  a <> [] -> 0 <= q <= 100 -> Forall (Qle 0) a -> 0 <= np_percentile a q.
Proof.
  intros Hne Hq Ha.
  destruct (np_percentile_between a q Hne Hq) as (Hlohi & Hhi & Hlo & _).
  assert (Hin : nth (Z.to_nat (Qfloor (inject_Z (Z.of_nat (length a - 1)) * (q / 100))))
                  (sort_by Qltb a) 0 ∈ a).
  { apply list_elem_of_In.
    apply (Permutation_in _ (sort_by_permutation Qltb a)).
    apply nth_In. rewrite (sort_by_permutation Qltb a). lia. }
  rewrite Forall_forall in Ha. specialize (Ha _ Hin). lra.
Qed.

End PyMore.

Import PyMore.

(** ** The performance model *)

Module MlModelMore.

Import MlModel MlModelSpec MlModelMoreSpec MlModelFacts.

(** *** Temperature derating *)

(** The temperature correction lies between 0.7 and 1, as computed and as
    reported (rounded to three decimals). *)
Theorem temp_correction_bounds (inputs : gmap string Q) :
  0.7 <= l_temp_correction (predict_locals inputs) <= 1 /\
  0.7 <= temp_correction (performance_metrics (predict_output inputs)) <= 1.
Proof.
  pose proof (temp_correction_range inputs) as [Hlo Hhi].
  split; [split; lra |].
  cbn [predict_output performance_metrics temp_correction].
  split.
  - change 0.7 with (py_round 0.7 3) at 1. now apply py_round_mono.
  - assert (H1 : py_round 1.0 3 == 1) by reflexivity.
    rewrite <- H1. now apply py_round_mono.
Qed.

(** The derating curve: no correction up to 25 degrees, 0.4 percent per
    degree from 25 to 100 degrees, and the floor 0.7 from 100 degrees on. *)
Theorem temp_correction_curve (inputs : gmap string Q) :
  let panel_temp := get inputs "panel_temp" 35 in
  let tc := l_temp_correction (predict_locals inputs) in
  (panel_temp <= 25 -> tc == 1) /\
  (25 <= panel_temp <= 100 -> tc == 1 - (panel_temp - 25) * 0.004) /\
  (100 <= panel_temp -> tc == 0.7).
Proof.
  cbv zeta. cbn [predict_locals l_temp_correction].
  generalize (get inputs "panel_temp" 35). intros t.
  unfold py_min.
  destruct (Qltb (1 - (t - 25) * 0.004) 1.0) eqn:Hmin;
    [apply Qltb_lt in Hmin | apply Qltb_ge in Hmin];
    unfold py_max; repeat split; intros H; qcases.
Qed.

Lemma temp_correction_curve_witness :
  l_temp_correction (predict_locals example_inputs) == 1 - (48 - 25) * 0.004.
Proof.
  destruct (temp_correction_curve example_inputs) as (_ & Hmid & _).
  apply Hmid. vm_compute. split; discriminate.
Defined.

(** *** Weather impact *)

(** The weather score never exceeds 100, and is non-negative when the
    irradiance is; under an irradiance of 1000 or more, a wind between 2
    and 4 and an ambient temperature of 25 it is 100. *)
Theorem weather_impact_bounds (irradiance wind_speed ambient_temp : Q) :
  _calculate_weather_impact irradiance wind_speed ambient_temp <= 100 /\
  (0 <= irradiance ->
   0 <= _calculate_weather_impact irradiance wind_speed ambient_temp) /\
  (1000 <= irradiance -> 2 <= wind_speed <= 4 -> ambient_temp == 25 ->
   _calculate_weather_impact irradiance wind_speed ambient_temp == 100).
Proof.
  unfold _calculate_weather_impact. cbv zeta.
  set (w := _ + _ + _).
  assert (Hw : w <= 100 /\ (0 <= irradiance -> 0 <= w) /\
               (1000 <= irradiance -> 2 <= wind_speed <= 4 ->
                ambient_temp == 25 -> w == 100)).
  { subst w.
    assert (Ht0 : ambient_temp == 25 -> Qabs (ambient_temp - 25) == 0).
    { intros ->. reflexivity. }
    pose proof (Qabs_nonneg (wind_speed - 3)) as Haw.
    pose proof (Qabs_nonneg (ambient_temp - 25)) as Hat.
    revert Ht0 Haw Hat.
    generalize (Qabs (wind_speed - 3)) (Qabs (ambient_temp - 25)).
    intros aw at_ Ht0 Haw Hat.
    assert (Hi : irradiance / 1000 * 100 == irradiance / 10) by field.
    unfold py_min, py_max. rewrite !Hi.
    assert (Hd : irradiance / 10 == irradiance * (1 # 10)) by field.
    rewrite !Hd.
    repeat split; intros; try (specialize (Ht0 ltac:(assumption))); qcases. }
  destruct Hw as (Hle & Hge & Heq).
  assert (H100 : py_round 100 1 == 100) by reflexivity.
  assert (H0 : py_round 0 1 == 0) by reflexivity.
  repeat split.
  - rewrite <- H100. now apply py_round_mono.
  - intros Hi. rewrite <- H0. apply py_round_mono. auto.
  - intros Hi Hwi Hte. rewrite (py_round_comp _ 100 1); [reflexivity | auto].
Qed.

Lemma weather_impact_bounds_witness :
  0 <= _calculate_weather_impact 915 2.3 32 /\
  _calculate_weather_impact 1000 3 25 == 100.
Proof.
  split.
  - apply (weather_impact_bounds 915 2.3 32). lra.
  - apply (weather_impact_bounds 1000 3 25); [lra | lra | reflexivity].
Defined.

(** *** Fault probability *)

(** The fault probability that [predict_output] reports is the sum of the
    four increments: they never add up to more than 1, so the final
    [min(1.0, ...)] changes nothing.  The reported probability is 0 exactly
    when no threshold is exceeded and 1 exactly when the worst branch of
    every check is taken. *)
Theorem fault_probability_unclamped (inputs : gmap string Q) :
  let deviation := l_deviation (predict_locals inputs) in
  let panel_temp := get inputs "panel_temp" 35 in
  let soiling := get inputs "soiling_index" 2 in
  let inverter_eff := get inputs "inverter_eff" 96 in
  fault_prob (predict_output inputs)
  == deviation_increment deviation + panel_temp_increment panel_temp
     + soiling_increment soiling + inverter_increment inverter_eff /\
  (fault_prob (predict_output inputs) == 0 <->
   Qabs deviation <= 10 /\ panel_temp <= 65 /\ soiling <= 8 /\ 94 <= inverter_eff) /\
  (fault_prob (predict_output inputs) == 1 <->
   20 < Qabs deviation /\ 75 < panel_temp /\ 8 < soiling /\ inverter_eff < 94).
Proof.
  cbv zeta. cbn [predict_output fault_prob].
  rewrite !fault_probability_rounded.
  generalize (l_deviation (predict_locals inputs)). intros deviation.
  unfold _calculate_fault_probability.
  cbn [thresholds deviation_critical deviation_warning
    panel_temp_critical panel_temp_high soiling_critical inverter_eff_low].
  unfold deviation_increment, panel_temp_increment, soiling_increment,
    inverter_increment.
  generalize (Qabs deviation) (get inputs "panel_temp" 35)
    (get inputs "soiling_index" 2) (get inputs "inverter_eff" 96).
  intros d t s e. cbv zeta.
  split; [| split].
  - qcases; dec_cases; vm_compute; reflexivity.
  - qcases; (split; [intros H; first [ exfalso; revert H; vm_compute; discriminate
                                     | repeat split; lra ]
                    | intros (H1 & H2 & H3 & H4);
                      first [ vm_compute; reflexivity | exfalso; lra ] ]).
  - qcases; (split; [intros H; first [ exfalso; revert H; vm_compute; discriminate
                                     | repeat split; lra ]
                    | intros (H1 & H2 & H3 & H4);
                      first [ vm_compute; reflexivity | exfalso; lra ] ]).
Qed.

Lemma fault_probability_unclamped_witness :
  fault_prob (predict_output example_inputs) == 0 /\
  fault_prob (predict_output
                (<["actual_output" := 10]> (<["panel_temp" := 80]>
                 (<["soiling_index" := 9]> (<["inverter_eff" := 90]>
                  example_inputs))))) == 1.
Proof.
  split.
  - apply (fault_probability_unclamped example_inputs).
    vm_compute. repeat split; discriminate.
  - apply (fault_probability_unclamped
             (<["actual_output" := 10]> (<["panel_temp" := 80]>
              (<["soiling_index" := 9]> (<["inverter_eff" := 90]> example_inputs))))).
    vm_compute. repeat split; reflexivity.
Defined.

(** *** Range of the prediction and of the deviation *)

Lemma scale_unit (a f : Q) : 0 <= a -> 0 <= f <= 1 -> 0 <= a * f <= a.
Proof.
  intros Ha [Hf0 Hf1]. split; [now apply Qmult_le_0_compat |].
  assert (H : 0 <= a * (1 - f)) by (apply Qmult_le_0_compat; lra).
  lra.
Qed.

(** Under an irradiance of at most 1000, a performance ratio of at most 1,
    a soiling index of at most 100 and an inverter efficiency of at most
    100, all numbers being non-negative, the predicted output lies between
    0 and the system capacity. *)
Theorem predicted_output_at_most_capacity (inputs : gmap string Q) :
  nonneg_inputs inputs ->
  (forall v, inputs !! "irradiance" = Some v -> v <= 1000) ->
  (forall v, inputs !! "pr_baseline" = Some v -> v <= 1) ->
  (forall v, inputs !! "soiling_index" = Some v -> v <= 100) ->
  (forall v, inputs !! "inverter_eff" = Some v -> v <= 100) ->
  0 <= l_predicted_output (predict_locals inputs)
    <= get inputs "system_capacity" 100 /\
  predicted_output (predict_output inputs)
    <= py_round (get inputs "system_capacity" 100) 2.
Proof.
  intros Hin Hirr Hpr Hsoil Heff.
  assert (Hraw : 0 <= l_predicted_output (predict_locals inputs)
                   <= get inputs "system_capacity" 100).
  { pose proof (temp_correction_range inputs) as [Htc0 Htc1].
    cbn [predict_locals l_predicted_output l_temp_correction] in *.
    pose proof (get_nonneg inputs "system_capacity" 100 Hin ltac:(lra)) as Hc.
    pose proof (get_nonneg inputs "irradiance" 0 Hin ltac:(lra)) as Hi0.
    pose proof (get_le inputs "irradiance" 0 1000 Hirr ltac:(lra)) as Hi1.
    pose proof (get_nonneg inputs "pr_baseline" 0.80 Hin ltac:(lra)) as Hp0.
    pose proof (get_le inputs "pr_baseline" 0.80 1 Hpr ltac:(lra)) as Hp1.
    pose proof (get_nonneg inputs "soiling_index" 2.0 Hin ltac:(lra)) as Hs0.
    pose proof (get_le inputs "soiling_index" 2.0 100 Hsoil ltac:(lra)) as Hs1.
    pose proof (get_nonneg inputs "inverter_eff" 96.0 Hin ltac:(lra)) as He0.
    pose proof (get_le inputs "inverter_eff" 96.0 100 Heff ltac:(lra)) as He1.
    revert Htc0 Htc1 Hc Hi0 Hi1 Hp0 Hp1 Hs0 Hs1 He0 He1.
    generalize (py_max 0.7 (py_min 1.0 (1 - (get inputs "panel_temp" 35 - 25) * 0.004)))
      (get inputs "system_capacity" 100) (get inputs "irradiance" 0)
      (get inputs "pr_baseline" 0.80) (get inputs "soiling_index" 2.0)
      (get inputs "inverter_eff" 96.0).
    intros tc c i p s e Htc0 Htc1 Hc Hi0 Hi1 Hp0 Hp1 Hs0 Hs1 He0 He1.
    assert (Hfi : 0 <= i / 1000 <= 1).
    { assert (E : i / 1000 == i * (1 # 1000)) by field. rewrite E. lra. }
    assert (Hfe : 0 <= e / 100 <= 1).
    { assert (E : e / 100 == e * (1 # 100)) by field. rewrite E. lra. }
    assert (Hfs : 0 <= 1 - s / 100 <= 1).
    { assert (E : s / 100 == s * (1 # 100)) by field. rewrite E. lra. }
    assert (Hft : 0 <= tc <= 1) by lra.
    assert (Hfp : 0 <= p <= 1) by lra.
    revert Hfi Hfe Hfs. generalize (i / 1000) (e / 100) (1 - s / 100).
    intros fi fe fs Hfi Hfe Hfs.
    pose proof (scale_unit c fi Hc Hfi) as [H1 H1'].
    pose proof (scale_unit _ p H1 Hfp) as [H2 H2'].
    pose proof (scale_unit _ tc H2 Hft) as [H3 H3'].
    pose proof (scale_unit _ fs H3 Hfs) as [H4 H4'].
    pose proof (scale_unit _ fe H4 Hfe) as [H5 H5'].
    split; lra. }
  split; [exact Hraw |].
  cbn [predict_output predicted_output]. apply py_round_mono, Hraw.
Qed.

Lemma predicted_output_at_most_capacity_witness :
  l_predicted_output (predict_locals example_inputs) <= 100.
Proof.
  destruct (predicted_output_at_most_capacity example_inputs) as [[_ H] _];
    [| | | | | exact H].
  - intros key v. unfold example_inputs.
    rewrite !lookup_insert, lookup_empty.
    repeat case_decide; intros [= <-]; lra.
  - intros v. vm_compute. intros [= <-]. discriminate.
  - intros v. vm_compute. intros [= <-]. discriminate.
  - intros v. vm_compute. intros [= <-]. discriminate.
  - intros v. vm_compute. intros [= <-]. discriminate.
Defined.

Lemma deviation_supplied (inputs : gmap string Q) (a : Q) :
  inputs !! "actual_output" = Some a ->
  0 < l_predicted_output (predict_locals inputs) ->
  l_deviation (predict_locals inputs)
  == (a - l_predicted_output (predict_locals inputs))
     / l_predicted_output (predict_locals inputs) * 100.
Proof.
  intros Ha Hp. cbn [predict_locals l_deviation l_predicted_output] in *.
  rewrite Ha. apply Qltb_lt in Hp. rewrite Hp. reflexivity.
Qed.

(** With a positive prediction, the deviation has the sign of
    actual - predicted, and is at least -100 for a non-negative actual
    output. *)
Theorem deviation_sign (inputs : gmap string Q) (a : Q) :
  inputs !! "actual_output" = Some a ->
  0 < l_predicted_output (predict_locals inputs) ->
  let p := l_predicted_output (predict_locals inputs) in
  let d := l_deviation (predict_locals inputs) in
  (d < 0 <-> a < p) /\ (d == 0 <-> a == p) /\ (0 < d <-> p < a) /\
  (0 <= a -> -100 <= d).
Proof.
  intros Ha Hp. cbv zeta. rewrite (deviation_supplied inputs a Ha Hp).
  revert Hp. generalize (l_predicted_output (predict_locals inputs)). intros p Hp.
  assert (Hk : exists k, 0 < k /\ p * k == 100 /\ (a - p) / p * 100 == (a - p) * k).
  { exists (100 / p). split; [apply Qlt_shift_div_l; lra |]. split; field; lra. }
  destruct Hk as (k & Hk0 & Hpk & ->).
  assert (Hak : 0 <= a -> 0 <= a * k) by (intros; apply Qmult_le_0_compat; lra).
  destruct (Q_dec a p) as [[Hlt | Hgt] | Heq].
  - assert (H : 0 < (p - a) * k) by (apply Qmult_lt_0_compat; lra).
    repeat split; intros H'; try specialize (Hak H'); lra.
  - assert (H : 0 < (a - p) * k) by (apply Qmult_lt_0_compat; lra).
    repeat split; intros H'; try specialize (Hak H'); lra.
  - assert (H : (a - p) * k == 0) by (rewrite Heq; ring).
    repeat split; intros H'; try specialize (Hak H'); lra.
Qed.

Lemma deviation_sign_witness :
  0 < l_deviation (predict_locals example_inputs).
Proof.
  destruct (deviation_sign example_inputs 62.4) as (_ & _ & Hpos & _).
  - reflexivity.
  - vm_compute. reflexivity.
  - apply Hpos. vm_compute. reflexivity.
Defined.

(** *** Structure of the recommendation list *)

Ltac check_app f :=
  intros; unfold f; cbv zeta;
  repeat match goal with
         | |- context [if ?c then _ else _] => destruct c
         end;
  rewrite ?app_nil_l, ?app_nil_r; reflexivity.

Lemma panel_temperature_check_app (panel_temp ambient_temp : Q) recs :
  panel_temperature_check panel_temp ambient_temp recs
  = recs ++ panel_temperature_check panel_temp ambient_temp [].
Proof. check_app panel_temperature_check. Qed.

Lemma soiling_check_app (soiling : Q) recs :
  soiling_check soiling recs = recs ++ soiling_check soiling [].
Proof. check_app soiling_check. Qed.

Lemma inverter_efficiency_check_app (inverter_eff : Q) recs :
  inverter_efficiency_check inverter_eff recs
  = recs ++ inverter_efficiency_check inverter_eff [].
Proof. check_app inverter_efficiency_check. Qed.

Lemma battery_soc_check_app (battery_soc : Q) recs :
  battery_soc_check battery_soc recs = recs ++ battery_soc_check battery_soc [].
Proof. check_app battery_soc_check. Qed.

Lemma performance_deviation_check_app (deviation : Q) (actual_output : option Q) recs :
  performance_deviation_check deviation actual_output recs
  = recs ++ performance_deviation_check deviation actual_output [].
Proof. check_app performance_deviation_check. Qed.

Lemma low_irradiance_info_app (irradiance : Q) recs :
  low_irradiance_info irradiance recs = recs ++ low_irradiance_info irradiance [].
Proof. check_app low_irradiance_info. Qed.

(** The generated list is the concatenation of what the six checks
    contribute, in the order of the checks. *)
Lemma recommendation_rules_concat (inputs : gmap string Q) (deviation : Q)
    (actual_output : option Q) :
  recommendation_rules inputs deviation actual_output
  = concat (rule_contributions inputs deviation actual_output).
Proof.
  unfold recommendation_rules, rule_contributions. cbv zeta.
  rewrite low_irradiance_info_app, performance_deviation_check_app,
    battery_soc_check_app, inverter_efficiency_check_app, soiling_check_app.
  cbn [concat]. rewrite app_nil_r, <- !app_assoc. reflexivity.
Qed.

Lemma generate_recommendations_perm (inputs : gmap string Q) (deviation : Q)
    (actual_output : option Q) :
  Permutation (_generate_recommendations inputs deviation actual_output)
    (recommendation_rules inputs deviation actual_output).
Proof.
  unfold _generate_recommendations. cbv zeta.
  pose proof (recommendation_rules_length inputs deviation actual_output) as Hlen.
  pose proof (sort_by_perm priority_rank
                (recommendation_rules inputs deviation actual_output)) as Hperm.
  rewrite take_ge by (rewrite Hperm; exact Hlen). exact Hperm.
Qed.

Lemma generate_recommendations_sorted (inputs : gmap string Q) (deviation : Q)
    (actual_output : option Q) :
  StronglySorted (fun a b => (priority_rank a <= priority_rank b)%nat)
    (_generate_recommendations inputs deviation actual_output).
Proof.
  unfold _generate_recommendations. cbv zeta.
  apply firstn_sorted, (sort_by_sorted priority_rank).
Qed.

(** Membership in the final list, check by check. *)
Lemma elem_of_recommendations (inputs : gmap string Q) (deviation : Q)
    (actual_output : option Q) (r : recommendation) :
  r ∈ _generate_recommendations inputs deviation actual_output <->
  r ∈ panel_temperature_check (get inputs "panel_temp" 35)
        (get inputs "ambient_temp" 25) [] \/
  r ∈ soiling_check (get inputs "soiling_index" 2) [] \/
  r ∈ inverter_efficiency_check (get inputs "inverter_eff" 96) [] \/
  r ∈ battery_soc_check (get inputs "battery_soc" 70) [] \/
  r ∈ performance_deviation_check deviation actual_output [] \/
  r ∈ low_irradiance_info (get inputs "irradiance" 800) [].
Proof.
  rewrite generate_recommendations_perm, recommendation_rules_concat.
  unfold rule_contributions. cbn [concat].
  rewrite !elem_of_app, elem_of_nil. tauto.
Qed.

(** Resolve membership in the contribution of one check. *)
Ltac in_check f H :=
  unfold f in H; cbv zeta in H;
  repeat match type of H with
         | context [if ?c then _ else _] =>
             let E := fresh "Hc" in destruct c eqn:E
         end;
  rewrite ?app_nil_l in H;
  repeat first [ apply elem_of_nil in H; destruct H
               | apply list_elem_of_singleton in H; subst ].

Ltac in_checks H :=
  apply elem_of_recommendations in H;
  destruct H as [H | [H | [H | [H | [H | H]]]]];
  [ in_check panel_temperature_check H
  | in_check soiling_check H
  | in_check inverter_efficiency_check H
  | in_check battery_soc_check H
  | in_check performance_deviation_check H
  | in_check low_irradiance_info H ].

(** There is exactly one battery entry among the recommendations, chosen by
    the state of charge, so the list is never empty. *)
Theorem battery_recommendation_unique (inputs : gmap string Q) (deviation : Q)
    (actual_output : option Q) :
  let recs := _generate_recommendations inputs deviation actual_output in
  let battery_soc := get inputs "battery_soc" 70 in
  length (filter (fun r => is_battery_msg (msg r) = true) recs) = 1%nat /\
  (1 <= length recs <= 6)%nat /\
  (battery_soc < 10 ->
   exists r, r ∈ recs /\ msg r = BatteryCriticallyLow battery_soc
             /\ priority r = "Critical") /\
  (10 <= battery_soc < 20 ->
   exists r, r ∈ recs /\ msg r = BatterySocLow battery_soc
             /\ priority r = "Medium") /\
  (20 <= battery_soc ->
   exists r, r ∈ recs /\ msg r = BatterySocStable battery_soc
             /\ priority r = "Info").
Proof.
  cbv zeta.
  assert (Hone : length (filter (fun r => is_battery_msg (msg r) = true)
                   (_generate_recommendations inputs deviation actual_output)) = 1%nat).
  { rewrite generate_recommendations_perm, recommendation_rules_concat.
    unfold rule_contributions. cbn [concat].
    rewrite !filter_app, !length_app.
    unfold panel_temperature_check, soiling_check, inverter_efficiency_check,
      battery_soc_check, performance_deviation_check, low_irradiance_info.
    cbv zeta.
    repeat match goal with
           | |- context [if ?c then _ else _] => destruct c
           end; reflexivity. }
  split; [exact Hone |]. split.
  - split.
    + rewrite <- Hone. apply length_filter.
    + rewrite generate_recommendations_perm. apply recommendation_rules_length.
  - repeat split; intros Hsoc; eexists;
      (split; [apply elem_of_recommendations; do 3 right; left;
               unfold battery_soc_check;
               cbn [thresholds battery_soc_critical battery_soc_low];
               qcases; apply list_elem_of_singleton; reflexivity
              | split; reflexivity ]).
Qed.

Lemma battery_recommendation_unique_witness :
  exists r, r ∈ _generate_recommendations example_inputs 0 None /\
            msg r = BatterySocStable 72 /\ priority r = "Info".
Proof.
  destruct (battery_recommendation_unique example_inputs 0 None)
    as (_ & _ & _ & _ & Hstable).
  apply Hstable. vm_compute. discriminate.
Defined.

Lemma priority_order_zero (p : string) : priority_order p = 0%nat -> p = "Critical".
Proof.
  unfold priority_order.
  destruct (String.eqb_spec p "Critical") as [-> | _]; [reflexivity |].
  repeat match goal with |- context [if ?c then _ else _] => destruct c end;
    discriminate.
Qed.

(** The list starts with a Critical entry exactly when the panel is above
    75 degrees or the battery below 10 percent: whatever else fires, a
    critical finding is reported first. *)
Theorem critical_recommendation_first (inputs : gmap string Q) (deviation : Q)
    (actual_output : option Q) :
  (75 < get inputs "panel_temp" 35 \/ get inputs "battery_soc" 70 < 10) <->
  exists r rest,
    _generate_recommendations inputs deviation actual_output = r :: rest /\
    priority r = "Critical".
Proof.
  split.
  - intros Hcrit.
    assert (Hc : exists c, c ∈ _generate_recommendations inputs deviation actual_output
                           /\ priority_rank c = 0%nat).
    { destruct Hcrit as [Ht | Hs].
      - eexists. split; [apply elem_of_recommendations; left;
                         unfold panel_temperature_check;
                         cbn [thresholds panel_temp_critical panel_temp_high];
                         apply Qltb_lt in Ht; rewrite Ht;
                         apply list_elem_of_singleton; reflexivity
                        | reflexivity].
      - eexists. split; [apply elem_of_recommendations; do 3 right; left;
                         unfold battery_soc_check;
                         cbn [thresholds battery_soc_critical battery_soc_low];
                         apply Qltb_lt in Hs; rewrite Hs;
                         apply list_elem_of_singleton; reflexivity
                        | reflexivity]. }
    destruct Hc as (c & Hc & Hrank).
    pose proof (generate_recommendations_sorted inputs deviation actual_output) as Hs.
    destruct (_generate_recommendations inputs deviation actual_output) as [|r rest];
      [apply elem_of_nil in Hc; destruct Hc |].
    exists r, rest. split; [reflexivity |].
    apply priority_order_zero. fold (priority_rank r).
    apply elem_of_cons in Hc. destruct Hc as [-> | Hc]; [exact Hrank |].
    apply StronglySorted_inv in Hs. destruct Hs as [_ Hall].
    rewrite Forall_forall in Hall. specialize (Hall c Hc). cbv beta in Hall. lia.
  - intros (r & rest & Hrecs & Hprio).
    assert (Hr : r ∈ _generate_recommendations inputs deviation actual_output)
      by (rewrite Hrecs; apply elem_of_cons; left; reflexivity).
    clear Hrecs. revert Hprio.
    cbn [thresholds panel_temp_critical panel_temp_high
         battery_soc_critical battery_soc_low] in *.
    in_checks Hr; cbn [priority]; try discriminate; intros _;
      cbn [thresholds panel_temp_critical panel_temp_high
           battery_soc_critical battery_soc_low] in *;
      repeat match goal with
             | H : Qltb _ _ = true |- _ => apply Qltb_lt in H
             end; auto.
Qed.

Lemma critical_recommendation_first_witness :
  exists r rest,
    _generate_recommendations (<["panel_temp" := 80]> example_inputs) 0 None
    = r :: rest /\ priority r = "Critical".
Proof.
  apply (critical_recommendation_first (<["panel_temp" := 80]> example_inputs) 0 None).
  left. vm_compute. reflexivity.
Defined.

(** An underperformance entry is produced only when the actual output is
    supplied and the deviation is below -10 percent; it is the High entry
    below -20 percent and the Medium entry otherwise.  Output above the
    prediction never produces an entry. *)
Theorem deviation_recommendation (inputs : gmap string Q) (deviation : Q)
    (actual_output : option Q) :
  let recs := _generate_recommendations inputs deviation actual_output in
  ((exists r, r ∈ recs /\ is_deviation_msg (msg r) = true) <->
   is_Some actual_output /\ deviation < -10) /\
  ((exists r, r ∈ recs /\ msg r = SignificantUnderperformance deviation
              /\ priority r = "High") <->
   is_Some actual_output /\ deviation < -20) /\
  ((exists r, r ∈ recs /\ msg r = OutputBelowExpected deviation
              /\ priority r = "Medium") <->
   is_Some actual_output /\ -20 <= deviation < -10).
Proof.
  cbv zeta.
  assert (Hdev : forall r,
            r ∈ performance_deviation_check deviation actual_output [] <->
            is_Some actual_output /\
            ((deviation < -20 /\ msg r = SignificantUnderperformance deviation
              /\ priority r = "High"
              /\ action r = "Comprehensive system inspection recommended") \/
             (-20 <= deviation < -10 /\ msg r = OutputBelowExpected deviation
              /\ priority r = "Medium"
              /\ action r = "Review system logs and sensor calibration"))).
  { intros r. unfold performance_deviation_check.
    cbn [thresholds deviation_critical deviation_warning].
    destruct actual_output as [a|].
    - rewrite (bool_decide_eq_true_2 (is_Some (Some a))) by eauto.
      cbn [andb]. qcases; rewrite ?app_nil_l, ?list_elem_of_singleton, ?elem_of_nil;
        (split; [intros ->; split; [eauto |]; first [left; repeat split; lra
                                                   | right; repeat split; lra]
                | intros (_ & [(H1 & H2 & H3 & H4) | (H1 & H2 & H3 & H4)]);
                  try lra; destruct r; simpl in *; subst; reflexivity])
        || (split; [intros [] | intros (_ & [(H1 & _) | (H1 & _)]); lra]).
    - rewrite (bool_decide_eq_false_2 (is_Some None)) by (intros [? [=]]).
      cbn [andb]. rewrite elem_of_nil. split; [intros [] |].
      intros ([? [=]] & _). }
  assert (Hother : forall r,
            r ∈ _generate_recommendations inputs deviation actual_output ->
            is_deviation_msg (msg r) = true ->
            r ∈ performance_deviation_check deviation actual_output []).
  { intros r Hr Hm. apply elem_of_recommendations in Hr.
    destruct Hr as [H | [H | [H | [H | [H | H]]]]]; try exact H; exfalso;
      [ in_check panel_temperature_check H
      | in_check soiling_check H
      | in_check inverter_efficiency_check H
      | in_check battery_soc_check H
      | in_check low_irradiance_info H ]; discriminate Hm. }
  assert (Hin : forall r,
            r ∈ performance_deviation_check deviation actual_output [] ->
            r ∈ _generate_recommendations inputs deviation actual_output).
  { intros r Hr. apply elem_of_recommendations. tauto. }
  split; [| split].
  - split.
    + intros (r & Hr & Hm). apply Hother, Hdev in Hr; [| exact Hm].
      destruct Hr as (Ha & [(H1 & _) | (H1 & _)]); split; auto; lra.
    + intros (Ha & Hd). destruct (Qlt_le_dec deviation (-20)) as [Hlt | Hge].
      * exists {| priority := "High"; msg := SignificantUnderperformance deviation;
                  action := "Comprehensive system inspection recommended" |}.
        split; [| reflexivity]. apply Hin, Hdev. split; [exact Ha |].
        left. repeat split. exact Hlt.
      * exists {| priority := "Medium"; msg := OutputBelowExpected deviation;
                  action := "Review system logs and sensor calibration" |}.
        split; [| reflexivity]. apply Hin, Hdev. split; [exact Ha |].
        right. repeat split; lra.
  - split.
    + intros (r & Hr & Hm & _). apply Hother, Hdev in Hr; [| now rewrite Hm].
      destruct Hr as (Ha & [(H1 & _) | (_ & H2 & _)]); [auto |].
      rewrite Hm in H2. discriminate.
    + intros (Ha & Hd).
      exists {| priority := "High"; msg := SignificantUnderperformance deviation;
                action := "Comprehensive system inspection recommended" |}.
      split; [| split; reflexivity]. apply Hin, Hdev. split; [exact Ha |].
      left. repeat split. exact Hd.
  - split.
    + intros (r & Hr & Hm & _). apply Hother, Hdev in Hr; [| now rewrite Hm].
      destruct Hr as (Ha & [(_ & H2 & _) | (H1 & _)]); [| auto].
      rewrite Hm in H2. discriminate.
    + intros (Ha & Hd).
      exists {| priority := "Medium"; msg := OutputBelowExpected deviation;
                action := "Review system logs and sensor calibration" |}.
      split; [| split; reflexivity]. apply Hin, Hdev. split; [exact Ha |].
      right. repeat split; lra.
Qed.

Lemma deviation_recommendation_witness :
  exists r, r ∈ _generate_recommendations example_inputs (-25) (Some 45)
            /\ msg r = SignificantUnderperformance (-25) /\ priority r = "High".
Proof.
  apply (deviation_recommendation example_inputs (-25) (Some 45)).
  split; [eauto | reflexivity].
Defined.

(** The low-irradiance note is among the recommendations exactly when the
    irradiance, taken to be 800 when absent, is below 200. *)
Theorem low_irradiance_recommendation (inputs : gmap string Q) (deviation : Q)
    (actual_output : option Q) :
  (exists r, r ∈ _generate_recommendations inputs deviation actual_output
             /\ msg r = LowIrradiance (get inputs "irradiance" 800)
             /\ priority r = "Info")
  <-> get inputs "irradiance" 800 < 200.
Proof.
  split.
  - intros (r & Hr & Hm & _).
    rewrite generate_recommendations_perm in Hr.
    exact (recommendation_rules_low_irradiance _ _ _ _ _ Hr Hm).
  - intros Hlow.
    exists {| priority := "Info"; msg := LowIrradiance (get inputs "irradiance" 800);
              action := "Normal for low-light conditions (dawn/dusk/cloudy)" |}.
    split; [| split; reflexivity].
    apply elem_of_recommendations. do 5 right.
    unfold low_irradiance_info. apply Qltb_lt in Hlow. rewrite Hlow.
    apply list_elem_of_singleton. reflexivity.
Qed.

Lemma low_irradiance_recommendation_witness :
  exists r, r ∈ _generate_recommendations (<["irradiance" := 150]> example_inputs) 0 None
            /\ msg r = LowIrradiance 150 /\ priority r = "Info".
Proof.
  destruct (low_irradiance_recommendation
              (<["irradiance" := 150]> example_inputs) 0 None) as [_ Hlow].
  assert (H : get (<["irradiance" := 150]> example_inputs) "irradiance" 800 < 200)
    by (vm_compute; reflexivity).
  exact (Hlow H).
Defined.

(** *** Findings and fault probability together *)

Lemma fault_probability_as_sum (inputs : gmap string Q) (deviation : Q) :
  _calculate_fault_probability inputs deviation
  == deviation_increment deviation
     + panel_temp_increment (get inputs "panel_temp" 35)
     + soiling_increment (get inputs "soiling_index" 2)
     + inverter_increment (get inputs "inverter_eff" 96).
Proof.
  unfold _calculate_fault_probability.
  cbn [thresholds deviation_critical deviation_warning
    panel_temp_critical panel_temp_high soiling_critical inverter_eff_low].
  unfold deviation_increment, panel_temp_increment, soiling_increment,
    inverter_increment.
  generalize (Qabs deviation) (get inputs "panel_temp" 35)
    (get inputs "soiling_index" 2) (get inputs "inverter_eff" 96).
  intros d t s e. cbv zeta. qcases; dec_cases; vm_compute; reflexivity.
Qed.

Lemma increments_nonneg (d t s e : Q) :
  0 <= deviation_increment d /\ 0 <= panel_temp_increment t /\
  0 <= soiling_increment s /\ 0 <= inverter_increment e.
Proof.
  unfold deviation_increment, panel_temp_increment, soiling_increment,
    inverter_increment.
  repeat split; dec_cases.
Qed.

(** In one analysis, every Critical or High recommendation other than the
    battery one comes with a fault probability of at least 0.1: at least
    0.3 for the over-temperature entry, 0.4 for significant
    underperformance, 0.2 for heavy soiling. *)
Theorem findings_raise_fault_probability (inputs : gmap string Q) (r : recommendation) :
  let result := predict_output inputs in
  r ∈ recommendations result ->
  (is_battery_msg (msg r) = false ->
   priority r = "Critical" \/ priority r = "High" -> 0.1 <= fault_prob result) /\
  (forall x, msg r = PanelOverTemperature x -> 0.3 <= fault_prob result) /\
  (forall x, msg r = SignificantUnderperformance x -> 0.4 <= fault_prob result) /\
  (forall x, msg r = HeavySoiling x -> 0.2 <= fault_prob result).
Proof.
  cbv zeta. cbn [predict_output recommendations fault_prob]. intros Hr.
  assert (HF : py_round (_calculate_fault_probability inputs
                           (l_deviation (predict_locals inputs))) 3
               == deviation_increment (l_deviation (predict_locals inputs))
                  + panel_temp_increment (get inputs "panel_temp" 35)
                  + soiling_increment (get inputs "soiling_index" 2)
                  + inverter_increment (get inputs "inverter_eff" 96)).
  { rewrite fault_probability_rounded. apply fault_probability_as_sum. }
  revert HF.
  generalize (py_round (_calculate_fault_probability inputs
                          (l_deviation (predict_locals inputs))) 3).
  intros F HF.
  destruct (increments_nonneg (l_deviation (predict_locals inputs))
              (get inputs "panel_temp" 35) (get inputs "soiling_index" 2)
              (get inputs "inverter_eff" 96)) as (Hd & Ht & Hs & He).
  revert HF Hd Ht Hs He.
  unfold deviation_increment, panel_temp_increment, soiling_increment,
    inverter_increment.
  pose proof (Qle_Qabs (- l_deviation (predict_locals inputs))) as Habs.
  rewrite Qabs_opp in Habs. revert Habs.
  generalize (Qabs (l_deviation (predict_locals inputs))). intros ad Habs.
  in_checks Hr;
    cbn [msg priority is_battery_msg];
    cbn [thresholds panel_temp_critical panel_temp_high soiling_critical
         inverter_eff_low battery_soc_critical battery_soc_low
         deviation_critical deviation_warning] in *;
    repeat match goal with
           | H : Qltb _ _ = true |- _ => apply Qltb_lt in H
           | H : Qltb _ _ = false |- _ => apply Qltb_ge in H
           | H : _ && _ = true |- _ => apply andb_prop in H; destruct H
           end;
    intros HF Hd Ht Hs He;
    (split; [intros Hb Hp | split; [intros x Hm | split; intros x Hm]]);
    try congruence;
    try (destruct Hp; congruence);
    revert HF Hd Ht Hs He; dec_cases; intros; lra.
Qed.

Lemma findings_raise_fault_probability_witness :
  0.3 <= fault_prob (predict_output (<["panel_temp" := 80]> example_inputs)).
Proof.
  destruct (findings_raise_fault_probability
              (<["panel_temp" := 80]> example_inputs)
              {| priority := "Critical"; msg := PanelOverTemperature 80;
                 action := "Inspect panels for hotspots, check ventilation, consider tilt adjustment" |})
    as (_ & Hover & _).
  - apply list_elem_of_In. vm_compute. left. reflexivity.
  - exact (Hover 80 eq_refl).
Defined.

End MlModelMore.


(** ** The Flask end points *)

Module AppMore.

Import MlModel App MlModelSpec AppSpec MlModelFacts AppFacts.

Lemma first_missing_required (m : gmap string json) :
  first_missing required_fields (JObject m)
  = inr match m !! "irradiance", m !! "ambient_temp", m !! "panel_temp" with
        | None, _, _ => Some "irradiance"
        | Some _, None, _ => Some "ambient_temp"
        | Some _, Some _, None => Some "panel_temp"
        | Some _, Some _, Some _ => None
        end.
Proof.
  unfold required_fields, first_missing, py_in.
  destruct (m !! "irradiance"), (m !! "ambient_temp"), (m !! "panel_temp");
    repeat first [ rewrite bool_decide_eq_true_2 by eauto
                 | rewrite bool_decide_eq_false_2 by (intros [? [=]]) ];
    reflexivity.
Qed.

(** The single-site end point on inputs that are a dictionary. *)
Lemma analyze_performance_object (data : site_request) (m : gmap string json) :
  inputs data = Some (JObject m) ->
  analyze_performance data
  = match m !! "irradiance", m !! "ambient_temp", m !! "panel_temp" with
    | None, _, _ => inl (400%Z, ErrorText "Missing required field: irradiance")
    | Some _, None, _ => inl (400%Z, ErrorText "Missing required field: ambient_temp")
    | Some _, Some _, None => inl (400%Z, ErrorText "Missing required field: panel_temp")
    | Some _, Some _, Some _ =>
        if decide (analysable m)
        then inr (analysis_of m, default (JString "unknown") (site_id data))
        else inl (500%Z, ExceptionText TypeError)
    end.
Proof.
  intros Hm. unfold analyze_performance. rewrite Hm, first_missing_required.
  destruct (m !! "irradiance"), (m !! "ambient_temp"), (m !! "panel_temp");
    try reflexivity.
  destruct (model_predict_output_object m) as [Hok Herr].
  destruct (decide (analysable m)) as [Ha | Ha].
  - now rewrite (Hok Ha).
  - now rewrite (Herr Ha).
Qed.





(** The error of the single-site end point names the first missing field,
    in the order irradiance, ambient_temp, panel_temp; without inputs it
    reports the missing inputs. *)
Theorem analyze_performance_errors (data : site_request) :
  (inputs data = None ->
   analyze_performance data = inl (400%Z, ErrorText "Missing inputs in request body")) /\
  (forall m, inputs data = Some (JObject m) -> m !! "irradiance" = None ->
   analyze_performance data
   = inl (400%Z, ErrorText "Missing required field: irradiance")) /\
  (forall m, inputs data = Some (JObject m) -> is_Some (m !! "irradiance") ->
   m !! "ambient_temp" = None ->
   analyze_performance data
   = inl (400%Z, ErrorText "Missing required field: ambient_temp")) /\
  (forall m, inputs data = Some (JObject m) -> is_Some (m !! "irradiance") ->
   is_Some (m !! "ambient_temp") -> m !! "panel_temp" = None ->
   analyze_performance data
   = inl (400%Z, ErrorText "Missing required field: panel_temp")).
Proof.
  repeat split.
  - intros Hnone. unfold analyze_performance. now rewrite Hnone.
  - intros m Hm Hi. rewrite (analyze_performance_object data m Hm), Hi. reflexivity.
  - intros m Hm [i Hi] Ha.
    rewrite (analyze_performance_object data m Hm), Hi, Ha. reflexivity.
  - intros m Hm [i Hi] [a Ha] Ht.
    rewrite (analyze_performance_object data m Hm), Hi, Ha, Ht. reflexivity.
Qed.

Lemma analyze_performance_errors_witness :
  analyze_performance temperatures_only
  = inl (400%Z, ErrorText "Missing required field: irradiance").
Proof.
  destruct (analyze_performance_errors temperatures_only) as (_ & Hirr & _).
  apply (Hirr (JNumber <$> <["ambient_temp" := 32]> (<["panel_temp" := 48]> ∅)));
    reflexivity.
Defined.




End AppMore.


(** ** Anomaly detection, forecast and image analysis *)

Module AiMainMore.

Import AiMain AiMainSpec AiMainMoreSpec AiMainFacts.

(** *** Anomaly detection *)

Lemma residuals_nonneg (residuals : list AnomalyPoint) :
  Forall (Qle 0) (map residual_of residuals).
Proof.
  apply Forall_forall. intros x Hx.
  apply list_elem_of_In, in_map_iff in Hx. destruct Hx as (p & <- & _).
  apply Qabs_nonneg.
Qed.

(** The detector, for a non-empty list of residuals. *)
Lemma detect_anomalies_flagged (residuals : list AnomalyPoint) :
  residuals <> [] ->
  detect_anomalies_isolation_forest residuals
  = (map (anomaly_of (iqr_threshold residuals))
       (filter (fun p => iqr_threshold residuals < residual_of p) residuals),
     inject_Z (Z.of_nat (length (filter (fun p => iqr_threshold residuals < residual_of p)
                                   residuals)))
     / inject_Z (Z.of_nat (length residuals))).
Proof.
  intros Hne. unfold detect_anomalies_isolation_forest. cbv zeta.
  destruct residuals as [|p residuals]; [contradiction |].
  cbn [map]. fold (residual_of p).
  change (residual_of p :: map (fun p0 => Qabs (actual p0 - predicted p0)) residuals)
    with (map residual_of (p :: residuals)).
  fold (iqr_threshold (p :: residuals)).
  rewrite (anomaly_loop (iqr_threshold (p :: residuals)) (p :: residuals) [] 0).
  reflexivity.
Qed.

(** The threshold is at least the third quartile, which is at least the
    order statistic just below it and at least the first quartile. *)
Lemma iqr_threshold_lower (residuals : list AnomalyPoint) :
  residuals <> [] ->
  let a := map residual_of residuals in
  let k := Z.to_nat (Qfloor (inject_Z (Z.of_nat (length a - 1)) * (75 / 100))) in
  0 <= iqr_threshold residuals /\
  nth k (sort_by Qltb a) 0 <= iqr_threshold residuals /\
  (k < length a)%nat.
Proof.
  intros Hne. cbv zeta. unfold iqr_threshold. cbv zeta.
  set (a := map residual_of residuals).
  assert (Ha : a <> []) by (subst a; destruct residuals; [contradiction | discriminate]).
  pose proof (np_percentile_mono a 25 75 Ha ltac:(lra) ltac:(lra) ltac:(lra)) as Hmono.
  pose proof (np_percentile_nonneg a 25 Ha ltac:(lra) (residuals_nonneg residuals)) as H25.
  destruct (np_percentile_between a 75 Ha ltac:(lra)) as (Hlohi & Hhi & Hlo & _).
  repeat split; try lra. lia.
Qed.

(** Every reported anomaly has a score between 0.5 and 1 and a non-negative
    magnitude, starts and ends at the same timestamp and has the type
    "statistical_outlier"; the threshold is never negative. *)
Theorem anomaly_records (residuals : list AnomalyPoint) (a : Anomaly) :
  a ∈ fst (detect_anomalies_isolation_forest residuals) ->
  0.5 <= score a <= 1 /\ 0 <= magnitude a /\ start a = end_ a /\
  type a = "statistical_outlier" /\ 0 <= iqr_threshold residuals /\
  exists p, p ∈ residuals /\ start a = a_ts p /\
            iqr_threshold residuals < Qabs (actual p - predicted p) /\
            magnitude a = py_round (Qabs (actual p - predicted p)) 2.
Proof.
  intros Ha.
  destruct residuals as [|p0 residuals];
    [apply elem_of_nil in Ha; destruct Ha |].
  rewrite detect_anomalies_flagged in Ha by discriminate. cbn [fst] in Ha.
  apply list_elem_of_In, in_map_iff in Ha. destruct Ha as (p & <- & Hp).
  apply list_elem_of_In, list_elem_of_filter in Hp. destruct Hp as [Hflag Hp].
  destruct (iqr_threshold_lower (p0 :: residuals)) as (Ht0 & _); [discriminate |].
  revert Ht0 Hflag. generalize (iqr_threshold (p0 :: residuals)). intros t Ht0 Hflag.
  cbn [anomaly_of score magnitude start end_ type].
  assert (Hscore : (1 # 2) <= outlier_score t (residual_of p) <= 1).
  { unfold outlier_score. destruct (Qeq_dec (t * 2) 0) as [Hz | Hz]; [lra |].
    split; [apply Q.min_glb; [lra |] | apply Q.le_min_l].
    apply Qle_shift_div_l; lra. }
  repeat split.
  - assert (H5 : py_round (1 # 2) 3 == 0.5) by reflexivity.
    rewrite <- H5. apply py_round_mono, Hscore.
  - assert (H1 : py_round 1 3 == 1) by reflexivity.
    rewrite <- H1. apply py_round_mono, Hscore.
  - apply py_round_nonneg, Qabs_nonneg.
  - exact Ht0.
  - exists p. repeat split; [exact Hp | exact Hflag].
Qed.

Lemma anomaly_records_witness :
  0.5 <= score (anomaly_of 3 {| a_ts := "8"; actual := 4; predicted := 0 |}) <= 1.
Proof.
  apply (anomaly_records nine_residuals).
  apply list_elem_of_In. vm_compute. left. reflexivity.
Defined.

Lemma filter_none {A : Type} (P : A -> Prop) `{!forall x, Decision (P x)} (l : list A) :
  Forall (fun x => ~ P x) l -> filter P l = [].
Proof.
  induction 1 as [|x l Hx Hl IH]; [reflexivity |].
  rewrite filter_cons_False by exact Hx. exact IH.
Qed.

Lemma length_filter_impl {A : Type} (P R : A -> Prop)
    `{!forall x, Decision (P x)} `{!forall x, Decision (R x)} (l : list A) :
  (forall x, P x -> R x) -> (length (filter P l) <= length (filter R l))%nat.
Proof.
  intros HPR. induction l as [|x l IH]; [reflexivity |].
  rewrite !filter_cons. repeat case_decide; simpl; try lia.
  exfalso. auto.
Qed.

Lemma length_filter_map {A B : Type} (f : A -> B) (P : B -> Prop)
    `{!forall y, Decision (P y)} (l : list A) :
  length (filter (fun x => P (f x)) l) = length (filter P (map f l)).
Proof.
  induction l as [|x l IH]; [reflexivity |].
  cbn [map]. rewrite !filter_cons. repeat case_decide; simpl; congruence.
Qed.

(** In a sorted list, the values above the one at position [k] are among
    the positions after [k]. *)
Lemma sorted_above_position (s : list Q) (k : nat) :
  StronglySorted Qle s -> (k < length s)%nat ->
  (length (filter (fun x => (nth k s 0 < x)%Q) s) <= length s - 1 - k)%nat.
Proof.
  intros Hs Hk.
  rewrite <- (take_drop (S k) s) at 2. rewrite filter_app, length_app.
  rewrite (filter_none _ (take (S k) s)).
  - simpl. etransitivity; [apply length_filter |]. rewrite length_drop. lia.
  - apply Forall_forall. intros x Hx. apply elem_of_take in Hx.
    destruct Hx as (i & Hi & Hik).
    assert (Hx : x = nth i s 0) by (rewrite nth_lookup, Hi; reflexivity).
    subst x. apply Qle_not_lt. apply sorted_nth_le; [exact Hs | lia | exact Hk].
Qed.

(** The flagged points are among those above the order statistic just
    below the third quartile. *)
Lemma flagged_count (residuals : list AnomalyPoint) :
  residuals <> [] ->
  (4 * length (filter (fun p => (iqr_threshold residuals < residual_of p)%Q) residuals)
   <= length residuals + 2)%nat.
Proof.
  intros Hne.
  destruct (iqr_threshold_lower residuals Hne) as (Ht0 & Htk & Hk).
  set (t := iqr_threshold residuals) in *.
  set (a := map residual_of residuals) in *.
  set (k := Z.to_nat (Qfloor (inject_Z (Z.of_nat (length a - 1)) * (75 / 100)))) in *.
  assert (Hla : length a = length residuals) by (subst a; apply length_map).
  assert (Hcount : (length (filter (fun p => (t < residual_of p)%Q) residuals)
                    <= length residuals - 1 - k)%nat).
  { rewrite (length_filter_map residual_of (fun x => t < x) residuals). fold a.
    etransitivity;
      [apply (length_filter_impl _ (fun x => nth k (sort_by Qltb a) 0 < x)) |].
    - intros x Hx. lra.
    - rewrite <- (sort_by_permutation Qltb a) at 2.
      etransitivity; [apply sorted_above_position |].
      + apply sort_by_Qltb_sorted.
      + now rewrite (sort_by_permutation Qltb a).
      + rewrite (sort_by_permutation Qltb a). lia. }
  assert (Hk4 : (3 * (length residuals - 1) < 4 * k + 4)%nat).
  { subst k. rewrite Hla.
    set (h := inject_Z (Z.of_nat (length residuals - 1)) * (75 / 100)).
    pose proof (Qlt_floor h) as Hlt.
    destruct (percentile_position (length residuals) 75 ltac:(lra)) as [[Hf0 _] _].
    fold h in Hf0.
    assert (Hz : (3 * Z.of_nat (length residuals - 1) < 4 * Qfloor h + 4)%Z).
    { assert (Hh : h == inject_Z (Z.of_nat (length residuals - 1)) * (3 # 4))
        by (unfold h; field).
      rewrite Zlt_Qlt, inject_Z_plus, !inject_Z_mult.
      rewrite inject_Z_plus in Hlt.
      change (inject_Z 3) with 3. change (inject_Z 4) with 4.
      change (inject_Z 1) with 1 in Hlt. lra. }
    lia. }
  lia.
Qed.

Lemma anomaly_rate_range (residuals : list AnomalyPoint) :
  0 <= snd (detect_anomalies_isolation_forest residuals) /\
  ((7 <= length residuals)%nat ->
   snd (detect_anomalies_isolation_forest residuals) <= 9 # 28).
Proof.
  destruct residuals as [|p0 residuals].
  { cbn. split; [lra | lia]. }
  set (rs := p0 :: residuals).
  assert (Hne : rs <> []) by discriminate.
  rewrite (detect_anomalies_flagged rs Hne). cbn [snd].
  pose proof (flagged_count rs Hne) as Hc4.
  set (c := length (filter _ rs)) in *.
  assert (Hn : 0 < inject_Z (Z.of_nat (length rs))).
  { change 0 with (inject_Z 0). rewrite <- Zlt_Qlt. subst rs. simpl. lia. }
  assert (Hc : 0 <= inject_Z (Z.of_nat c)).
  { change 0 with (inject_Z 0). rewrite <- Zle_Qle. lia. }
  split.
  - apply Qle_shift_div_l; [exact Hn | lra].
  - intros Hlen. apply Qle_shift_div_r; [exact Hn |].
    assert (Hz : (28 * Z.of_nat c <= 9 * Z.of_nat (length rs))%Z) by lia.
    rewrite Zle_Qle, !inject_Z_mult in Hz.
    change (inject_Z 28) with 28 in Hz. change (inject_Z 9) with 9 in Hz. lra.
Qed.

(** At most a quarter of the points, rounded up, are flagged: four times
    the number of anomalies is at most the number of points plus two.  On
    seven points or more the anomaly rate is at most 9/28. *)
Theorem anomaly_count_bound (residuals : list AnomalyPoint) :
  let anomalies := fst (detect_anomalies_isolation_forest residuals) in
  let anomaly_rate := snd (detect_anomalies_isolation_forest residuals) in
  (4 * length anomalies <= length residuals + 2)%nat /\
  0 <= anomaly_rate /\
  (residuals <> [] ->
   anomaly_rate == inject_Z (Z.of_nat (length anomalies))
                   / inject_Z (Z.of_nat (length residuals))) /\
  ((7 <= length residuals)%nat -> anomaly_rate <= 9 # 28).
Proof.
  cbv zeta.
  destruct (anomaly_rate_range residuals) as [Hrate0 Hrate].
  split; [| split; [exact Hrate0 | split; [| exact Hrate]]].
  - destruct residuals as [|p0 residuals]; [cbn; lia |].
    rewrite detect_anomalies_flagged by discriminate. cbn [fst].
    rewrite length_map. apply flagged_count. discriminate.
  - intros Hne. rewrite (detect_anomalies_flagged residuals Hne). cbn [fst snd].
    rewrite length_map. reflexivity.
Qed.

Lemma anomaly_count_bound_witness :
  snd (detect_anomalies_isolation_forest nine_residuals) <= 9 # 28.
Proof.
  apply (anomaly_count_bound nine_residuals). simpl. lia.
Defined.

(** When all residuals have the same magnitude nothing is flagged. *)
Theorem equal_residuals_no_anomaly (residuals : list AnomalyPoint) (c : Q) :
  (forall p, p ∈ residuals -> Qabs (actual p - predicted p) == c) ->
  fst (detect_anomalies_isolation_forest residuals) = [] /\
  snd (detect_anomalies_isolation_forest residuals) == 0.
Proof.
  intros Hall.
  destruct residuals as [|p0 residuals]; [split; reflexivity |].
  set (rs := p0 :: residuals) in *.
  assert (Hne : rs <> []) by discriminate.
  rewrite (detect_anomalies_flagged rs Hne). cbn [fst snd].
  destruct (iqr_threshold_lower rs Hne) as (_ & Htk & Hk).
  assert (Hc : c <= iqr_threshold rs).
  { set (a := map residual_of rs) in *.
    set (k := Z.to_nat (Qfloor (inject_Z (Z.of_nat (length a - 1)) * (75 / 100)))) in *.
    assert (Hin : In (nth k (sort_by Qltb a) 0) a).
    { apply (Permutation_in _ (sort_by_permutation Qltb a)).
      apply nth_In. now rewrite (sort_by_permutation Qltb a). }
    apply in_map_iff in Hin. destruct Hin as (p & Hp & Hin).
    apply list_elem_of_In in Hin. specialize (Hall p Hin).
    fold (residual_of p) in Hall. rewrite <- Hall, Hp. exact Htk. }
  rewrite filter_none.
  - split; [reflexivity |]. simpl. unfold Qdiv. ring.
  - apply Forall_forall. intros p Hp. specialize (Hall p Hp).
    fold (residual_of p) in Hall. lra.
Qed.

Lemma equal_residuals_no_anomaly_witness :
  fst (detect_anomalies_isolation_forest (residual_series [2; 2; 2; 2; 2; 2; 2])) = [].
Proof.
  apply (equal_residuals_no_anomaly (residual_series [2; 2; 2; 2; 2; 2; 2]) 2).
  intros p Hp. apply list_elem_of_In in Hp. simpl in Hp.
  repeat (destruct Hp as [<- | Hp]; [reflexivity |]). destruct Hp.
Defined.

Lemma residual_swap (p : AnomalyPoint) :
  Qabs (actual (swap_point p) - predicted (swap_point p))
  = Qabs (actual p - predicted p).
Proof.
  destruct p as [t [an ad] [pn pd]]. cbn [swap_point actual predicted].
  unfold Qabs, Qminus, Qplus, Qopp. cbn [Qnum Qden].
  f_equal; [| apply Pos.mul_comm].
  replace (pn * Z.pos ad + - an * Z.pos pd)%Z
    with (- (an * Z.pos pd + - pn * Z.pos ad))%Z by ring.
  apply Z.abs_opp.
Qed.

(** The detector does not distinguish over- from under-prediction:
    exchanging the actual and the predicted value of every point leaves the
    result unchanged. *)
Theorem detect_anomalies_swap (residuals : list AnomalyPoint) :
  detect_anomalies_isolation_forest (map swap_point residuals)
  = detect_anomalies_isolation_forest residuals /\
  detect_anomalies (map swap_point residuals) = detect_anomalies residuals.
Proof.
  assert (Hstep : forall t st p, anomaly_step t st (swap_point p) = anomaly_step t st p).
  { intros t [acc n] p. unfold anomaly_step. rewrite residual_swap. reflexivity. }
  assert (Hfold : forall t l st,
            fold_left (anomaly_step t) (map swap_point l) st
            = fold_left (anomaly_step t) l st).
  { intros t l. induction l as [|p l IH]; intros st; [reflexivity |].
    cbn [map fold_left]. rewrite Hstep. apply IH. }
  assert (Hmap : map (fun p => Qabs (actual p - predicted p)) (map swap_point residuals)
                 = map (fun p => Qabs (actual p - predicted p)) residuals).
  { rewrite map_map. apply map_ext. intros p. apply residual_swap. }
  assert (Hhelper : detect_anomalies_isolation_forest (map swap_point residuals)
                    = detect_anomalies_isolation_forest residuals).
  { unfold detect_anomalies_isolation_forest. cbv zeta.
    rewrite Hmap, Hfold, length_map.
    destruct residuals; reflexivity. }
  split; [exact Hhelper |].
  unfold detect_anomalies. cbv zeta. now rewrite Hhelper, length_map.
Qed.

(** An empty list of residuals, given to the detector directly, yields no
    anomaly and the rate 0; the end point returns, for seven residuals or
    more, the anomalies of the detector, its rate rounded to three decimals
    (between 0 and 0.321) and the method "iqr_statistical". *)
Theorem detect_anomalies_response (residuals : list AnomalyPoint) :
  detect_anomalies_isolation_forest [] = ([], 0.0) /\
  ((7 <= length residuals)%nat ->
   exists response,
     detect_anomalies residuals = inr response /\
     anomalies response = fst (detect_anomalies_isolation_forest residuals) /\
     anomaly_rate response
     = py_round (snd (detect_anomalies_isolation_forest residuals)) 3 /\
     0 <= anomaly_rate response <= 0.321 /\
     method response = "iqr_statistical").
Proof.
  split; [reflexivity |]. intros Hlen.
  unfold detect_anomalies. cbv zeta.
  destruct (Nat.ltb_spec (length residuals) 7) as [Hlt | _]; [lia |].
  destruct (anomaly_rate_range residuals) as [H0 H9]. specialize (H9 Hlen).
  destruct (detect_anomalies_isolation_forest residuals) as [anoms rate].
  cbn [fst snd] in *. eexists. split; [reflexivity |].
  cbn [anomalies anomaly_rate method]. repeat split.
  - now apply py_round_nonneg.
  - assert (H321 : py_round (9 # 28) 3 == 0.321) by reflexivity.
    rewrite <- H321. now apply py_round_mono.
Qed.

Lemma detect_anomalies_response_witness :
  exists response,
    detect_anomalies nine_residuals = inr response /\
    method response = "iqr_statistical".
Proof.
  destruct (detect_anomalies_response nine_residuals) as (_ & H).
  destruct H as (response & Hr & _ & _ & _ & Hm); [simpl; lia |].
  exists response. auto.
Defined.

(** *** Seasonal forecast *)

(** Every failure of the two time-series end points carries status 500: the
    status-400 exception of the length guard is wrapped like any other
    exception.  [forecast_power] fails for a short series; on 24 points or
    more it fails for an invalid last timestamp, with [ValueError], and for
    a forecast date beyond the calendar, with [OverflowError], and for
    nothing else.  [detect_anomalies] fails only for a short list. *)
Theorem endpoint_failures (fromisoformat : string -> option Z) (draws : nat -> Q)
    (request : ForecastRequest) (residuals : list AnomalyPoint) :
  (forall e, forecast_power fromisoformat draws request = inl e ->
     (e = too_short_forecast /\ (length (data request) < 24)%nat) \/
     (e = HTTPException 500 (StrOf ValueError) /\
      (24 <= length (data request))%nat /\
      exists p, last (data request) = Some p /\ fromisoformat (ts p) = None) \/
     (e = HTTPException 500 (StrOf OverflowError) /\
      (24 <= length (data request))%nat /\
      exists p base_date,
        last (data request) = Some p /\ fromisoformat (ts p) = Some base_date /\
        ~ horizon_in_range base_date (forecast_days request))) /\
  ((24 <= length (data request))%nat ->
   forall p, last (data request) = Some p -> fromisoformat (ts p) = None ->
   forecast_power fromisoformat draws request
   = inl (HTTPException 500 (StrOf ValueError))) /\
  ((24 <= length (data request))%nat ->
   forall p base_date, last (data request) = Some p ->
   fromisoformat (ts p) = Some base_date ->
   ~ horizon_in_range base_date (forecast_days request) ->
   forecast_power fromisoformat draws request
   = inl (HTTPException 500 (StrOf OverflowError))) /\
  (forall e, detect_anomalies residuals = inl e ->
     e = too_short_anomalies /\ (length residuals < 7)%nat).
Proof.
  assert (Hbad : (24 <= length (data request))%nat ->
                 forall p, last (data request) = Some p ->
                 fromisoformat (ts p) = None ->
                 forecast_power fromisoformat draws request
                 = inl (HTTPException 500 (StrOf ValueError))).
  { intros Hlen p Hlast Hts. unfold forecast_power. cbv zeta.
    destruct (Nat.ltb_spec (length (data request)) 24) as [Hlt | _]; [lia |].
    unfold simple_seasonal_forecast. cbv zeta.
    change (map ts (data request)) with (ts <$> data request).
    rewrite fmap_last, Hlast. simpl. rewrite Hts. reflexivity. }
  assert (Hfar : (24 <= length (data request))%nat ->
                 forall p base_date, last (data request) = Some p ->
                 fromisoformat (ts p) = Some base_date ->
                 ~ horizon_in_range base_date (forecast_days request) ->
                 forecast_power fromisoformat draws request
                 = inl (HTTPException 500 (StrOf OverflowError))).
  { intros Hlen p base_date Hlast Hts Hrange. unfold forecast_power. cbv zeta.
    destruct (Nat.ltb_spec (length (data request)) 24) as [Hlt | _]; [lia |].
    now rewrite (simple_seasonal_forecast_overflow _ _ _ _ p base_date Hlast Hts Hrange). }
  split; [| split; [exact Hbad | split; [exact Hfar |]]].
  - intros e He.
    destruct (Nat.ltb_spec (length (data request)) 24) as [Hlt | Hge].
    + left. split; [| exact Hlt].
      unfold forecast_power in He. cbv zeta in He.
      apply Nat.ltb_lt in Hlt. rewrite Hlt in He. now injection He as <-.
    + right.
      destruct (last (data request)) as [p|] eqn:Hlast;
        [| apply last_None in Hlast; rewrite Hlast in Hge; simpl in Hge; lia].
      destruct (fromisoformat (ts p)) as [base|] eqn:Hts.
      * right.
        destruct (horizon_in_range_dec base (forecast_days request)) as [Hr | Hr].
        -- exfalso. unfold forecast_power in He. cbv zeta in He.
           apply Nat.ltb_ge in Hge. rewrite Hge in He.
           rewrite (simple_seasonal_forecast_points _ _ _ _ p base Hlast Hts Hr) in He.
           discriminate.
        -- rewrite (Hfar Hge p base eq_refl Hts Hr) in He. injection He as <-.
           eauto 10.
      * left. rewrite (Hbad Hge p eq_refl Hts) in He. injection He as <-. eauto.
  - intros e He. unfold detect_anomalies in He. cbv zeta in He.
    destruct (Nat.ltb_spec (length residuals) 7) as [Hlt | Hge].
    + now injection He as <-.
    + destruct (detect_anomalies_isolation_forest residuals). discriminate.
Qed.

(** A series whose last timestamp is the last day of the year 9999: the
    first date of the forecast is beyond the calendar. *)
Lemma endpoint_failures_witness :
  forecast_power (fun _ => Some 3652059%Z) (fun _ => 0)
    {| data := constant_series 5 24; forecast_days := 7 |}
  = inl (HTTPException 500 (StrOf OverflowError)).
Proof.
  destruct (endpoint_failures (fun _ => Some 3652059%Z) (fun _ => 0)
              {| data := constant_series 5 24; forecast_days := 7 |} [])
    as (_ & _ & Hfar & _).
  apply (Hfar ltac:(simpl; lia)
           {| ts := "2024-06-01T00:00:00Z"; ghi_wm2 := 0; air_temp_c := 25;
              wind_ms := 2; ac_kw := 5 |} 3652059%Z); [reflexivity | reflexivity |].
  unfold horizon_in_range, max_ordinal. simpl. lia.
Defined.

(** A successful forecast has one entry per requested day, none for a
    horizon of zero or less; the entries are dated with the consecutive
    days after the last timestamp, and the response carries the confidence
    0.78 and the model name "seasonal_pattern". *)
Theorem forecast_shape (fromisoformat : string -> option Z) (draws : nat -> Q)
    (request : ForecastRequest) (p : TimeSeriesPoint) (base_date : Z) :
  (24 <= length (data request))%nat ->
  last (data request) = Some p -> fromisoformat (ts p) = Some base_date ->
  horizon_in_range base_date (forecast_days request) ->
  exists response,
    forecast_power fromisoformat draws request = inr response /\
    map date (forecast response)
    = map (fun k => (base_date + Z.of_nat k + 1)%Z)
        (seq 0 (Z.to_nat (forecast_days request))) /\
    confidence response = 0.78 /\
    model_used response = "seasonal_pattern" /\
    ((forecast_days request <= 0)%Z -> forecast response = []).
Proof.
  intros Hlen Hlast Hts Hrange. unfold forecast_power. cbv zeta.
  destruct (Nat.ltb_spec (length (data request)) 24) as [Hlt | _]; [lia |].
  rewrite (simple_seasonal_forecast_points _ _ _ _ p base_date Hlast Hts Hrange).
  eexists. split; [reflexivity |]. cbn [forecast confidence model_used].
  repeat split.
  - rewrite map_map. apply map_ext. intros k. cbn [forecast_point date]. lia.
  - intros Hdays. replace (Z.to_nat (forecast_days request)) with 0%nat by lia.
    reflexivity.
Qed.

Lemma forecast_shape_witness :
  exists response,
    forecast_power (fun _ => Some 100%Z) (fun _ => 0)
      {| data := constant_series 5 24; forecast_days := 3 |} = inr response /\
    map date (forecast response) = [101; 102; 103]%Z.
Proof.
  destruct (forecast_shape (fun _ => Some 100%Z) (fun _ => 0)
              {| data := constant_series 5 24; forecast_days := 3 |}
              {| ts := "2024-06-01T00:00:00Z"; ghi_wm2 := 0; air_temp_c := 25;
                 wind_ms := 2; ac_kw := 5 |} 100)
    as (response & Hr & Hd & _);
    [simpl; lia | reflexivity | reflexivity
     | unfold horizon_in_range, max_ordinal; simpl; lia |].
  exists response. split; [exact Hr | exact Hd].
Defined.

(** On non-negative power values every predicted daily output lies within
    5 percent of the daily total of the hourly profile, up to the rounding
    to two decimals. *)
Theorem forecast_band (fromisoformat : string -> option Z) (draws : nat -> Q)
    (request : ForecastRequest) :
  (24 <= length (data request))%nat ->
  (forall p, last (data request) = Some p -> is_Some (fromisoformat (ts p))) ->
  (forall p base_date, last (data request) = Some p ->
     fromisoformat (ts p) = Some base_date ->
     horizon_in_range base_date (forecast_days request)) ->
  (forall k, 0 <= draws k < 1) ->
  Forall (fun p => 0 <= ac_kw p) (data request) ->
  let daily_total := py_sum (daily_pattern_of (map ac_kw (data request))) in
  exists response,
    forecast_power fromisoformat draws request = inr response /\
    Forall (fun pt =>
              py_round (daily_total * 0.95) 2 <= ac_kw_hat pt
              /\ ac_kw_hat pt <= py_round (daily_total * 1.05) 2)
      (forecast response).
Proof.
  intros Hlen Hts Hrange Hdraws Hac. cbv zeta. unfold forecast_power. cbv zeta.
  destruct (Nat.ltb_spec (length (data request)) 24) as [Hlt | _]; [lia |].
  destruct (last (data request)) as [p|] eqn:Hlast;
    [| apply last_None in Hlast; rewrite Hlast in Hlen; simpl in Hlen; lia].
  destruct (Hts p eq_refl) as [base_date Hbase].
  rewrite (simple_seasonal_forecast_points _ _ _ _ p base_date Hlast Hbase
             (Hrange p base_date eq_refl Hbase)).
  eexists. split; [reflexivity |]. cbn [forecast].
  apply Forall_forall. intros pt Hpt.
  apply list_elem_of_In, in_map_iff in Hpt. destruct Hpt as (day & <- & _).
  cbn [forecast_point ac_kw_hat].
  assert (Ht : 0 <= py_sum (daily_pattern_of (map ac_kw (data request)))).
  { apply py_sum_nonneg, daily_pattern_nonneg.
    apply Forall_forall. intros x Hx.
    apply list_elem_of_In, in_map_iff in Hx. destruct Hx as (q & <- & Hq).
    rewrite Forall_forall in Hac. apply Hac. now apply list_elem_of_In. }
  revert Ht. generalize (py_sum (daily_pattern_of (map ac_kw (data request)))).
  intros total Ht. specialize (Hdraws day). revert Hdraws.
  generalize (draws day). intros u Hu.
  assert (H1 : 0 <= total * u) by (apply Qmult_le_0_compat; lra).
  assert (H2 : 0 <= total * (1 - u)) by (apply Qmult_le_0_compat; lra).
  assert (Hmax : py_max 0 (total * (0.95 + u * 0.1)) == total * (0.95 + u * 0.1)).
  { unfold py_max. qcases. }
  rewrite (py_round_comp _ _ 2 Hmax).
  split; apply py_round_mono; lra.
Qed.

Lemma forecast_band_witness :
  exists response,
    forecast_power (fun _ => Some 0%Z) (fun _ => 0.123)
      {| data := constant_series 5 24; forecast_days := 2 |} = inr response /\
    Forall (fun pt => 114 <= ac_kw_hat pt /\ ac_kw_hat pt <= 126) (forecast response).
Proof.
  destruct (forecast_band (fun _ => Some 0%Z) (fun _ => 0.123)
              {| data := constant_series 5 24; forecast_days := 2 |})
    as (response & Hr & Hband).
  - simpl. lia.
  - intros p _. simpl. eauto.
  - intros p base_date _ [= <-]. unfold horizon_in_range, max_ordinal. simpl. lia.
  - intros k. lra.
  - apply Forall_forall. intros p Hp. apply list_elem_of_In, repeat_spec in Hp.
    rewrite Hp. simpl. lra.
  - exists response. split; [exact Hr |].
    eapply Forall_impl; [exact Hband |]. intros pt. cbv beta.
    assert (E1 : py_round (py_sum (daily_pattern_of
                   (map ac_kw (data {| data := constant_series 5 24;
                                       forecast_days := 2 |}))) * 0.95) 2 == 114)
      by (vm_compute; reflexivity).
    assert (E2 : py_round (py_sum (daily_pattern_of
                   (map ac_kw (data {| data := constant_series 5 24;
                                       forecast_days := 2 |}))) * 1.05) 2 == 126)
      by (vm_compute; reflexivity).
    rewrite E1, E2. tauto.
Defined.

Lemma fold_left_snoc_map {A B : Type} (f : B -> A) (l : list B) (acc : list A) :
  fold_left (fun acc b => acc ++ [f b]) l acc = acc ++ map f l.
Proof.
  revert acc. induction l as [|b l IH]; intros acc; simpl.
  - now rewrite app_nil_r.
  - rewrite IH, <- app_assoc. reflexivity.
Qed.

Lemma py_sum_Forall2 (l l' : list Q) : Forall2 Qeq l l' -> py_sum l == py_sum l'.
Proof.
  induction 1 as [|x y l l' Hxy Hl IH]; [reflexivity |].
  unfold py_sum. simpl. rewrite !py_sum_from, IH, Hxy. reflexivity.
Qed.

(** The hourly profile has one entry per hour present in the series, at
    most 24; for a series of at most 24 points it is the series itself. *)
Lemma daily_pattern_shape (ac_values : list Q) :
  length (daily_pattern_of ac_values) = Nat.min 24 (length ac_values) /\
  ((length ac_values <= 24)%nat ->
   Forall2 Qeq (daily_pattern_of ac_values) ac_values /\
   py_sum (daily_pattern_of ac_values) == py_sum ac_values).
Proof.
  unfold daily_pattern_of.
  rewrite (fold_left_snoc_map
             (fun i => match map (fun j => nth j ac_values 0)
                               (py_range i (length ac_values) 24) with
                       | [] => 0
                       | _ => np_mean (map (fun j => nth j ac_values 0)
                                         (py_range i (length ac_values) 24))
                       end)).
  rewrite py_range_seq. cbn [app]. split; [now rewrite length_map, length_seq |].
  intros Hlen. rewrite Nat.min_r by exact Hlen.
  assert (H2 : Forall2 Qeq
                 (map (fun i => match map (fun j => nth j ac_values 0)
                                        (py_range i (length ac_values) 24) with
                                | [] => 0
                                | _ => np_mean (map (fun j => nth j ac_values 0)
                                                  (py_range i (length ac_values) 24))
                                end) (seq 0 (length ac_values)))
                 ac_values).
  { apply Forall2_same_length_lookup_2; [now rewrite length_map, length_seq |].
    intros i x y Hx Hy.
    change map with (@fmap list _) in Hx at 1. rewrite list_lookup_fmap in Hx.
    destruct (seq 0 (length ac_values) !! i) as [i'|] eqn:Hi; [| discriminate].
    apply lookup_seq in Hi. destruct Hi as [-> Hi]. simpl in Hx.
    injection Hx as <-.
    assert (Hr : py_range i (length ac_values) 24 = [i]).
    { unfold py_range.
      replace ((length ac_values - i + 24 - 1) / 24)%nat with 1%nat.
      - simpl. f_equal. lia.
      - apply (Nat.div_unique _ 24 1 (length ac_values - i - 1)); lia. }
    rewrite Hr. cbn [map]. rewrite nth_lookup, Hy. simpl.
    unfold np_mean, py_sum. simpl. field. }
  split; [exact H2 | now apply py_sum_Forall2].
Qed.

(** Called directly, the forecast helper fails with [IndexError] on an empty
    series, with [ValueError] on an invalid last timestamp and with
    [OverflowError] when a date of the forecast is beyond the calendar;
    otherwise it succeeds whatever the length of the series, with one entry
    per requested day and the confidence 0.78.  On a series of at most 24
    points its daily total is the plain sum of the series. *)
Theorem seasonal_forecast_direct (fromisoformat : string -> option Z)
    (draws : nat -> Q) (data : list TimeSeriesPoint) (days : Z) :
  simple_seasonal_forecast fromisoformat draws [] days = inl IndexError /\
  (forall p, last data = Some p -> fromisoformat (ts p) = None ->
     simple_seasonal_forecast fromisoformat draws data days = inl ValueError) /\
  (forall p base_date, last data = Some p ->
     fromisoformat (ts p) = Some base_date ->
     ~ horizon_in_range base_date days ->
     simple_seasonal_forecast fromisoformat draws data days = inl OverflowError) /\
  (forall p base_date, last data = Some p ->
     fromisoformat (ts p) = Some base_date ->
     horizon_in_range base_date days ->
     exists forecast,
       simple_seasonal_forecast fromisoformat draws data days = inr (forecast, 0.78) /\
       length forecast = Z.to_nat days /\
       ((length data <= 24)%nat ->
        forall k pt, forecast !! k = Some pt ->
          ac_kw_hat pt
          = py_round (py_max 0 (py_sum (map ac_kw data) * (0.95 + draws k * 0.1))) 2)).
Proof.
  split; [reflexivity |]. split; [| split].
  - intros p Hlast Hts. unfold simple_seasonal_forecast. cbv zeta.
    change (map ts data) with (ts <$> data).
    rewrite fmap_last, Hlast. simpl. rewrite Hts. reflexivity.
  - intros p base_date Hlast Hts Hrange.
    exact (simple_seasonal_forecast_overflow _ _ _ _ p base_date Hlast Hts Hrange).
  - intros p base_date Hlast Hts Hrange.
    rewrite (simple_seasonal_forecast_points _ _ _ _ p base_date Hlast Hts Hrange).
    eexists. split; [reflexivity |]. split; [now rewrite length_map, length_seq |].
    intros Hlen k pt Hpt.
    change map with (@fmap list _) in Hpt at 1. rewrite list_lookup_fmap in Hpt.
    destruct (seq 0 (Z.to_nat days) !! k) as [day|] eqn:Hday; [| discriminate].
    apply lookup_seq in Hday. destruct Hday as [-> _]. simpl in Hpt.
    injection Hpt as <-. cbn [forecast_point ac_kw_hat].
    apply py_round_comp.
    destruct (daily_pattern_shape (map ac_kw data)) as [_ Hsum].
    rewrite length_map in Hsum. destruct (Hsum Hlen) as [_ Htotal].
    revert Htotal. change (0 + k)%nat with k.
    generalize (py_sum (daily_pattern_of (map ac_kw data))) (py_sum (map ac_kw data))
      (0.95 + draws k * 0.1).
    intros t t' f Htotal.
    assert (Hf : t * f == t' * f) by now rewrite Htotal.
    revert Hf. generalize (t * f) (t' * f). intros x y Hxy.
    unfold py_max. qcases.
Qed.

(** Three points ending on 1 June 2024 (day 739038) and a horizon of two
    days; the same series with a horizon of three million days. *)
Lemma seasonal_forecast_direct_witness :
  (exists forecast,
     simple_seasonal_forecast (fun _ => Some 739038%Z) (fun _ => 0)
       (constant_series 5 3) 2 = inr (forecast, 0.78) /\
     length forecast = 2%nat) /\
  simple_seasonal_forecast (fun _ => Some 739038%Z) (fun _ => 0)
    (constant_series 5 3) 3000000 = inl OverflowError.
Proof.
  split.
  - destruct (seasonal_forecast_direct (fun _ => Some 739038%Z) (fun _ => 0)
                (constant_series 5 3) 2) as (_ & _ & _ & Hok).
    destruct (Hok {| ts := "2024-06-01T00:00:00Z"; ghi_wm2 := 0; air_temp_c := 25;
                     wind_ms := 2; ac_kw := 5 |} 739038%Z eq_refl eq_refl)
      as (forecast & Hf & Hlen & _).
    + unfold horizon_in_range, max_ordinal. simpl. lia.
    + exists forecast. split; [exact Hf | exact Hlen].
  - destruct (seasonal_forecast_direct (fun _ => Some 739038%Z) (fun _ => 0)
                (constant_series 5 3) 3000000) as (_ & _ & Hfar & _).
    apply (Hfar {| ts := "2024-06-01T00:00:00Z"; ghi_wm2 := 0; air_temp_c := 25;
                   wind_ms := 2; ac_kw := 5 |} 739038%Z eq_refl eq_refl).
    unfold horizon_in_range, max_ordinal. simpl. lia.
Defined.

(** *** Image analysis *)

Lemma prefix_append (sub s : string) :
  String.prefix sub s = true <-> exists rest, s = sub +:+ rest.
Proof.
  revert s. induction sub as [|a sub IH]; intros s.
  - destruct s; simpl; split; eauto.
  - destruct s as [|b s]; simpl.
    + split; [discriminate | intros [rest [=]]].
    + destruct (Ascii.ascii_dec a b) as [<- | Hab].
      * rewrite IH. split; intros [rest H]; exists rest; [now rewrite H |].
        now injection H.
      * split; [discriminate | intros [rest H]]. injection H as H1 _. congruence.
Qed.

Lemma str_contains_unfold (sub s : string) :
  str_contains sub s
  = if String.prefix sub s then true
    else match s with
         | EmptyString => false
         | String _ s' => str_contains sub s'
         end.
Proof. destruct s; reflexivity. Qed.

(** [sub in s] holds exactly when [sub] occurs in [s]. *)
Lemma str_contains_occurs (sub s : string) :
  str_contains sub s = true <-> occurs sub s.
Proof.
  unfold occurs. split.
  - induction s as [|c s IH]; rewrite str_contains_unfold;
      destruct (String.prefix sub _) eqn:Hp.
    + intros _. apply prefix_append in Hp. destruct Hp as [rest ->].
      exists EmptyString, rest. reflexivity.
    + discriminate.
    + intros _. apply prefix_append in Hp. destruct Hp as [rest ->].
      exists EmptyString, rest. reflexivity.
    + intros H. destruct (IH H) as (before & after & ->).
      exists (String c before), after. reflexivity.
  - intros (before & after & ->).
    induction before as [|c before IH]; rewrite str_contains_unfold.
    + assert (Hp : String.prefix sub (EmptyString +:+ sub +:+ after) = true)
        by (apply prefix_append; exists after; reflexivity).
      rewrite Hp. reflexivity.
    + destruct (String.prefix sub _); [reflexivity |]. exact IH.
Qed.

Lemma str_contains_not_occurs (sub s : string) :
  str_contains sub s = false <-> ~ occurs sub s.
Proof.
  rewrite <- str_contains_occurs. destruct (str_contains sub s); split;
    congruence.
Qed.

(** The label is decided by the first of the three tests that succeeds on
    the lower-cased URL: "shadow" or "shade", then "dirt" or "soil", then
    "crack"; otherwise the panel is reported clear. *)
Theorem image_type_cases (image_url : string) :
  let u := str_lower image_url in
  let r := analyze_image_simple image_url in
  let shading := occurs "shadow" u \/ occurs "shade" u in
  let soiling := occurs "dirt" u \/ occurs "soil" u in
  (img_type r = "shading" <-> shading) /\
  (img_type r = "soiling" <-> ~ shading /\ soiling) /\
  (img_type r = "crack" <-> ~ shading /\ ~ soiling /\ occurs "crack" u) /\
  (img_type r = "clear" <-> ~ shading /\ ~ soiling /\ ~ occurs "crack" u).
Proof.
  cbv zeta. unfold analyze_image_simple. cbv zeta.
  destruct (str_contains "shadow" _) eqn:H1, (str_contains "shade" _) eqn:H2,
           (str_contains "dirt" _) eqn:H3, (str_contains "soil" _) eqn:H4,
           (str_contains "crack" _) eqn:H5;
    first [apply str_contains_occurs in H1 | apply str_contains_not_occurs in H1];
    first [apply str_contains_occurs in H2 | apply str_contains_not_occurs in H2];
    first [apply str_contains_occurs in H3 | apply str_contains_not_occurs in H3];
    first [apply str_contains_occurs in H4 | apply str_contains_not_occurs in H4];
    first [apply str_contains_occurs in H5 | apply str_contains_not_occurs in H5];
    cbn [orb img_type type_detected];
    repeat split; try discriminate; try tauto.
Qed.

Lemma image_type_cases_witness :
  img_type (analyze_image_simple "https://cdn.example/Crack-and-DIRT.png") = "soiling".
Proof.
  apply (image_type_cases "https://cdn.example/Crack-and-DIRT.png").
  split.
  - intros [H | H]; apply str_contains_occurs in H; discriminate H.
  - left. apply str_contains_occurs. reflexivity.
Defined.

(** The confidence, the occlusion ratio and the detected object go with the
    label: shading 0.82 with ratio 0.25, soiling 0.79 with ratio 0.15, crack
    0.88 and clear 0.92 without a ratio.  There is exactly one detected
    object, with the confidence of the result, and never a mask; the end
    point returns this result. *)
Theorem image_result_fields (image_url : string) :
  let r := analyze_image_simple image_url in
  ((img_type r = "shading" /\ img_confidence r = 0.82 /\
    occlusion_ratio r = Some 0.25 /\ map obj_class (detected_objects r) = ["shadow"]) \/
   (img_type r = "soiling" /\ img_confidence r = 0.79 /\
    occlusion_ratio r = Some 0.15 /\ map obj_class (detected_objects r) = ["dirt"]) \/
   (img_type r = "crack" /\ img_confidence r = 0.88 /\
    occlusion_ratio r = None /\ map obj_class (detected_objects r) = ["crack"]) \/
   (img_type r = "clear" /\ img_confidence r = 0.92 /\
    occlusion_ratio r = None /\ map obj_class (detected_objects r) = ["solar_panel"])) /\
  map obj_confidence (detected_objects r) = [img_confidence r] /\
  mask_url r = None /\
  analyze_image image_url = inr r.
Proof.
  cbv zeta. unfold analyze_image, analyze_image_simple. cbv zeta.
  destruct (_ || _); [| destruct (_ || _); [| destruct (str_contains _ _)]];
    (split; [| repeat split]);
    [ left | right; left | do 2 right; left | do 3 right ]; repeat split.
Qed.

Lemma ascii_lower_idempotent (c : Ascii.ascii) :
  ascii_lower (ascii_lower c) = ascii_lower c.
Proof.
  destruct c as [[] [] [] [] [] [] [] []]; reflexivity.
Qed.

Lemma str_lower_idempotent (s : string) : str_lower (str_lower s) = str_lower s.
Proof.
  induction s as [|c s IH]; [reflexivity |].
  simpl. now rewrite ascii_lower_idempotent, IH.
Qed.

(** The analysis does not depend on the case of the letters in the URL. *)
Theorem image_case_insensitive (image_url other_url : string) :
  analyze_image_simple (str_lower image_url) = analyze_image_simple image_url /\
  (str_lower other_url = str_lower image_url ->
   analyze_image_simple other_url = analyze_image_simple image_url).
Proof.
  split.
  - unfold analyze_image_simple. now rewrite str_lower_idempotent.
  - intros H. unfold analyze_image_simple. now rewrite H.
Qed.

Lemma image_case_insensitive_witness :
  analyze_image_simple "https://cdn.example/Panel-SHADOW-01.JPG"
  = analyze_image_simple "https://cdn.example/panel-shadow-01.jpg".
Proof.
  apply (image_case_insensitive "https://cdn.example/panel-shadow-01.jpg"
           "https://cdn.example/Panel-SHADOW-01.JPG").
  reflexivity.
Defined.

End AiMainMore.
